(** * oe-go-mod-fetcher: a shallow embedding of the resolution engine

    The definitions below follow [scripts/oe-go-mod-fetcher.py].  Python
    strings are modelled as [string] (a character is a code point below
    256), dictionaries as [gmap], sets as [gset], module globals as the
    fields of a [State] record threaded through a small state-and-exception
    monad, and every external command ([subprocess.run]) as a question put
    to an environment oracle that sees the history of earlier events. *)

From Stdlib Require Import ZArith Lia Ascii String List Bool.
From stdpp Require Import gmap strings list fin_maps.

Set Warnings "-clear-no-such-hyp".

Local Open Scope string_scope.
Local Open Scope list_scope.

(** ** Python string primitives *)

Module PyStr.

Definition code (c : ascii) : N := N_of_ascii c.

Definition in_range (lo hi : N) (c : ascii) : bool :=
    ((lo <=? code c) && (code c <=? hi))%N.

  (** [str.isspace] on one character (code points below 256). *)
Definition isspace (c : ascii) : bool :=
    in_range 9 13 c || in_range 28 32 c
    || (code c =? 133)%N || (code c =? 160)%N.

Definition is_ascii_upper (c : ascii) : bool := in_range 65 90 c.
Definition is_ascii_lower (c : ascii) : bool := in_range 97 122 c.
Definition is_ascii_digit (c : ascii) : bool := in_range 48 57 c.

  (** [c.lower()] and [c.upper()] on ASCII letters. *)
Definition ascii_lower (c : ascii) : ascii :=
    if is_ascii_upper c then ascii_of_N (code c + 32) else c.
Definition ascii_upper (c : ascii) : ascii :=
    if is_ascii_lower c then ascii_of_N (code c - 32) else c.

Definition eqb_char (a b : ascii) : bool := Ascii.eqb a b.

Fixpoint lstrip_with (p : ascii -> bool) (s : string) : string :=
    match s with
    | EmptyString => EmptyString
    | String c rest => if p c then lstrip_with p rest else s
    end.

Fixpoint rstrip_with (p : ascii -> bool) (s : string) : string :=
    match s with
    | EmptyString => EmptyString
    | String c rest =>
        match rstrip_with p rest with
        | EmptyString => if p c then EmptyString else String c EmptyString
        | r => String c r
        end
    end.

  (** [s.strip()] *)
Definition strip (s : string) : string :=
    rstrip_with isspace (lstrip_with isspace s).

  (** [s.rstrip(ch)] for a one-character argument. *)
Definition rstrip_char (ch : ascii) (s : string) : string :=
    rstrip_with (eqb_char ch) s.

Definition is_empty (s : string) : bool :=
    match s with EmptyString => true | _ => false end.

  (** [s.startswith(p)] *)
Fixpoint startswith (p s : string) : bool :=
    match p, s with
    | EmptyString, _ => true
    | String a p', String b s' => eqb_char a b && startswith p' s'
    | String _ _, EmptyString => false
    end.

Fixpoint rev_acc (s acc : string) : string :=
    match s with
    | EmptyString => acc
    | String c rest => rev_acc rest (String c acc)
    end.
Definition rev (s : string) : string := rev_acc s EmptyString.

  (** [s.endswith(p)] *)
Definition endswith (p s : string) : bool := startswith (rev p) (rev s).

  (** [p in s] for strings. *)
Fixpoint contains (p s : string) : bool :=
    startswith p s
    || match s with
       | EmptyString => false
       | String _ rest => contains p rest
       end.

Definition snoc (s : string) (c : ascii) : string :=
    String.append s (String c EmptyString).

  (** The loop behind [s.split()]: [cur] is the word being read. *)
Fixpoint split_ws_from (cur : option string) (s : string) : list string :=
    match s with
    | EmptyString => match cur with Some w => [w] | None => [] end
    | String c rest =>
        if isspace c then
          match cur with
          | Some w => w :: split_ws_from None rest
          | None => split_ws_from None rest
          end
        else
          split_ws_from (Some (snoc (default EmptyString cur) c)) rest
    end.

  (** [s.split()] *)
Definition split (s : string) : list string := split_ws_from None s.

  (** [s.split(ch)] for a one-character separator: never empty. *)
Fixpoint split_on_from (ch : ascii) (cur : string) (s : string) : list string :=
    match s with
    | EmptyString => [cur]
    | String c rest =>
        if eqb_char c ch then cur :: split_on_from ch EmptyString rest
        else split_on_from ch (snoc cur c) rest
    end.
Definition split_on (ch : ascii) (s : string) : list string :=
    split_on_from ch EmptyString s.

  (** [sep.join(parts)] *)
Fixpoint join (sep : string) (parts : list string) : string :=
    match parts with
    | [] => EmptyString
    | [p] => p
    | p :: rest => String.append p (String.append sep (join sep rest))
    end.

  (** Line boundaries of [str.splitlines] (code points below 256). *)
Definition is_linebreak (c : ascii) : bool :=
    in_range 10 13 c || in_range 28 30 c || (code c =? 133)%N.

  (** [s.splitlines()]: a carriage return followed by a line feed is one
      boundary, and a final boundary opens no empty last line. *)
Fixpoint splitlines_from (cur : string) (s : string) : list string :=
    match s with
    | EmptyString => if is_empty cur then [] else [cur]
    | String c rest =>
        if is_linebreak c then
          match rest with
          | String d rest' =>
              if (code c =? 13)%N && (code d =? 10)%N
              then cur :: splitlines_from EmptyString rest'
              else cur :: splitlines_from EmptyString rest
          | EmptyString => [cur]
          end
        else splitlines_from (snoc cur c) rest
    end.
Definition splitlines (s : string) : list string :=
    splitlines_from EmptyString s.

  (** [s[:n]] and [s[n:]] for a non-negative [n]. *)
Fixpoint take (n : nat) (s : string) : string :=
    match n, s with
    | S n', String c rest => String c (take n' rest)
    | _, _ => EmptyString
    end.
Fixpoint drop (n : nat) (s : string) : string :=
    match n, s with
    | S n', String _ rest => drop n' rest
    | _, _ => s
    end.

  (** [s[:-n]] for a positive [n]. *)
Definition drop_end (n : nat) (s : string) : string :=
    take (String.length s - n) s.

  (** [s[-1]] when [s] is not empty. *)
Definition last_char (s : string) : option ascii :=
    match rev s with
    | String c _ => Some c
    | EmptyString => None
    end.

Definition first_char (s : string) : option ascii :=
    match s with
    | String c _ => Some c
    | EmptyString => None
    end.

Fixpoint forallb_char (p : ascii -> bool) (s : string) : bool :=
    match s with
    | EmptyString => true
    | String c rest => p c && forallb_char p rest
    end.

  (** [c in s] for a character. *)
Fixpoint has_char (ch : ascii) (s : string) : bool :=
    match s with
    | EmptyString => false
    | String c rest => eqb_char c ch || has_char ch rest
    end.

(** [s.replace(old, new)] for a non-empty [old]: occurrences are taken
    left to right and do not overlap; [skip] counts the characters of an
    occurrence still to pass over. *)
Fixpoint replace_from (old new : string) (skip : nat) (s : string) : string :=
  match s with
  | EmptyString => EmptyString
  | String c rest =>
      match skip with
      | S k => replace_from old new k rest
      | O =>
          if startswith old s
          then String.append new (replace_from old new (String.length old - 1) rest)
          else String c (replace_from old new 0 rest)
      end
  end.
Definition replace (old new s : string) : string := replace_from old new 0 s.

(** The longest prefix of characters that satisfy [p], and the rest. *)
Fixpoint span (p : ascii -> bool) (s : string) : string * string :=
  match s with
  | EmptyString => (EmptyString, EmptyString)
  | String c rest =>
      if p c then let '(a, b) := span p rest in (String c a, b)
      else (EmptyString, s)
  end.

(** [s.isdigit()] (code points below 256: the ASCII digits and the
    superscripts two, three and one). *)
Definition isdigit_char (c : ascii) : bool :=
  is_ascii_digit c || (code c =? 178)%N || (code c =? 179)%N || (code c =? 185)%N.
Definition isdigit (s : string) : bool :=
  negb (is_empty s) && forallb_char isdigit_char s.

Definition is_hex_lower (c : ascii) : bool :=
  is_ascii_digit c || in_range 97 102 c.
Definition is_hex (c : ascii) : bool :=
  is_hex_lower c || in_range 65 70 c.

End PyStr.

(** ** Module-path escaping (Utility Functions) *)

Definition bang : ascii := "!"%char.

(** [re.sub(r'!([a-z])', lambda m: m.group(1).upper(), path)]: the scan
    goes left to right and resumes after each replaced pair. *)
Fixpoint unescape_module_path (path : string) : string :=
  match path with
  | EmptyString => EmptyString
  | String c rest =>
      match rest with
      | String d rest' =>
          if PyStr.eqb_char c bang && PyStr.is_ascii_lower d
          then String (PyStr.ascii_upper d) (unescape_module_path rest')
          else String c (unescape_module_path rest)
      | EmptyString => String c EmptyString
      end
  end.

(** [re.sub(r'([A-Z])', lambda m: '!' + m.group(1).lower(), path)] *)
Fixpoint escape_module_path (path : string) : string :=
  match path with
  | EmptyString => EmptyString
  | String c rest =>
      if PyStr.is_ascii_upper c
      then String bang (String (PyStr.ascii_lower c) (escape_module_path rest))
      else String c (escape_module_path rest)
  end.

(** ** The checksum file ([parse_go_sum]) *)

(** The value stored per key in [all_entries]. *)
Record EntryTypes := { has_source : bool; has_gomod : bool }.

Definition ModKey : Type := string * string.

Definition quote_char : ascii := ascii_of_N 34.

Definition sanitize_module_name (name : string) : string :=
  if PyStr.is_empty name then name
  else
    let stripped := PyStr.strip name in
    if (2 <=? String.length stripped)%nat
       && bool_decide (PyStr.first_char stripped = Some quote_char)
       && bool_decide (PyStr.last_char stripped = Some quote_char)
    then PyStr.drop_end 1 (PyStr.drop 1 stripped)
    else stripped.

(** One pass of the body of the first loop: the key of a line and whether
    it is a [/go.mod] entry, or [None] when the line is skipped. *)
Definition go_sum_line (line : string) : option (ModKey * bool) :=
  let line := PyStr.strip line in
  if PyStr.is_empty line || PyStr.startswith "//" line then None
  else
    match PyStr.split line with
    | [module_path; version; _] =>
        let module_path := sanitize_module_name module_path in
        let is_gomod_entry := PyStr.endswith "/go.mod" version in
        let base_version :=
          if is_gomod_entry then PyStr.drop_end 7 version else version in
        Some ((module_path, base_version), is_gomod_entry)
    | _ => None
    end.

Definition record_line (all_entries : gmap ModKey EntryTypes) (line : string)
  : gmap ModKey EntryTypes :=
  match go_sum_line line with
  | None => all_entries
  | Some (key, is_gomod_entry) =>
      let cur :=
        default {| has_source := false; has_gomod := false |}
                (all_entries !! key) in
      if is_gomod_entry
      then <[key := {| has_source := has_source cur; has_gomod := true |}]> all_entries
      else <[key := {| has_source := true; has_gomod := has_gomod cur |}]> all_entries
  end.

Definition collect_entries (lines : list string) : gmap ModKey EntryTypes :=
  foldl record_line ∅ lines.

Definition categorize (key : ModKey) (entry_types : EntryTypes)
  (acc : gset ModKey * gset ModKey) : gset ModKey * gset ModKey :=
  let '(modules_with_source, modules_with_gomod_only) := acc in
  if has_source entry_types
  then ({[key]} ∪ modules_with_source, modules_with_gomod_only)
  else if has_gomod entry_types
       then (modules_with_source, {[key]} ∪ modules_with_gomod_only)
       else acc.

(** [go_sum] is [None] when the file does not exist, and otherwise the
    lines the file object yields. *)
Definition parse_go_sum (go_sum : option (list string))
  : gset ModKey * gset ModKey :=
  match go_sum with
  | None => (∅, ∅)
  | Some lines => map_fold categorize (∅, ∅) (collect_entries lines)
  end.

(** A word of the file names a module: the word itself, or what stands
    between a pair of double quotes around it. *)
Definition unquoted (word name : string) : Prop :=
  word = String quote_char (name +:+ String quote_char EmptyString)
  \/ (name = word
      /\ forall inner,
           word <> String quote_char (inner +:+ String quote_char EmptyString)).

(** The lines of the checksum file are [module version hash] triples, and
    a version suffix of [/go.mod] marks a module-file-only entry: [line]
    is made of three words, is no comment, and is an entry of [key], of
    the module file only or of the source. *)
Definition checksum_entry (line : string) (key : ModKey)
  (module_file_only : bool) : Prop :=
  exists module version hash,
    PyStr.split line = [module; version; hash]
    /\ PyStr.startswith "//" module = false
    /\ unquoted module key.1
    /\ if module_file_only
       then version = key.2 +:+ "/go.mod"
       else version = key.2 /\ forall base, version <> base +:+ "/go.mod".

(** The entries of a key among the lines of the file: a source entry (its
    version has no [/go.mod] suffix) and a module-file-only entry. *)
Definition source_entry_of (lines : list string) (key : ModKey) : Prop :=
  exists line, line ∈ lines /\ checksum_entry line key false.

Definition gomod_entry_of (lines : list string) (key : ModKey) : Prop :=
  exists line, line ∈ lines /\ checksum_entry line key true.

(** What the first loop has stored for a key after reading [lines]. *)
Definition entries_agree (lines : list string) (key : ModKey)
  (o : option EntryTypes) : Prop :=
  match o with
  | Some et =>
      (has_source et = true <-> source_entry_of lines key)
      /\ (has_gomod et = true <-> gomod_entry_of lines key)
      /\ (source_entry_of lines key \/ gomod_entry_of lines key)
  | None => ~ source_entry_of lines key /\ ~ gomod_entry_of lines key
  end.

(** ** The external world and the module globals *)

(** Exceptions the modelled code raises or catches. *)
Inductive exn :=
| CalledProcessError
| TimeoutExpired
| OSError
| IndexError
| ValueError
| OverflowError
| KeyError
| NameError (name : string).

(** One call of [subprocess.run]: the argument vector, [cwd=] and
    [timeout=] (in seconds). *)
Record Cmd := {
  argv : list string;
  cwd : option string;
  timeout : option Z;
}.

(** What the operating system answers to a command. *)
Inductive ProcResult :=
| Exited (returncode : Z) (stdout stderr : string)
| TimedOut
| SpawnFailed.

Record CompletedProcess := {
  returncode : Z;
  stdout : string;
  stderr : string;
}.

(** Everything the program does to the outside, in order. *)
Inductive Event :=
| EvRun (c : Cmd)
| EvMkdir (path : string)
| EvRmtree (path : string)
| EvUnlink (path : string)
| EvMkdtemp (prefix : string).

Record datetime := {
  dt_year : Z;
  dt_month : Z;
  dt_day : Z;
  dt_hour : Z;
  dt_minute : Z;
  dt_second : Z;
}.

(** What [datetime.fromisoformat] read: the fields as written and, when
    the text carries a zone, the instant in seconds since the epoch. *)
Record IsoTime := {
  iso_fields : datetime;
  iso_epoch : option Z;
}.

(** The environment: what a command returns, whether a path exists,
    whether a file-system operation succeeds, the name [mkdtemp] picks and
    the clock (seconds since the epoch), each as a function of the events
    so far (newest first); and the library functions the model does not
    spell out: [hashlib.sha256(..).hexdigest()], [datetime.fromisoformat]
    ([None] where it raises) and [isoformat] of a UTC instant. *)
Record Env := {
  env_run : list Event -> Cmd -> ProcResult;
  env_exists : list Event -> string -> bool;
  env_fs_ok : list Event -> Event -> bool;
  env_mkdtemp : list Event -> string -> string;
  env_now : list Event -> Z;
  sha256_hexdigest : string -> string;
  fromisoformat : string -> option IsoTime;
  utc_isoformat : Z -> string;
}.

(** Settings fixed before resolution starts ([configure_cache_paths] and
    the command line). *)
Record Config := {
  CLONE_CACHE_DIR : string;
  VERIFY_BASE_DIR : string;
  VERIFY_CACHE_MAX_AGE_DAYS : Z;
}.

(** A value of [VERIFY_COMMIT_CACHE_V2]. *)
Record V2Entry := {
  verified : bool;
  first_verified : option string;
  last_checked : option string;
  fetch_method : string;
}.

Definition UrlKey : Type := string * string.

(** The module-level dictionaries and flags, and the event history. *)
Record State := {
  LS_REMOTE_CACHE : gmap UrlKey (option string);
  LS_REMOTE_CACHE_DIRTY : bool;
  VERIFY_REPO_CACHE : gmap string string;
  VERIFY_REPO_LOCKS : gset string;
  VERIFY_RESULTS : gmap UrlKey bool;
  VERIFY_COMMIT_CACHE : gmap string bool;
  VERIFY_COMMIT_CACHE_V2 : gmap string V2Entry;
  VERIFY_COMMIT_CACHE_DIRTY : bool;
  VERIFY_DETECTED_BRANCHES : gmap UrlKey string;
  VERIFY_FALLBACK_COMMITS : gmap UrlKey string;
  VERIFY_FULL_REPOS : gset string;
  events : list Event;
}.

Definition initial_state : State := {|
  LS_REMOTE_CACHE := ∅;
  LS_REMOTE_CACHE_DIRTY := false;
  VERIFY_REPO_CACHE := ∅;
  VERIFY_REPO_LOCKS := ∅;
  VERIFY_RESULTS := ∅;
  VERIFY_COMMIT_CACHE := ∅;
  VERIFY_COMMIT_CACHE_V2 := ∅;
  VERIFY_COMMIT_CACHE_DIRTY := false;
  VERIFY_DETECTED_BRANCHES := ∅;
  VERIFY_FALLBACK_COMMITS := ∅;
  VERIFY_FULL_REPOS := ∅;
  events := [];
|}.

Definition with_ls_remote_cache (f : gmap UrlKey (option string) -> gmap UrlKey (option string))
  (d : bool) (st : State) : State := {|
  LS_REMOTE_CACHE := f (LS_REMOTE_CACHE st);
  LS_REMOTE_CACHE_DIRTY := d;
  VERIFY_REPO_CACHE := VERIFY_REPO_CACHE st;
  VERIFY_REPO_LOCKS := VERIFY_REPO_LOCKS st;
  VERIFY_RESULTS := VERIFY_RESULTS st;
  VERIFY_COMMIT_CACHE := VERIFY_COMMIT_CACHE st;
  VERIFY_COMMIT_CACHE_V2 := VERIFY_COMMIT_CACHE_V2 st;
  VERIFY_COMMIT_CACHE_DIRTY := VERIFY_COMMIT_CACHE_DIRTY st;
  VERIFY_DETECTED_BRANCHES := VERIFY_DETECTED_BRANCHES st;
  VERIFY_FALLBACK_COMMITS := VERIFY_FALLBACK_COMMITS st;
  VERIFY_FULL_REPOS := VERIFY_FULL_REPOS st;
  events := events st;
|}.

Definition with_event (ev : Event) (st : State) : State := {|
  LS_REMOTE_CACHE := LS_REMOTE_CACHE st;
  LS_REMOTE_CACHE_DIRTY := LS_REMOTE_CACHE_DIRTY st;
  VERIFY_REPO_CACHE := VERIFY_REPO_CACHE st;
  VERIFY_REPO_LOCKS := VERIFY_REPO_LOCKS st;
  VERIFY_RESULTS := VERIFY_RESULTS st;
  VERIFY_COMMIT_CACHE := VERIFY_COMMIT_CACHE st;
  VERIFY_COMMIT_CACHE_V2 := VERIFY_COMMIT_CACHE_V2 st;
  VERIFY_COMMIT_CACHE_DIRTY := VERIFY_COMMIT_CACHE_DIRTY st;
  VERIFY_DETECTED_BRANCHES := VERIFY_DETECTED_BRANCHES st;
  VERIFY_FALLBACK_COMMITS := VERIFY_FALLBACK_COMMITS st;
  VERIFY_FULL_REPOS := VERIFY_FULL_REPOS st;
  events := ev :: events st;
|}.

(** One updater per verifier global. *)
Definition with_repo_cache (f : gmap string string -> gmap string string) (st : State) : State := {|
  LS_REMOTE_CACHE := LS_REMOTE_CACHE st;
  LS_REMOTE_CACHE_DIRTY := LS_REMOTE_CACHE_DIRTY st;
  VERIFY_REPO_CACHE := f (VERIFY_REPO_CACHE st);
  VERIFY_REPO_LOCKS := VERIFY_REPO_LOCKS st;
  VERIFY_RESULTS := VERIFY_RESULTS st;
  VERIFY_COMMIT_CACHE := VERIFY_COMMIT_CACHE st;
  VERIFY_COMMIT_CACHE_V2 := VERIFY_COMMIT_CACHE_V2 st;
  VERIFY_COMMIT_CACHE_DIRTY := VERIFY_COMMIT_CACHE_DIRTY st;
  VERIFY_DETECTED_BRANCHES := VERIFY_DETECTED_BRANCHES st;
  VERIFY_FALLBACK_COMMITS := VERIFY_FALLBACK_COMMITS st;
  VERIFY_FULL_REPOS := VERIFY_FULL_REPOS st;
  events := events st;
|}.

Definition with_repo_locks (f : gset string -> gset string) (st : State) : State := {|
  LS_REMOTE_CACHE := LS_REMOTE_CACHE st;
  LS_REMOTE_CACHE_DIRTY := LS_REMOTE_CACHE_DIRTY st;
  VERIFY_REPO_CACHE := VERIFY_REPO_CACHE st;
  VERIFY_REPO_LOCKS := f (VERIFY_REPO_LOCKS st);
  VERIFY_RESULTS := VERIFY_RESULTS st;
  VERIFY_COMMIT_CACHE := VERIFY_COMMIT_CACHE st;
  VERIFY_COMMIT_CACHE_V2 := VERIFY_COMMIT_CACHE_V2 st;
  VERIFY_COMMIT_CACHE_DIRTY := VERIFY_COMMIT_CACHE_DIRTY st;
  VERIFY_DETECTED_BRANCHES := VERIFY_DETECTED_BRANCHES st;
  VERIFY_FALLBACK_COMMITS := VERIFY_FALLBACK_COMMITS st;
  VERIFY_FULL_REPOS := VERIFY_FULL_REPOS st;
  events := events st;
|}.

Definition with_results (f : gmap UrlKey bool -> gmap UrlKey bool) (st : State) : State := {|
  LS_REMOTE_CACHE := LS_REMOTE_CACHE st;
  LS_REMOTE_CACHE_DIRTY := LS_REMOTE_CACHE_DIRTY st;
  VERIFY_REPO_CACHE := VERIFY_REPO_CACHE st;
  VERIFY_REPO_LOCKS := VERIFY_REPO_LOCKS st;
  VERIFY_RESULTS := f (VERIFY_RESULTS st);
  VERIFY_COMMIT_CACHE := VERIFY_COMMIT_CACHE st;
  VERIFY_COMMIT_CACHE_V2 := VERIFY_COMMIT_CACHE_V2 st;
  VERIFY_COMMIT_CACHE_DIRTY := VERIFY_COMMIT_CACHE_DIRTY st;
  VERIFY_DETECTED_BRANCHES := VERIFY_DETECTED_BRANCHES st;
  VERIFY_FALLBACK_COMMITS := VERIFY_FALLBACK_COMMITS st;
  VERIFY_FULL_REPOS := VERIFY_FULL_REPOS st;
  events := events st;
|}.

Definition with_commit_cache (f : gmap string bool -> gmap string bool) (st : State) : State := {|
  LS_REMOTE_CACHE := LS_REMOTE_CACHE st;
  LS_REMOTE_CACHE_DIRTY := LS_REMOTE_CACHE_DIRTY st;
  VERIFY_REPO_CACHE := VERIFY_REPO_CACHE st;
  VERIFY_REPO_LOCKS := VERIFY_REPO_LOCKS st;
  VERIFY_RESULTS := VERIFY_RESULTS st;
  VERIFY_COMMIT_CACHE := f (VERIFY_COMMIT_CACHE st);
  VERIFY_COMMIT_CACHE_V2 := VERIFY_COMMIT_CACHE_V2 st;
  VERIFY_COMMIT_CACHE_DIRTY := VERIFY_COMMIT_CACHE_DIRTY st;
  VERIFY_DETECTED_BRANCHES := VERIFY_DETECTED_BRANCHES st;
  VERIFY_FALLBACK_COMMITS := VERIFY_FALLBACK_COMMITS st;
  VERIFY_FULL_REPOS := VERIFY_FULL_REPOS st;
  events := events st;
|}.

Definition with_commit_cache_v2 (f : gmap string V2Entry -> gmap string V2Entry) (st : State) : State := {|
  LS_REMOTE_CACHE := LS_REMOTE_CACHE st;
  LS_REMOTE_CACHE_DIRTY := LS_REMOTE_CACHE_DIRTY st;
  VERIFY_REPO_CACHE := VERIFY_REPO_CACHE st;
  VERIFY_REPO_LOCKS := VERIFY_REPO_LOCKS st;
  VERIFY_RESULTS := VERIFY_RESULTS st;
  VERIFY_COMMIT_CACHE := VERIFY_COMMIT_CACHE st;
  VERIFY_COMMIT_CACHE_V2 := f (VERIFY_COMMIT_CACHE_V2 st);
  VERIFY_COMMIT_CACHE_DIRTY := VERIFY_COMMIT_CACHE_DIRTY st;
  VERIFY_DETECTED_BRANCHES := VERIFY_DETECTED_BRANCHES st;
  VERIFY_FALLBACK_COMMITS := VERIFY_FALLBACK_COMMITS st;
  VERIFY_FULL_REPOS := VERIFY_FULL_REPOS st;
  events := events st;
|}.

Definition with_commit_cache_dirty (f : bool -> bool) (st : State) : State := {|
  LS_REMOTE_CACHE := LS_REMOTE_CACHE st;
  LS_REMOTE_CACHE_DIRTY := LS_REMOTE_CACHE_DIRTY st;
  VERIFY_REPO_CACHE := VERIFY_REPO_CACHE st;
  VERIFY_REPO_LOCKS := VERIFY_REPO_LOCKS st;
  VERIFY_RESULTS := VERIFY_RESULTS st;
  VERIFY_COMMIT_CACHE := VERIFY_COMMIT_CACHE st;
  VERIFY_COMMIT_CACHE_V2 := VERIFY_COMMIT_CACHE_V2 st;
  VERIFY_COMMIT_CACHE_DIRTY := f (VERIFY_COMMIT_CACHE_DIRTY st);
  VERIFY_DETECTED_BRANCHES := VERIFY_DETECTED_BRANCHES st;
  VERIFY_FALLBACK_COMMITS := VERIFY_FALLBACK_COMMITS st;
  VERIFY_FULL_REPOS := VERIFY_FULL_REPOS st;
  events := events st;
|}.

Definition with_detected_branches (f : gmap UrlKey string -> gmap UrlKey string) (st : State) : State := {|
  LS_REMOTE_CACHE := LS_REMOTE_CACHE st;
  LS_REMOTE_CACHE_DIRTY := LS_REMOTE_CACHE_DIRTY st;
  VERIFY_REPO_CACHE := VERIFY_REPO_CACHE st;
  VERIFY_REPO_LOCKS := VERIFY_REPO_LOCKS st;
  VERIFY_RESULTS := VERIFY_RESULTS st;
  VERIFY_COMMIT_CACHE := VERIFY_COMMIT_CACHE st;
  VERIFY_COMMIT_CACHE_V2 := VERIFY_COMMIT_CACHE_V2 st;
  VERIFY_COMMIT_CACHE_DIRTY := VERIFY_COMMIT_CACHE_DIRTY st;
  VERIFY_DETECTED_BRANCHES := f (VERIFY_DETECTED_BRANCHES st);
  VERIFY_FALLBACK_COMMITS := VERIFY_FALLBACK_COMMITS st;
  VERIFY_FULL_REPOS := VERIFY_FULL_REPOS st;
  events := events st;
|}.

Definition with_fallback_commits (f : gmap UrlKey string -> gmap UrlKey string) (st : State) : State := {|
  LS_REMOTE_CACHE := LS_REMOTE_CACHE st;
  LS_REMOTE_CACHE_DIRTY := LS_REMOTE_CACHE_DIRTY st;
  VERIFY_REPO_CACHE := VERIFY_REPO_CACHE st;
  VERIFY_REPO_LOCKS := VERIFY_REPO_LOCKS st;
  VERIFY_RESULTS := VERIFY_RESULTS st;
  VERIFY_COMMIT_CACHE := VERIFY_COMMIT_CACHE st;
  VERIFY_COMMIT_CACHE_V2 := VERIFY_COMMIT_CACHE_V2 st;
  VERIFY_COMMIT_CACHE_DIRTY := VERIFY_COMMIT_CACHE_DIRTY st;
  VERIFY_DETECTED_BRANCHES := VERIFY_DETECTED_BRANCHES st;
  VERIFY_FALLBACK_COMMITS := f (VERIFY_FALLBACK_COMMITS st);
  VERIFY_FULL_REPOS := VERIFY_FULL_REPOS st;
  events := events st;
|}.

Definition with_full_repos (f : gset string -> gset string) (st : State) : State := {|
  LS_REMOTE_CACHE := LS_REMOTE_CACHE st;
  LS_REMOTE_CACHE_DIRTY := LS_REMOTE_CACHE_DIRTY st;
  VERIFY_REPO_CACHE := VERIFY_REPO_CACHE st;
  VERIFY_REPO_LOCKS := VERIFY_REPO_LOCKS st;
  VERIFY_RESULTS := VERIFY_RESULTS st;
  VERIFY_COMMIT_CACHE := VERIFY_COMMIT_CACHE st;
  VERIFY_COMMIT_CACHE_V2 := VERIFY_COMMIT_CACHE_V2 st;
  VERIFY_COMMIT_CACHE_DIRTY := VERIFY_COMMIT_CACHE_DIRTY st;
  VERIFY_DETECTED_BRANCHES := VERIFY_DETECTED_BRANCHES st;
  VERIFY_FALLBACK_COMMITS := VERIFY_FALLBACK_COMMITS st;
  VERIFY_FULL_REPOS := f (VERIFY_FULL_REPOS st);
  events := events st;
|}.

(** ** A state-and-exception monad *)

Inductive Outcome (A : Type) :=
| Ret (a : A)
| Raise (e : exn).
Arguments Ret {A} a.
Arguments Raise {A} e.

Definition M (A : Type) : Type := State -> Outcome A * State.

Definition ret {A} (a : A) : M A := fun st => (Ret a, st).
Definition raise {A} (e : exn) : M A := fun st => (Raise e, st).

Definition bind {A B} (m : M A) (k : A -> M B) : M B :=
  fun st =>
    match m st with
    | (Ret a, st') => k a st'
    | (Raise e, st') => (Raise e, st')
    end.

Notation "x <- m ;; k" := (bind m (fun x => k))
  (at level 62, m at next level, right associativity).
Notation "m ;;; k" := (bind m (fun _ => k))
  (at level 62, right associativity).

Definition get_state : M State := fun st => (Ret st, st).
Definition modify_state (f : State -> State) : M unit :=
  fun st => (Ret tt, f st).

(** [try: m except <handled>: ...]: the handler says which exceptions it
    catches; the state changes made before the exception are kept. *)
Definition try_except {A} (m : M A) (handler : exn -> option (M A)) : M A :=
  fun st =>
    match m st with
    | (Ret a, st') => (Ret a, st')
    | (Raise e, st') =>
        match handler e with
        | Some h => h st'
        | None => (Raise e, st')
        end
    end.

(** [try: m finally: cleanup] where the cleanup itself does not raise. *)
Definition try_finally {A} (m : M A) (cleanup : M unit) : M A :=
  fun st =>
    let '(r, st') := m st in
    let '(_, st'') := cleanup st' in
    (r, st'').

Definition path_join (dir name : string) : string :=
  String.append dir (String.append "/" name).

Definition GO_CMD_TIMEOUT : Z := 180.
Definition GIT_CMD_TIMEOUT : Z := 90.

(** [a or b] and truthiness on [Optional[str]]. *)
Definition truthy (o : option string) : bool :=
  match o with
  | Some s => negb (PyStr.is_empty s)
  | None => false
  end.
Definition py_or (a b : option string) : option string :=
  if truthy a then a else b.

(** ** Dates: [datetime.strptime], [timedelta] arithmetic, [isoformat] *)

Module PyDate.

Local Open Scope Z_scope.

Definition digit_value (c : ascii) : option Z :=
  if PyStr.is_ascii_digit c then Some (Z.of_N (PyStr.code c) - 48) else None.

(** A backtracking matcher: the candidate matches of a prefix of the
    input, in the order in which a backtracking regex engine tries them. *)
Definition Parse (A : Type) : Type := string -> list (A * string).

Definition p_then {A B} (p : Parse A) (k : A -> Parse B) : Parse B :=
  fun s => flat_map (fun ar => k ar.1 ar.2) (p s).

Definition p_alt {A} (p q : Parse A) : Parse A := fun s => p s ++ q s.

Definition p_ret {A} (a : A) : Parse A := fun s => [(a, s)].

(** One digit in [[lo-hi]]. *)
Definition p_digit (lo hi : Z) : Parse Z :=
  fun s =>
    match s with
    | String c rest =>
        match digit_value c with
        | Some v => if (lo <=? v) && (v <=? hi) then [(v, rest)] else []
        | None => []
        end
    | EmptyString => []
    end.

Definition p_space : Parse unit :=
  fun s =>
    match s with
    | String c rest => if PyStr.eqb_char c " "%char then [(tt, rest)] else []
    | EmptyString => []
    end.

(** Two digits read as a number. *)
Definition p_two (a b : Parse Z) : Parse Z :=
  p_then a (fun x => p_then b (fun y => p_ret (10 * x + y))).

(** The groups of [_strptime]'s regular expressions for the directives
    of ["%Y%m%d%H%M%S"]. *)
Definition p_Y : Parse Z :=
  p_then (p_digit 0 9) (fun a => p_then (p_digit 0 9) (fun b =>
  p_then (p_digit 0 9) (fun c => p_then (p_digit 0 9) (fun d =>
  p_ret (1000 * a + 100 * b + 10 * c + d))))).

Definition p_m : Parse Z :=
  p_alt (p_two (p_digit 1 1) (p_digit 0 2))
    (p_alt (p_two (p_digit 0 0) (p_digit 1 9)) (p_digit 1 9)).

Definition p_d : Parse Z :=
  p_alt (p_two (p_digit 3 3) (p_digit 0 1))
    (p_alt (p_two (p_digit 1 2) (p_digit 0 9))
      (p_alt (p_two (p_digit 0 0) (p_digit 1 9))
        (p_alt (p_digit 1 9)
          (p_then p_space (fun _ => p_digit 1 9))))).

Definition p_H : Parse Z :=
  p_alt (p_two (p_digit 2 2) (p_digit 0 3))
    (p_alt (p_two (p_digit 0 1) (p_digit 0 9)) (p_digit 0 9)).

Definition p_M : Parse Z :=
  p_alt (p_two (p_digit 0 5) (p_digit 0 9)) (p_digit 0 9).

Definition p_S : Parse Z :=
  p_alt (p_two (p_digit 6 6) (p_digit 0 1))
    (p_alt (p_two (p_digit 0 5) (p_digit 0 9)) (p_digit 0 9)).

Definition p_timestamp : Parse datetime :=
  p_then p_Y (fun y => p_then p_m (fun mo => p_then p_d (fun d =>
  p_then p_H (fun h => p_then p_M (fun mi => p_then p_S (fun se =>
  p_ret {| dt_year := y; dt_month := mo; dt_day := d;
           dt_hour := h; dt_minute := mi; dt_second := se |})))))).

Definition is_leap (year : Z) : bool :=
  (year mod 4 =? 0) && (negb (year mod 100 =? 0) || (year mod 400 =? 0)).

Definition DAYS_IN_MONTH : list Z :=
  [31; 28; 31; 30; 31; 30; 31; 31; 30; 31; 30; 31].

Definition days_in_month (year month : Z) : Z :=
  if (month =? 2) && is_leap year then 29
  else nth (Z.to_nat (month - 1)) DAYS_IN_MONTH 0.

Definition MINYEAR : Z := 1.
Definition MAXYEAR : Z := 9999.

(** The checks of the [date] and [datetime] constructors. *)
Definition valid_datetime (dt : datetime) : bool :=
  (MINYEAR <=? dt_year dt) && (dt_year dt <=? MAXYEAR)
  && (1 <=? dt_month dt) && (dt_month dt <=? 12)
  && (1 <=? dt_day dt) && (dt_day dt <=? days_in_month (dt_year dt) (dt_month dt))
  && (0 <=? dt_hour dt) && (dt_hour dt <=? 23)
  && (0 <=? dt_minute dt) && (dt_minute dt <=? 59)
  && (0 <=? dt_second dt) && (dt_second dt <=? 59).

(** [datetime.strptime(s, "%Y%m%d%H%M%S")]: the first match of the
    pattern must use up the whole input, and its fields must make a date. *)
Definition strptime (s : string) : Outcome datetime :=
  match p_timestamp s with
  | [] => Raise ValueError
  | (dt, rest) :: _ =>
      if negb (PyStr.is_empty rest) then Raise ValueError
      else if valid_datetime dt then Ret dt
      else Raise ValueError
  end.

Definition days_before_year (year : Z) : Z :=
  let y := year - 1 in y * 365 + y / 4 - y / 100 + y / 400.

Definition days_before_month (year month : Z) : Z :=
  fold_right Z.add 0 (map (days_in_month year) (map Z.of_nat (seq 1 (Z.to_nat (month - 1))))).

Definition ymd2ord (year month day : Z) : Z :=
  days_before_year year + days_before_month year month + day.

Definition MAXORDINAL : Z := 3652059.

(** [_ord2ymd]: the month is found by walking the months of the year. *)
Fixpoint month_of_yday (year : Z) (n : Z) (month : Z) (fuel : nat) : Z * Z :=
  match fuel with
  | O => (month, n + 1)
  | S fuel' =>
      if n <? days_in_month year month then (month, n + 1)
      else month_of_yday year (n - days_in_month year month) (month + 1) fuel'
  end.

Definition ord2ymd (ordinal : Z) : Z * Z * Z :=
  let n := ordinal - 1 in
  let n400 := n / 146097 in
  let n := n mod 146097 in
  let n100 := n / 36524 in
  let n := n mod 36524 in
  let n4 := n / 1461 in
  let n := n mod 1461 in
  let n1 := n / 365 in
  let n := n mod 365 in
  let year := n400 * 400 + 1 + n100 * 100 + n4 * 4 + n1 in
  if (n1 =? 4) || (n100 =? 4) then (year - 1, 12, 31)
  else
    let '(month, day) := month_of_yday year n 1 11 in
    (year, month, day).

(** [dt + timedelta(days=days)]: the time of day is kept, the date moves,
    and a result outside the supported range raises [OverflowError]. *)
Definition add_days (dt : datetime) (days : Z) : Outcome datetime :=
  let ordinal := ymd2ord (dt_year dt) (dt_month dt) (dt_day dt) + days in
  if (0 <? ordinal) && (ordinal <=? MAXORDINAL) then
    let '(y, m, d) := ord2ymd ordinal in
    Ret {| dt_year := y; dt_month := m; dt_day := d;
           dt_hour := dt_hour dt; dt_minute := dt_minute dt;
           dt_second := dt_second dt |}
  else Raise OverflowError.

Definition digit_char (v : Z) : ascii := ascii_of_N (Z.to_N (48 + v mod 10)).

Definition pad2 (n : Z) : string :=
  String (digit_char (n / 10)) (String (digit_char n) EmptyString).

Definition pad4 (n : Z) : string :=
  String (digit_char (n / 1000)) (String (digit_char (n / 100))
    (String (digit_char (n / 10)) (String (digit_char n) EmptyString))).

(** [dt.isoformat()] of a datetime with no microseconds and no zone. *)
Definition isoformat (dt : datetime) : string :=
  String.concat ""
    [pad4 (dt_year dt); "-"; pad2 (dt_month dt); "-"; pad2 (dt_day dt); "T";
     pad2 (dt_hour dt); ":"; pad2 (dt_minute dt); ":"; pad2 (dt_second dt)].

(** [%Y] of [strftime], which is the one of the C library: the year of a
    date (1 to 9999) without leading zeros. *)
Definition year_digits (n : Z) : string :=
  if (n <? 10)%Z then String (digit_char n) EmptyString
  else if (n <? 100)%Z then pad2 n
  else if (n <? 1000)%Z then String (digit_char (n / 100)) (pad2 n)
  else pad4 n.

(** [dt.strftime('%Y-%m-%d %H:%M:%S')] *)
Definition strftime_space (dt : datetime) : string :=
  String.concat ""
    [year_digits (dt_year dt); "-"; pad2 (dt_month dt); "-"; pad2 (dt_day dt); " ";
     pad2 (dt_hour dt); ":"; pad2 (dt_minute dt); ":"; pad2 (dt_second dt)].

(** [dt.strftime("%Y-%m-%dT%H:%M:%SZ")] *)
Definition strftime_z (dt : datetime) : string :=
  String.concat ""
    [year_digits (dt_year dt); "-"; pad2 (dt_month dt); "-"; pad2 (dt_day dt); "T";
     pad2 (dt_hour dt); ":"; pad2 (dt_minute dt); ":"; pad2 (dt_second dt); "Z"].

End PyDate.

Section Engine.

Variable E : Env.
Variable cfg : Config.

Definition subprocess_run (check : bool) (c : Cmd) : M CompletedProcess :=
  fun st =>
    let st' := with_event (EvRun c) st in
    match env_run E (events st) c with
    | Exited rc out err =>
        if check && negb (rc =? 0)%Z then (Raise CalledProcessError, st')
        else (Ret {| returncode := rc; stdout := out; stderr := err |}, st')
    | TimedOut => (Raise TimeoutExpired, st')
    | SpawnFailed => (Raise OSError, st')
    end.

Definition path_exists (path : string) : M bool :=
  fun st => (Ret (env_exists E (events st) path), st).

(** [mkdir], [rmtree] and [unlink]: recorded, and failing with [OSError]
    when the environment says so. *)
Definition fs_op (ev : Event) : M unit :=
  fun st =>
    if env_fs_ok E (events st) ev then (Ret tt, with_event ev st)
    else (Raise OSError, with_event ev st).

Definition now : M Z := fun st => (Ret (env_now E (events st)), st).

(** *** Remote ref resolver ([git_ls_remote]) *)

(** The body of the loop over the lines of the [ls-remote] output; the
    accumulator is [(tag_object_hash, dereferenced_hash)]. *)
Definition ls_remote_line (acc : option string * option string) (line : string)
  : option string * option string :=
  if PyStr.is_empty line then acc
  else
    match PyStr.split line with
    | hash_val :: ref_name :: _ =>
        if PyStr.endswith "^{}" ref_name
        then (acc.1, Some hash_val)
        else (Some hash_val, acc.2)
    | _ => acc
    end.

Definition parse_ls_remote (out : string) : option string * option string :=
  foldl ls_remote_line (None, None) (PyStr.splitlines (PyStr.strip out)).

Definition refs_to_query (ref : string) : list string :=
  if PyStr.startswith "refs/tags/" ref
  then [ref; String.append ref "^{}"]
  else [ref].

Definition ls_remote_cmd (url ref : string) : Cmd := {|
  argv := ["git"; "ls-remote"; url] ++ refs_to_query ref;
  cwd := None;
  timeout := Some GIT_CMD_TIMEOUT;
|}.

Definition cache_ls_remote (key : UrlKey) (value : option string) : M unit :=
  modify_state (with_ls_remote_cache (insert key value) true).

Definition local_repo_of (url : string) : string :=
  path_join (CLONE_CACHE_DIR cfg)
    (String.append "repo_" (PyStr.take 16 (sha256_hexdigest E url))).

(** The attempt on a local clone; [None] means "fall through to the
    network query". *)
Definition git_ls_remote_local (url ref : string) : M (option string) :=
  let local_repo := local_repo_of url in
  ex <- path_exists local_repo ;;
  ex_head <- (if ex then path_exists (path_join local_repo "HEAD") else ret false) ;;
  if ex && ex_head then
    try_except
      (result <- subprocess_run false
         {| argv := ["git"; "show-ref"; "--hash"; ref];
            cwd := Some local_repo; timeout := Some 10%Z |} ;;
       if (returncode result =? 0)%Z
          && negb (PyStr.is_empty (PyStr.strip (stdout result)))
       then
         match PyStr.split (PyStr.strip (stdout result)) with
         | commit_hash :: _ =>
             cache_ls_remote (url, ref) (Some commit_hash) ;;;
             ret (Some commit_hash)
         | [] => raise IndexError
         end
       else ret None)
      (fun _ => Some (ret None))
  else ret None.

Definition git_ls_remote_network (url ref : string) : M (option string) :=
  try_except
    (result <- subprocess_run true (ls_remote_cmd url ref) ;;
     let '(tag_object_hash, dereferenced_hash) := parse_ls_remote (stdout result) in
     let commit_hash := py_or dereferenced_hash tag_object_hash in
     if truthy commit_hash then
       cache_ls_remote (url, ref) commit_hash ;;;
       ret commit_hash
     else ret None)
    (fun e =>
       match e with
       | TimeoutExpired | CalledProcessError =>
           Some (cache_ls_remote (url, ref) None ;;; ret None)
       | _ => None
       end).

Definition git_ls_remote (url ref : string) : M (option string) :=
  st <- get_state ;;
  match LS_REMOTE_CACHE st !! (url, ref) with
  | Some cached => ret cached
  | None =>
      local <- git_ls_remote_local url ref ;;
      match local with
      | Some commit_hash => ret (Some commit_hash)
      | None => git_ls_remote_network url ref
      end
  end.

(** *** Pseudo-version resolver ([resolve_pseudo_version_commit]) *)

Definition get_github_mirror_url (vcs_url : string) : option string :=
  if PyStr.contains "go.googlesource.com" vcs_url then
    let pkg_name :=
      List.last (PyStr.split_on "/" (PyStr.rstrip_char "/" vcs_url)) EmptyString in
    Some (String.append "https://github.com/golang/" pkg_name)
  else None.

(** The [try] block that parses the timestamp: the search window
    [(since, until)], or [None] where the function returns [None]. *)
Definition search_window (timestamp_str : string) : option (string * string) :=
  match PyDate.strptime timestamp_str with
  | Raise _ => None
  | Ret dt =>
      if (dt_year dt <? 1970)%Z || (9999 <? dt_year dt)%Z then None
      else if (dt_year dt =? 1)%Z then None
      else
        match PyDate.add_days dt (-1) with
        | Raise _ => None
        | Ret since =>
            match PyDate.add_days dt 1 with
            | Raise _ => None
            | Ret until => Some (PyDate.isoformat since, PyDate.isoformat until)
            end
        end
  end.

Definition urls_to_try (vcs_url : string) : list string :=
  vcs_url ::
    match get_github_mirror_url vcs_url with
    | Some github_mirror =>
        if PyStr.is_empty github_mirror then [] else [github_mirror]
    | None => []
    end.

(** The loop over the lines of the [git log] output. *)
Fixpoint find_commit (short_commit : string) (lines : list string) : option string :=
  match lines with
  | [] => None
  | line :: rest =>
      if PyStr.is_empty line then find_commit short_commit rest
      else
        match PyStr.split line with
        | full_hash :: _ :: _ =>
            if PyStr.startswith short_commit full_hash then Some full_hash
            else find_commit short_commit rest
        | _ => find_commit short_commit rest
        end
  end.

Definition mkdtemp (prefix : string) : M string :=
  fun st =>
    let ev := EvMkdtemp prefix in
    if env_fs_ok E (events st) ev
    then (Ret (env_mkdtemp E (events st) prefix), with_event ev st)
    else (Raise OSError, with_event ev st).

Definition git_fetch_all_cmd (clone_dir : string) : Cmd := {|
  argv := ["git"; "fetch"; "--all"; "--quiet"];
  cwd := Some clone_dir;
  timeout := Some 60%Z;
|}.

Definition git_clone_bare_cmd (try_url clone_dir : string) : Cmd := {|
  argv := ["git"; "clone"; "--bare"; "--quiet"; try_url; clone_dir];
  cwd := None;
  timeout := Some 300%Z;
|}.

Definition git_log_window_cmd (clone_dir since until : string) : Cmd := {|
  argv := ["git"; "log"; "--all"; "--format=%H %ct";
           String.append "--since=" since; String.append "--until=" until];
  cwd := Some clone_dir;
  timeout := Some 30%Z;
|}.

Definition is_process_failure (e : exn) : bool :=
  match e with
  | CalledProcessError | TimeoutExpired => true
  | _ => false
  end.

(** Removal of a temporary clone directory: only without a clone cache. *)
Definition remove_temp_clone (clone_cache_dir : option string) (clone_dir : string)
  : M unit :=
  match clone_cache_dir with
  | Some _ => ret tt
  | None =>
      ex <- path_exists clone_dir ;;
      if ex then fs_op (EvRmtree clone_dir) else ret tt
  end.

(** The directory of the clone for one candidate URL. *)
Definition clone_dir_for (clone_cache_dir : option string) (try_url : string)
  : M string :=
  match clone_cache_dir with
  | Some dir =>
      fs_op (EvMkdir dir) ;;;
      ret (path_join dir
             (String.append "repo_" (PyStr.take 16 (sha256_hexdigest E try_url))))
  | None => mkdtemp "pseudo-resolve-"
  end.

(** Clone or update, then search the log: the [try] body of one round. *)
Definition clone_and_search (try_url clone_dir since until short_commit : string)
  : M (option string) :=
  ex <- path_exists clone_dir ;;
  ex_head <- (if ex then path_exists (path_join clone_dir "HEAD") else ret false) ;;
  (if ex && ex_head then
     try_except
       (subprocess_run true (git_fetch_all_cmd clone_dir) ;;; ret tt)
       (fun e => if is_process_failure e then Some (ret tt) else None)
   else
     ex' <- path_exists clone_dir ;;
     (if ex' then fs_op (EvRmtree clone_dir) else ret tt) ;;;
     fs_op (EvMkdir clone_dir) ;;;
     subprocess_run true (git_clone_bare_cmd try_url clone_dir) ;;;
     ret tt) ;;;
  result <- subprocess_run true (git_log_window_cmd clone_dir since until) ;;
  ret (find_commit short_commit (PyStr.splitlines (PyStr.strip (stdout result)))).

(** One round of the loop over [urls_to_try]: [Some h] where the function
    returns [h], [None] where the loop goes on to the next URL. *)
Definition try_url_round (clone_cache_dir : option string)
  (since until short_commit try_url : string) : M (option string) :=
  clone_dir <- clone_dir_for clone_cache_dir try_url ;;
  try_finally
    (try_except
       (clone_and_search try_url clone_dir since until short_commit)
       (fun e =>
          if is_process_failure e
          then Some (remove_temp_clone clone_cache_dir clone_dir ;;; ret None)
          else None))
    (try_except (remove_temp_clone clone_cache_dir clone_dir)
                (fun _ => Some (ret tt))).

Fixpoint try_urls (clone_cache_dir : option string)
  (since until short_commit : string) (urls : list string) : M (option string) :=
  match urls with
  | [] => ret None
  | try_url :: rest =>
      found <- try_url_round clone_cache_dir since until short_commit try_url ;;
      match found with
      | Some full_hash => ret (Some full_hash)
      | None => try_urls clone_cache_dir since until short_commit rest
      end
  end.

Definition resolve_pseudo_version_commit (vcs_url timestamp_str short_commit : string)
  (clone_cache_dir : option string) : M (option string) :=
  match search_window timestamp_str with
  | None => ret None
  | Some (since, until) =>
      try_urls clone_cache_dir since until short_commit (urls_to_try vcs_url)
  end.

(** *** Commit verifier ([verify_commit_accessible] and its helpers) *)

Definition cache_key_of (vcs_url commit : string) : string :=
  String.append vcs_url (String.append "|||" commit).

Definition repo_cmd (args : list string) (repo_dir : string) (tmo : option Z) : Cmd :=
  {| argv := args; cwd := Some repo_dir; timeout := tmo |}.

Definition git_dir_of (vcs_url : string) : string :=
  path_join (path_join (VERIFY_BASE_DIR cfg) (sha256_hexdigest E vcs_url)) "repo".

Definition _verify_repo_dir (vcs_url : string) : M string :=
  st <- get_state ;;
  match VERIFY_REPO_CACHE st !! vcs_url with
  | Some repo_dir => ret repo_dir
  | None =>
      let git_dir := git_dir_of vcs_url in
      fs_op (EvMkdir git_dir) ;;;
      has_config <- path_exists (path_join git_dir "config") ;;
      (if negb has_config then
         subprocess_run true (repo_cmd ["git"; "init"; "--bare"] git_dir None) ;;;
         subprocess_run true
           (repo_cmd ["git"; "remote"; "add"; "origin"; vcs_url] git_dir None) ;;;
         ret tt
       else
         subprocess_run false
           (repo_cmd ["git"; "remote"; "set-url"; "origin"; vcs_url] git_dir None) ;;;
         ret tt) ;;;
      modify_state (with_repo_cache (insert vcs_url git_dir)) ;;;
      modify_state (with_repo_locks (union {[vcs_url]})) ;;;
      ret git_dir
  end.

(** [re.match(r'v\d+\.\d+\.\d+-(\d{14})-[0-9a-f]+', version)]: group 1. *)
Definition match_pseudo_version (version : string) : option string :=
  match version with
  | String v r0 =>
      if negb (PyStr.eqb_char v "v"%char) then None else
      let '(d1, r1) := PyStr.span PyStr.is_ascii_digit r0 in
      match r1 with
      | String dot1 r2 =>
          let '(d2, r3) := PyStr.span PyStr.is_ascii_digit r2 in
          match r3 with
          | String dot2 r4 =>
              let '(d3, r5) := PyStr.span PyStr.is_ascii_digit r4 in
              match r5 with
              | String dash1 r6 =>
                  let date_str := PyStr.take 14 r6 in
                  match PyStr.drop 14 r6 with
                  | String dash2 (String h _) =>
                      if negb (PyStr.is_empty d1) && negb (PyStr.is_empty d2)
                         && negb (PyStr.is_empty d3)
                         && PyStr.eqb_char dot1 "."%char
                         && PyStr.eqb_char dot2 "."%char
                         && PyStr.eqb_char dash1 "-"%char
                         && (String.length date_str =? 14)%nat
                         && PyStr.forallb_char PyStr.is_ascii_digit date_str
                         && PyStr.eqb_char dash2 "-"%char
                         && PyStr.is_hex_lower h
                      then Some date_str else None
                  | _ => None
                  end
              | EmptyString => None
              end
          | EmptyString => None
          end
      | EmptyString => None
      end
  | EmptyString => None
  end.

(** The target date of the fallback search: from the explicit timestamp,
    else from the pseudo-version. *)
Definition fallback_target_date (version timestamp : string) : option datetime :=
  let from_timestamp :=
    if PyStr.is_empty timestamp then None
    else iso_fields <$> fromisoformat E (PyStr.replace "Z" "+00:00" timestamp) in
  match from_timestamp with
  | Some target_date => Some target_date
  | None =>
      match match_pseudo_version version with
      | Some date_str =>
          match PyDate.strptime date_str with
          | Ret target_date => Some target_date
          | Raise _ => None
          end
      | None => None
      end
  end.

(** The [for ... else] loop over the lines of [ls-remote --symref]. *)
Definition parse_symref (out : string) : Outcome string :=
  match List.find (PyStr.startswith "ref:") (PyStr.split_on (ascii_of_N 10) out) with
  | Some line =>
      match PyStr.split line with
      | _ :: target :: _ => Ret (PyStr.replace "refs/heads/" "" target)
      | _ => Raise IndexError
      end
  | None => Ret "main"
  end.

Definition default_branch_of (vcs_url : string) : M string :=
  try_except
    (result <- subprocess_run false
       {| argv := ["git"; "ls-remote"; "--symref"; vcs_url; "HEAD"];
          cwd := None; timeout := Some 30%Z |} ;;
     if (returncode result =? 0)%Z && negb (PyStr.is_empty (stdout result)) then
       match parse_symref (stdout result) with
       | Ret default_branch => ret default_branch
       | Raise e => raise e
       end
     else ret "main")
    (fun _ => Some (ret "main")).

Definition only_called_process_error {A} (h : M A) (e : exn) : option (M A) :=
  match e with
  | CalledProcessError => Some h
  | _ => None
  end.

Definition nonempty_output (result : CompletedProcess) : bool :=
  (returncode result =? 0)%Z && negb (PyStr.is_empty (PyStr.strip (stdout result))).

Definition _find_fallback_commit (vcs_url version timestamp : string)
  : M (option (string * string)) :=
  let target_date := fallback_target_date version timestamp in
  default_branch <- default_branch_of vcs_url ;;
  try_except
    (match target_date with
     | Some target_date =>
         st <- get_state ;;
         repo_dir <- match VERIFY_REPO_CACHE st !! vcs_url with
                     | Some repo_dir => ret repo_dir
                     | None => _verify_repo_dir vcs_url
                     end ;;
         try_except
           (subprocess_run true
              (repo_cmd ["git"; "fetch"; "origin";
                         String.append default_branch
                           (String.append ":refs/remotes/origin/" default_branch)]
                        repo_dir (Some 60%Z)) ;;; ret tt)
           (only_called_process_error (ret tt)) ;;;
         let date_str := PyDate.strftime_space target_date in
         found <- try_except
           (result <- subprocess_run false
              (repo_cmd ["git"; "log"; "-1"; "--format=%H";
                         String.append "--until=" date_str;
                         String.append "origin/" default_branch]
                        repo_dir (Some 30%Z)) ;;
            if nonempty_output result
            then ret (Some (PyStr.strip (stdout result))) else ret None)
           (only_called_process_error (ret None)) ;;
         match found with
         | Some commit_hash => ret (Some (commit_hash, default_branch))
         | None =>
             result <- subprocess_run false
               (repo_cmd ["git"; "rev-parse"; String.append "origin/" default_branch]
                         repo_dir (Some 30%Z)) ;;
             if nonempty_output result
             then ret (Some (PyStr.strip (stdout result), default_branch))
             else ret None
         end
     | None =>
         result <- subprocess_run false
           {| argv := ["git"; "ls-remote"; vcs_url;
                       String.append "refs/heads/" default_branch];
              cwd := None; timeout := Some 30%Z |} ;;
         if (returncode result =? 0)%Z && negb (PyStr.is_empty (stdout result)) then
           match PyStr.split (stdout result) with
           | commit_hash :: _ => ret (Some (commit_hash, default_branch))
           | [] => raise IndexError
           end
         else ret None
     end)
    (fun _ => Some (ret None)).

(** The nested helper [_commit_exists(check_commit)]. *)
Definition _commit_exists (repo_dir commit check_commit : string) : M bool :=
  let target := if PyStr.is_empty check_commit then commit else check_commit in
  try_except
    (subprocess_run true
       (repo_cmd ["git"; "rev-parse"; "--verify"; String.append target "^{commit}"]
                 repo_dir None) ;;;
     ret true)
    (only_called_process_error (ret false)).

(** Removal of the stale lock files of a bare repository. *)
Fixpoint unlink_existing (repo_dir : string) (names : list string) : M unit :=
  match names with
  | [] => ret tt
  | lock_file :: rest =>
      let lock_path := path_join repo_dir lock_file in
      ex <- path_exists lock_path ;;
      (if ex then try_except (fs_op (EvUnlink lock_path)) (fun _ => Some (ret tt))
       else ret tt) ;;;
      unlink_existing repo_dir rest
  end.

Definition remove_stale_locks (repo_dir : string) : M unit :=
  unlink_existing repo_dir ["shallow.lock"; "index.lock"; "HEAD.lock"].

(** A computation inside the function body: [inl b] stands for
    [return b], [inr x] for going on with [x]. *)
Definition early {A} (b : bool) : M (bool + A) := ret (inl b).
Definition go_on {A} (a : A) : M (bool + A) := ret (inr a).
Definition and_then {A B} (m : M (bool + A)) (k : A -> M (bool + B)) : M (bool + B) :=
  r <- m ;;
  match r with
  | inl b => ret (inl b)
  | inr a => k a
  end.

(** The end of the function body: whichever way it was left, the value
    is what the function returns. *)
Definition finish (m : M (bool + bool)) : M bool :=
  outcome <- m ;;
  match outcome with
  | inl verdict => ret verdict
  | inr verdict => ret verdict
  end.

(** [VERIFY_RESULTS[key] = False; return False] *)
Definition fail_verification {A} (key : UrlKey) : M (bool + A) :=
  modify_state (with_results (insert key false)) ;;;
  early false.

(** The same, after dropping the legacy cache entry. *)
Definition fail_and_forget {A} (key : UrlKey) (cache_key : string) : M (bool + A) :=
  modify_state (with_results (insert key false)) ;;;
  modify_state (with_commit_cache (delete cache_key)) ;;;
  modify_state (with_commit_cache_dirty (fun _ => true)) ;;;
  early false.

(** The cache-aging block: the value of [cached_verification_passed]
    after the look-up in the v2 cache. *)
Definition fresh_in_v2_cache (cache_key : string) : M bool :=
  st <- get_state ;;
  match VERIFY_COMMIT_CACHE_V2 st !! cache_key with
  | Some cache_entry =>
      if verified cache_entry then
        match last_checked cache_entry with
        | Some last_checked_str =>
            if PyStr.is_empty last_checked_str then ret true
            else
              match fromisoformat E (PyStr.replace "Z" "+00:00" last_checked_str) with
              | Some parsed =>
                  t <- now ;;
                  match iso_epoch parsed with
                  | Some last =>
                      let age_days := ((t - last) / 86400)%Z in
                      ret (age_days <? VERIFY_CACHE_MAX_AGE_DAYS cfg)%Z
                  | None => ret false
                  end
              | None => ret false
              end
        | None => ret true
        end
      else ret false
  | None => ret false
  end.

(** The legacy-cache block: a true legacy entry is copied into the v2
    cache and counts as a passed verification. *)
Definition migrate_legacy_entry (cache_key : string) (passed : bool) : M bool :=
  st <- get_state ;;
  if default false (VERIFY_COMMIT_CACHE st !! cache_key) then
    t <- now ;;
    let now_str := utc_isoformat E t in
    modify_state (with_commit_cache_v2 (insert cache_key
      {| verified := true; first_verified := Some now_str;
         last_checked := Some now_str; fetch_method := "cached" |})) ;;;
    ret true
  else ret passed.

Definition fetch_ref_cmd (repo_dir ref : string) : Cmd :=
  repo_cmd ["git"; "fetch"; "--depth=1"; "origin"; ref] repo_dir (Some GIT_CMD_TIMEOUT).

Definition unshallow_cmd (repo_dir : string) : Cmd :=
  repo_cmd ["git"; "fetch"; "--unshallow"; "origin"; "+refs/heads/*:refs/remotes/origin/*"]
           repo_dir (Some (GIT_CMD_TIMEOUT * 5)%Z).

Definition fetch_heads_cmd (repo_dir : string) : Cmd :=
  repo_cmd ["git"; "fetch"; "origin"; "+refs/heads/*:refs/remotes/origin/*"]
           repo_dir (Some GIT_CMD_TIMEOUT).

(** The first shallow fetch of the ref hint: failures are only printed. *)
Definition fetch_ref_hint (repo_dir ref_hint : string) : M unit :=
  try_except
    (subprocess_run true (fetch_ref_cmd repo_dir ref_hint) ;;; ret tt)
    (fun e => if is_process_failure e then Some (ret tt) else None).

(** "Tag commit not fetchable, checking if tag moved": the tag is fetched
    again and [FETCH_HEAD] compared with the requested commit.  The
    [return] of the moved-tag case builds a tuple from the name
    [module_path], which is bound neither in the function nor at module
    level, so evaluating it raises [NameError]. *)
Definition check_tag_moved (vcs_url commit ref_hint repo_dir : string) : M unit :=
  if negb (PyStr.is_empty ref_hint) && PyStr.startswith "refs/tags/" ref_hint then
    try_except
      (subprocess_run true (fetch_ref_cmd repo_dir ref_hint) ;;;
       result <- subprocess_run true
         (repo_cmd ["git"; "rev-parse"; "FETCH_HEAD"] repo_dir (Some 30%Z)) ;;
       let current_tag_commit := PyStr.strip (stdout result) in
       if negb (String.eqb current_tag_commit commit) then
         modify_state (with_fallback_commits
                         (insert (vcs_url, commit) current_tag_commit)) ;;;
         raise (NameError "module_path")
       else ret tt)
      (only_called_process_error (ret tt))
  else ret tt.

(** Tagged version, commit not yet present: shallow fetch of the commit. *)
Definition fetch_tagged_commit (vcs_url commit ref_hint repo_dir : string)
  (key : UrlKey) (cache_key : string) : M (bool + bool) :=
  try_except
    (subprocess_run true (fetch_ref_cmd repo_dir commit) ;;; go_on true)
    (only_called_process_error
       (check_tag_moved vcs_url commit ref_hint repo_dir ;;;
        remove_stale_locks repo_dir ;;;
        fail_and_forget key cache_key)).

(** No ref hint, or commit already present: full history is fetched. *)
Definition fetch_full_history (vcs_url repo_dir : string)
  (key : UrlKey) (cache_key : string) : M (bool + bool) :=
  is_shallow <- path_exists (path_join repo_dir "shallow") ;;
  st <- get_state ;;
  let already_full := bool_decide (vcs_url ∈ VERIFY_FULL_REPOS st) in
  let on_failure := fun e : exn =>
    if is_process_failure e
    then Some (remove_stale_locks repo_dir ;;; fail_and_forget key cache_key)
    else None in
  if is_shallow && negb already_full then
    try_except
      (subprocess_run true (unshallow_cmd repo_dir) ;;;
       modify_state (with_full_repos (union {[vcs_url]})) ;;;
       go_on true)
      on_failure
  else
    try_except
      (subprocess_run true (fetch_heads_cmd repo_dir) ;;; go_on true)
      on_failure.

(** Commit absent after the fetch and no ref hint: the fallback commit. *)
Definition use_fallback_commit (vcs_url commit version timestamp repo_dir : string)
  (key : UrlKey) : M (bool + string) :=
  fallback_result <- _find_fallback_commit vcs_url version timestamp ;;
  match fallback_result with
  | Some (fallback_commit, fallback_branch) =>
      modify_state (with_fallback_commits (insert (vcs_url, commit) fallback_commit)) ;;;
      is_shallow <- path_exists (path_join repo_dir "shallow") ;;
      fetched <- try_except
        (subprocess_run true
           (if is_shallow then unshallow_cmd repo_dir else fetch_heads_cmd repo_dir) ;;;
         ret true)
        (fun _ => Some (ret false)) ;;
      if negb fetched then fail_verification key
      else
        modify_state (with_detected_branches
                        (insert (vcs_url, fallback_commit) fallback_branch)) ;;;
        present <- _commit_exists repo_dir commit fallback_commit ;;
        if negb present then fail_verification key else go_on fallback_commit
  | None => fail_verification key
  end.

(** Tagged version whose commit exists: has the tag moved? *)
Definition check_tag_target (vcs_url commit ref_hint repo_dir : string)
  (key : UrlKey) (cache_key actual_commit : string) : M (bool + string) :=
  if PyStr.startswith "refs/tags/" ref_hint then
    try_except
      (current_tag_commit <- git_ls_remote vcs_url ref_hint ;;
       match current_tag_commit with
       | Some current =>
           if negb (PyStr.is_empty current) && negb (String.eqb current actual_commit)
           then
             subprocess_run true (fetch_ref_cmd repo_dir ref_hint) ;;;
             modify_state (with_fallback_commits
                             (insert (vcs_url, actual_commit) current)) ;;;
             try_except
               (present <- _commit_exists repo_dir commit current ;;
                if negb present then fail_and_forget key cache_key
                else go_on current)
               (fun _ => Some (go_on current))
           else go_on actual_commit
       | None => go_on actual_commit
       end)
      (fun _ => Some (go_on actual_commit))
  else go_on actual_commit.

Definition check_ancestry (repo_dir actual_commit : string) : M unit :=
  try_except
    (subprocess_run false
       (repo_cmd ["git"; "merge-base"; "--is-ancestor"; actual_commit; "FETCH_HEAD"]
                 repo_dir (Some 30%Z)) ;;;
     ret tt)
    (fun e => if is_process_failure e then Some (ret tt) else None).

Definition choose_branch (branches : list string) : string :=
  if bool_decide ("main" ∈ branches) then "main"
  else if bool_decide ("master" ∈ branches) then "master"
  else List.hd EmptyString branches.

Definition for_each_ref_cmd (repo_dir actual_commit : string) : Cmd :=
  repo_cmd ["git"; "for-each-ref"; "--contains"; actual_commit;
            "refs/remotes/origin/"; "--format=%(refname:short)"]
           repo_dir (Some 30%Z).

(** Pseudo-version whose commit exists: which branch contains it? *)
Definition detect_branch (vcs_url commit version timestamp repo_dir : string)
  (key : UrlKey) (actual_commit : string) : M (bool + string) :=
  st <- get_state ;;
  if bool_decide (is_Some (VERIFY_DETECTED_BRANCHES st !! (vcs_url, actual_commit)))
  then go_on actual_commit
  else
    try_except
      (result <- subprocess_run false (for_each_ref_cmd repo_dir actual_commit) ;;
       if nonempty_output result then
         let branches :=
           map (PyStr.replace "origin/" "")
               (PyStr.split_on (ascii_of_N 10) (PyStr.strip (stdout result))) in
         modify_state (with_detected_branches
                         (insert (vcs_url, actual_commit) (choose_branch branches))) ;;;
         go_on actual_commit
       else if String.eqb actual_commit commit then
         fallback_result <- _find_fallback_commit vcs_url version timestamp ;;
         match fallback_result with
         | Some (fallback_commit, fallback_branch) =>
             modify_state (with_fallback_commits
                             (insert (vcs_url, commit) fallback_commit)) ;;;
             modify_state (with_detected_branches
                             (insert (vcs_url, fallback_commit) fallback_branch)) ;;;
             present <- _commit_exists repo_dir commit fallback_commit ;;
             if negb present then fail_verification key else go_on fallback_commit
         | None => fail_verification key
         end
       else fail_verification key)
      (fun e => if is_process_failure e then Some (fail_verification key) else None).

(** "Commit exists AND is reachable": the v2 entry is written unless the
    verification had passed via the cache. *)
Definition record_verified (key : UrlKey) (cache_key : string)
  (cached_verification_passed : bool) : M bool :=
  (if negb cached_verification_passed then
     t <- now ;;
     let now_str := utc_isoformat E t in
     st <- get_state ;;
     let existing_entry := VERIFY_COMMIT_CACHE_V2 st !! cache_key in
     modify_state (with_commit_cache_v2 (insert cache_key
       {| verified := true;
          first_verified := Some (default now_str (existing_entry ≫= first_verified));
          last_checked := Some now_str;
          fetch_method := "fetch" |})) ;;;
     modify_state (with_commit_cache_dirty (fun _ => true))
   else ret tt) ;;;
  modify_state (with_results (insert key true)) ;;;
  ret true.

(** The body under the per-repository lock.  One thread is modelled, so
    taking the lock does nothing and the second look-up in
    [VERIFY_RESULTS] sees what the first one saw. *)
Definition verify_under_lock
  (vcs_url commit ref_hint version timestamp repo_dir : string)
  (cached_verification_passed : bool) : M bool :=
  let key := (vcs_url, commit) in
  let cache_key := cache_key_of vcs_url commit in
  st <- get_state ;;
  match VERIFY_RESULTS st !! key with
  | Some result => ret result
  | None =>
      let cached := default false (VERIFY_COMMIT_CACHE st !! cache_key) in
      commit_present <- _commit_exists repo_dir commit EmptyString ;;
      (if cached && negb commit_present then
         modify_state (with_commit_cache (delete cache_key)) ;;;
         modify_state (with_commit_cache_dirty (fun _ => true))
       else ret tt) ;;;
      (if negb commit_present && negb (PyStr.is_empty ref_hint)
       then fetch_ref_hint repo_dir ref_hint else ret tt) ;;;
      finish
        (and_then
          (if negb (PyStr.is_empty ref_hint) && negb commit_present
           then fetch_tagged_commit vcs_url commit ref_hint repo_dir key cache_key
           else fetch_full_history vcs_url repo_dir key cache_key)
          (fun _ =>
        and_then
          (present <- _commit_exists repo_dir commit EmptyString ;;
           if negb present then
             if PyStr.is_empty ref_hint
             then use_fallback_commit vcs_url commit version timestamp repo_dir key
             else fail_verification key
           else go_on commit)
          (fun actual_commit =>
        present <- _commit_exists repo_dir commit actual_commit ;;
        if present then
          and_then
            (if negb (PyStr.is_empty ref_hint) then
               and_then
                 (check_tag_target vcs_url commit ref_hint repo_dir key cache_key
                    actual_commit)
                 (fun actual_commit =>
                    check_ancestry repo_dir actual_commit ;;; go_on actual_commit)
             else
               detect_branch vcs_url commit version timestamp repo_dir key
                 actual_commit)
            (fun _ =>
               verdict <- record_verified key cache_key cached_verification_passed ;;
               early verdict)
        else
          modify_state (with_results (insert key false)) ;;;
          modify_state (with_commit_cache (delete cache_key)) ;;;
          modify_state (with_commit_cache_v2 (delete cache_key)) ;;;
          modify_state (with_commit_cache_dirty (fun _ => true)) ;;;
          early (A := bool) false)))
  end.

Definition verify_commit_accessible
  (vcs_url commit ref_hint version timestamp : string) : M bool :=
  let key := (vcs_url, commit) in
  st <- get_state ;;
  match VERIFY_RESULTS st !! key with
  | Some result => ret result
  | None =>
      let cache_key := cache_key_of vcs_url commit in
      passed <- fresh_in_v2_cache cache_key ;;
      cached_verification_passed <- migrate_legacy_entry cache_key passed ;;
      repo_dir <- _verify_repo_dir vcs_url ;;
      st <- get_state ;;
      if negb (bool_decide (vcs_url ∈ VERIFY_REPO_LOCKS st)) then raise KeyError
      else
        verify_under_lock vcs_url commit ref_hint version timestamp repo_dir
          cached_verification_passed
  end.

(** [get_actual_commit] *)
Definition get_actual_commit (vcs_url commit : string) (st : State) : string :=
  default commit (VERIFY_FALLBACK_COMMITS st !! (vcs_url, commit)).

End Engine.


(** A timestamp the resolver cannot use: whenever it parses, the year is
    outside 1970..9999 or one of the two day shifts overflows. *)
Definition timestamp_unusable (timestamp_str : string) : Prop :=
  forall dt, PyDate.strptime timestamp_str = Ret dt ->
    (dt_year dt < 1970)%Z \/ (9999 < dt_year dt)%Z
    \/ PyDate.add_days dt (-1) = Raise OverflowError
    \/ PyDate.add_days dt 1 = Raise OverflowError.

(** The number written by the first four characters of a timestamp. *)
Definition leading_year (timestamp_str : string) : option Z :=
  match PyDate.p_Y timestamp_str with
  | (year, _) :: _ => Some year
  | [] => None
  end.

(** The hash field of a line of [git log --format='%H %ct'] output (a line
    with fewer than two fields has none). *)
Definition log_line_hash (line : string) : option string :=
  match PyStr.split line with
  | full_hash :: _ :: _ => Some full_hash
  | _ => None
  end.

(** [h] is the hash of the first line of the log whose hash starts with
    [short_commit]. *)
Definition first_matching_hash (short_commit : string) (lines : list string)
  (h : string) : Prop :=
  exists before line after,
    lines = before ++ line :: after
    /\ log_line_hash line = Some h
    /\ PyStr.startswith short_commit h = true
    /\ forall l h', l ∈ before -> log_line_hash l = Some h' ->
         PyStr.startswith short_commit h' = false.

(** No line of the log has a hash that starts with [short_commit]. *)
Definition no_matching_hash (short_commit : string) (lines : list string) : Prop :=
  forall l h, l ∈ lines -> log_line_hash l = Some h ->
    PyStr.startswith short_commit h = false.

(** The command [c] was run between the states [st] and [st'], after the
    events [history]. *)
Definition ran_between (st st' : State) (c : Cmd) (history : list Event) : Prop :=
  events st `suffix_of` history /\ (EvRun c :: history) `suffix_of` events st'.

(** A checked command that raises [CalledProcessError] or
    [TimeoutExpired]. *)
Definition process_failed (r : ProcResult) : Prop :=
  match r with
  | Exited rc _ _ => rc <> 0%Z
  | TimedOut => True
  | SpawnFailed => False
  end.

(** The search window of a timestamp [YYYYMMDDHHmmss] of the years 1970 to
    9999: the same time one day before and one day after, as [isoformat]
    writes them. *)
Definition date_window (timestamp_str since until : string) : Prop :=
  exists dt day_before day_after,
    PyDate.strptime timestamp_str = Ret dt
    /\ (1970 <= dt_year dt <= 9999)%Z
    /\ PyDate.add_days dt (-1) = Ret day_before
    /\ PyDate.add_days dt 1 = Ret day_after
    /\ since = PyDate.isoformat day_before
    /\ until = PyDate.isoformat day_after.

(** [pkg] is the last segment of the path of [url]: what stands after the
    last [/] once the slashes at the end of [url] are set aside. *)
Definition last_path_segment (url pkg : string) : Prop :=
  PyStr.has_char "/" pkg = false
  /\ exists front slashes,
       url = front +:+ pkg +:+ slashes
       /\ PyStr.forallb_char (PyStr.eqb_char "/") slashes = true
       /\ (front = EmptyString \/ exists f, front = f +:+ "/")
       /\ (pkg <> EmptyString \/ front = EmptyString).

(** The candidate URLs of a repository: the URL itself and, for a
    repository of [go.googlesource.com], its mirror on GitHub. *)
Definition candidate_urls (vcs_url : string) (urls : list string) : Prop :=
  if PyStr.contains "go.googlesource.com" vcs_url
  then exists pkg,
         last_path_segment vcs_url pkg
         /\ urls = [vcs_url; "https://github.com/golang/" +:+ pkg]
  else urls = [vcs_url].

(** The two commands of a round, by their arguments. *)
Definition is_bare_clone (c : Cmd) (try_url clone_dir : string) : Prop :=
  argv c = ["git"; "clone"; "--bare"; "--quiet"; try_url; clone_dir].

Definition is_window_log (c : Cmd) (clone_dir since until : string) : Prop :=
  argv c = ["git"; "log"; "--all"; "--format=%H %ct";
            "--since=" +:+ since; "--until=" +:+ until]
  /\ cwd c = Some clone_dir.

(** The directory in which a round that starts in the state [st] keeps
    the clone of [try_url]: a directory of the clone cache named after the
    URL, or a fresh temporary directory. *)
Definition round_clone_dir (E : Env) (clone_cache_dir : option string)
  (try_url : string) (st : State) : string :=
  match clone_cache_dir with
  | Some dir =>
      path_join dir ("repo_" +:+ PyStr.take 16 (sha256_hexdigest E try_url))
  | None => env_mkdtemp E (events st) "pseudo-resolve-"
  end.

(** When the log is run after [history], the clone it reads is at hand:
    since [st] the directory was seen to hold a repository, or [try_url]
    was cloned into it. *)
Definition clone_at_hand (E : Env) (try_url clone_dir : string) (st : State)
  (history : list Event) : Prop :=
  (exists seen,
     events st `suffix_of` seen /\ seen `suffix_of` history
     /\ env_exists E seen clone_dir = true
     /\ env_exists E seen (path_join clone_dir "HEAD") = true)
  \/ (exists c cloned out err,
        is_bare_clone c try_url clone_dir
        /\ events st `suffix_of` cloned
        /\ (EvRun c :: cloned) `suffix_of` history
        /\ env_run E cloned c = Exited 0 out err).

(** The round of [try_url] between [st] and [st'] yields [h]: the
    date-window log of its clone was run and printed, and [h] is the first
    hash of the output that starts with [short_commit]. *)
Definition round_yields (E : Env) (clone_cache_dir : option string)
  (since until short_commit try_url h : string) (st st' : State) : Prop :=
  let clone_dir := round_clone_dir E clone_cache_dir try_url st in
  exists c history out err,
    is_window_log c clone_dir since until
    /\ ran_between st st' c history
    /\ clone_at_hand E try_url clone_dir st history
    /\ env_run E history c = Exited 0 out err
    /\ first_matching_hash short_commit (PyStr.splitlines (PyStr.strip out)) h.

(** The round of [try_url] between [st] and [st'] fails to yield a hash:
    its clone failed or timed out, or the date-window log of its clone
    failed or timed out, or the log was printed and none of its hashes
    starts with [short_commit]. *)
Definition round_fails (E : Env) (clone_cache_dir : option string)
  (since until short_commit try_url : string) (st st' : State) : Prop :=
  let clone_dir := round_clone_dir E clone_cache_dir try_url st in
  exists c history,
    ran_between st st' c history
    /\ ((is_bare_clone c try_url clone_dir /\ process_failed (env_run E history c))
        \/ (is_window_log c clone_dir since until
            /\ clone_at_hand E try_url clone_dir st history
            /\ (process_failed (env_run E history c)
                \/ exists out err,
                     env_run E history c = Exited 0 out err
                     /\ no_matching_hash short_commit
                          (PyStr.splitlines (PyStr.strip out))))).

(** The rounds of [urls], one after the other between [st] and [st'], all
    fail. *)
Inductive rounds_fail (E : Env) (clone_cache_dir : option string)
  (since until short_commit : string) : list string -> State -> State -> Prop :=
| rounds_fail_nil st : rounds_fail E clone_cache_dir since until short_commit [] st st
| rounds_fail_cons try_url urls st s1 st' :
    round_fails E clone_cache_dir since until short_commit try_url st s1 ->
    rounds_fail E clone_cache_dir since until short_commit urls s1 st' ->
    rounds_fail E clone_cache_dir since until short_commit (try_url :: urls) st st'.

(** A computation only adds events to the history. *)
Definition grows {A} (m : M A) : Prop :=
  forall st, events st `suffix_of` events (m st).2.

(** ** Module records, overrides and the metadata cache *)

(** A module record: the dictionary the driver keeps per (module,
    version). *)
Record ModuleRecord := {
  module_path : string;
  version : string;
  vcs_url : string;
  vcs_hash : string;
  vcs_ref : string;
  timestamp : string;
  subdir : string;
}.

(** A value of [MODULE_METADATA_CACHE]. *)
Module Meta.
Record entry := {
  vcs_url : string;
  commit : string;
  timestamp : string;
  subdir : string;
  ref : string;
}.
End Meta.

Definition OverrideKey : Type := string * option string.

Record Overrides := {
  MODULE_REPO_OVERRIDES : gmap OverrideKey string;
  MANUAL_OVERRIDES : gmap OverrideKey string;
  REPO_OVERRIDES : gmap string (list string);
}.

Definition no_overrides : Overrides := {|
  MODULE_REPO_OVERRIDES := ∅;
  MANUAL_OVERRIDES := ∅;
  REPO_OVERRIDES := ∅;
|}.

Definition _normalise_override_key (module_path : string) (version : option string)
  : Outcome OverrideKey :=
  let module := PyStr.strip module_path in
  let ver :=
    match version with
    | Some v => if PyStr.is_empty v then None else Some (PyStr.strip v)
    | None => None
    end in
  if PyStr.is_empty module then Raise ValueError else Ret (module, ver).

(** [if candidate and candidate not in overrides: overrides.append(..)] *)
Definition add_override (candidate : option string) (overrides : list string)
  : list string :=
  match candidate with
  | Some url =>
      if negb (PyStr.is_empty url) && negb (bool_decide (url ∈ overrides))
      then overrides ++ [url] else overrides
  | None => overrides
  end.

Definition repo_override_candidates (ov : Overrides) (module_path : string)
  (version : option string) : Outcome (list string) :=
  match _normalise_override_key module_path version with
  | Raise e => Raise e
  | Ret key =>
      match _normalise_override_key module_path None with
      | Raise e => Raise e
      | Ret wildcard_key =>
          let overrides := add_override (MODULE_REPO_OVERRIDES ov !! key) [] in
          let overrides := add_override (MODULE_REPO_OVERRIDES ov !! wildcard_key) overrides in
          let overrides := add_override (MANUAL_OVERRIDES ov !! key) overrides in
          let overrides := add_override (MANUAL_OVERRIDES ov !! wildcard_key) overrides in
          Ret (foldl (fun acc candidate =>
                        if bool_decide (candidate ∈ acc) then acc else acc ++ [candidate])
                     overrides
                     (default [] (REPO_OVERRIDES ov !! module_path)))
      end
  end.

Definition _normalize_url (url : string) : string :=
  let url := PyStr.strip url in
  let url := if PyStr.startswith "git://" url
             then String.append "https://" (PyStr.drop 6 url) else url in
  if PyStr.endswith ".git" url then PyStr.drop_end 4 url else url.

Definition _url_allowed_for_module (ov : Overrides) (module_path url : string)
  (version : option string) : Outcome bool :=
  let url := _normalize_url url in
  match repo_override_candidates ov module_path version with
  | Raise e => Raise e
  | Ret overrides =>
      match overrides with
      | [] => Ret true
      | _ => Ret (bool_decide (url ∈ map _normalize_url overrides))
      end
  end.

(** [re.fullmatch(r'[0-9a-fA-F]{40}', commit)] *)
Definition fullmatch_hex40 (commit : string) : bool :=
  (String.length commit =? 40)%nat && PyStr.forallb_char PyStr.is_hex commit.

(** The tests of one round of the loop of [prune_metadata_cache]: is the
    entry kept? *)
Definition keep_metadata (ov : Overrides) (key : ModKey) (entry : Meta.entry)
  : Outcome bool :=
  let vcs_url := Meta.vcs_url entry in
  let commit := Meta.commit entry in
  if PyStr.is_empty vcs_url || PyStr.is_empty commit then Ret false
  else if negb (String.length commit =? 40)%nat || negb (fullmatch_hex40 commit)
  then Ret false
  else _url_allowed_for_module ov key.1 vcs_url (Some key.2).

Definition prune_step (ov : Overrides) (key : ModKey) (entry : Meta.entry)
  (acc : Outcome (gmap ModKey Meta.entry * bool))
  : Outcome (gmap ModKey Meta.entry * bool) :=
  match acc with
  | Raise e => Raise e
  | Ret (cache, removed) =>
      match keep_metadata ov key entry with
      | Raise e => Raise e
      | Ret true => Ret (cache, removed)
      | Ret false => Ret (delete key cache, true)
      end
  end.

(** [prune_metadata_cache]: the cache after the loop and the new value of
    [MODULE_METADATA_CACHE_DIRTY]; an exception of the override look-up
    leaves the function. *)
Definition prune_metadata_cache (ov : Overrides)
  (MODULE_METADATA_CACHE : gmap ModKey Meta.entry)
  (MODULE_METADATA_CACHE_DIRTY : bool)
  : Outcome (gmap ModKey Meta.entry * bool) :=
  match map_fold (prune_step ov) (Ret (MODULE_METADATA_CACHE, false))
                 MODULE_METADATA_CACHE with
  | Raise e => Raise e
  | Ret (cache, removed) =>
      Ret (cache, if removed then true else MODULE_METADATA_CACHE_DIRTY)
  end.

(** One [.info] file in the first loop of [discover_modules], from the
    point where the VCS data has been read ([origin_url], [origin_hash]) to
    the record that is appended (the second loop is [synthesize_all]
    below).  [VERIFY_ENABLED] is false there: [_execute] sets it only
    after discovery.  An exception of the override look-up is caught by
    the loop's [except Exception], which skips the file. *)
Definition discovered_module (ov : Overrides) (module_path version : string)
  (origin_url origin_hash : option string) (origin_ref origin_subdir time : string)
  : option ModuleRecord :=
  match origin_url, origin_hash with
  | Some url, Some hash =>
      if PyStr.is_empty url || PyStr.is_empty hash then None
      else
        match repo_override_candidates ov module_path (Some version) with
        | Raise _ => None
        | Ret overrides =>
            let url := List.hd url overrides in
            if negb (String.length hash =? 40)%nat then None
            else Some {| module_path := module_path; version := version;
                         vcs_url := url; vcs_hash := hash; vcs_ref := origin_ref;
                         timestamp := time; subdir := origin_subdir |}
        end
  | _, _ => None
  end.

(** ** Sub-directories *)

(** [part.startswith('v') and part[1:].isdigit()] *)
Definition is_version_suffix (part : string) : bool :=
  PyStr.startswith "v" part && PyStr.isdigit (PyStr.drop 1 part).

(** "Remove trailing version suffix if present". *)
Definition strip_version_suffix (subdir_parts : list string) : list string :=
  match last subdir_parts with
  | Some part =>
      if is_version_suffix part then removelast subdir_parts else subdir_parts
  | None => subdir_parts
  end.

Definition join_subdir (subdir_parts : list string) : string :=
  match subdir_parts with
  | [] => EmptyString
  | _ => PyStr.join "/" subdir_parts
  end.

(** The sub-directory [resolve_module_metadata] computes from the parts
    of a module path of three or more components. *)
Definition module_subdir (parts : list string) : string :=
  if (3 <? length parts)%nat
  then join_subdir (strip_version_suffix (drop 3 parts))
  else EmptyString.

Definition find_repo_boundary (vcs_repo_name : string) (module_parts : list string)
  : option nat :=
  fst <$> list_find
    (fun part => part = vcs_repo_name
                 \/ PyStr.contains part vcs_repo_name = true
                 \/ PyStr.endswith part vcs_repo_name = true)
    module_parts.

Definition _recalculate_subdir_from_vanity (vcs_url : string)
  (module_parts : list string) (current_subdir : string) : string :=
  if PyStr.is_empty vcs_url then current_subdir
  else
    let vcs_repo_name :=
      List.last (PyStr.split_on "/" (PyStr.rstrip_char "/" vcs_url)) EmptyString in
    let vcs_repo_name :=
      if PyStr.endswith ".git" vcs_repo_name
      then PyStr.drop_end 4 vcs_repo_name else vcs_repo_name in
    match find_repo_boundary vcs_repo_name module_parts with
    | Some i =>
        if (S i <? length module_parts)%nat
        then join_subdir (strip_version_suffix (drop (S i) module_parts))
        else if (length module_parts <=? 3)%nat then EmptyString
        else current_subdir
    | None =>
        if (length module_parts <=? 3)%nat then EmptyString else current_subdir
    end.

(** ** Versions *)

(** [re.fullmatch(r'[0-9a-fA-F]{6,40}', s)] *)
Definition fullmatch_hex_6_40 (s : string) : bool :=
  (6 <=? String.length s)%nat && (String.length s <=? 40)%nat
  && PyStr.forallb_char PyStr.is_hex s.

Definition parse_pseudo_version_tag (tag : string) : option (string * string) :=
  let tag := List.hd EmptyString (PyStr.split_on "+" tag) in
  let parts := PyStr.split_on "-" tag in
  if (length parts <? 3)%nat then None
  else
    let short_commit := List.last parts EmptyString in
    let timestamp_part := List.nth (length parts - 2) parts EmptyString in
    let timestamp_str := List.last (PyStr.split_on "." timestamp_part) EmptyString in
    if negb (String.length timestamp_str =? 14)%nat
       || negb (PyStr.isdigit timestamp_str) then None
    else if negb (fullmatch_hex_6_40 short_commit) then None
    else Some (timestamp_str, short_commit).

Definition derive_timestamp_from_version (version : string) : string :=
  match parse_pseudo_version_tag version with
  | Some (timestamp_str, _) =>
      match PyDate.strptime timestamp_str with
      | Ret dt => PyDate.strftime_z dt
      | Raise _ => "1970-01-01T00:00:00Z"
      end
  | None => "1970-01-01T00:00:00Z"
  end.

Section Driver.

Variable E : Env.
Variable cfg : Config.

(** *** Monorepo sub-module synthesis (in [_execute]) *)

(** "Try progressively shorter base paths": the pairs
    [(candidate_base, candidate_subdir)] for [i] from [len - 1] down to 3. *)
Definition base_candidates (resolved_path : string) : list (string * string) :=
  let path_segments := PyStr.split_on "/" resolved_path in
  map (fun i => (PyStr.join "/" (take i path_segments),
                 PyStr.join "/" (drop i path_segments)))
      (rev (seq 3 (length path_segments - 3))).

(** [a or b] where [b] is only evaluated when [a] is falsy. *)
Definition or_else (a : M (option string)) (b : M (option string)) : M (option string) :=
  x <- a ;;
  if truthy x then ret x else b.

(** The loop over the candidate bases: the record that is appended to
    [modules], if any. *)
Fixpoint try_base_candidates (modules_by_path : gmap string (list ModuleRecord))
  (module_path version resolved_version : string)
  (candidates : list (string * string)) : M (option ModuleRecord) :=
  match candidates with
  | [] => ret None
  | (base_path, subdir) :: rest =>
      match modules_by_path !! base_path with
      | Some (base_module :: _) =>
          let vcs_url := vcs_url base_module in
          let tag := List.hd EmptyString (PyStr.split_on "+" resolved_version) in
          commit <- or_else (git_ls_remote E cfg vcs_url (String.append "refs/tags/" tag))
                            (git_ls_remote E cfg vcs_url tag) ;;
          match commit with
          | Some commit_hash =>
              if PyStr.is_empty commit_hash
              then try_base_candidates modules_by_path module_path version
                     resolved_version rest
              else
                let timestamp := derive_timestamp_from_version resolved_version in
                tagged <- git_ls_remote E cfg vcs_url (String.append "refs/tags/" tag) ;;
                ret (Some {| module_path := module_path; version := version;
                             vcs_url := vcs_url; vcs_hash := commit_hash;
                             vcs_ref := if truthy tagged
                                        then String.append "refs/tags/" tag else tag;
                             timestamp := timestamp; subdir := subdir |})
          | None =>
              try_base_candidates modules_by_path module_path version
                resolved_version rest
          end
      | Some [] => raise IndexError
      | None =>
          try_base_candidates modules_by_path module_path version
            resolved_version rest
      end
  end.

(** "Handle monorepo submodule replacements": entered when
    [resolve_module_metadata] failed for the replaced path. *)
Definition synthesize_submodule (modules_by_path : gmap string (list ModuleRecord))
  (module_path version resolved_path resolved_version : string)
  : M (option ModuleRecord) :=
  if negb (String.eqb resolved_path module_path) && PyStr.has_char "/" resolved_path
  then try_base_candidates modules_by_path module_path version resolved_version
         (base_candidates resolved_path)
  else ret None.

(** *** Pre-discovered modules ([load_discovered_modules]) *)

Definition set_vcs_hash (module : ModuleRecord) (full_hash : string) : ModuleRecord := {|
  module_path := module_path module;
  version := version module;
  vcs_url := vcs_url module;
  vcs_hash := full_hash;
  vcs_ref := vcs_ref module;
  timestamp := timestamp module;
  subdir := subdir module;
|}.

(** One round of "Expand 12-char short hashes to full 40-char hashes";
    modules whose hash has another length are not in
    [short_hash_modules] and stay as they are. *)
Definition expand_short_hash (module : ModuleRecord) : M ModuleRecord :=
  if negb (String.length (vcs_hash module) =? 12)%nat then ret module
  else
    let short_hash := vcs_hash module in
    match parse_pseudo_version_tag
            (List.hd EmptyString (PyStr.split_on "+" (version module))) with
    | Some (timestamp_str, _) =>
        full_hash <- resolve_pseudo_version_commit E (vcs_url module) timestamp_str
                       short_hash (Some (CLONE_CACHE_DIR cfg)) ;;
        match full_hash with
        | Some h =>
            if negb (PyStr.is_empty h) && (String.length h =? 40)%nat
            then ret (set_vcs_hash module h) else ret module
        | None => ret module
        end
    | None => ret module
    end.

Fixpoint expand_short_hashes (modules : list ModuleRecord) : M (list ModuleRecord) :=
  match modules with
  | [] => ret []
  | module :: rest =>
      module' <- expand_short_hash module ;;
      rest' <- expand_short_hashes rest ;;
      ret (module' :: rest')
  end.

(** [load_discovered_modules] from the point where the file has been
    read: [modules] is the list of dictionaries it holds (each with the
    required fields; a field the file leaves out reads as the empty
    string).  Any exception makes the function return [None]. *)
Definition load_discovered_modules (modules : list ModuleRecord)
  : M (option (list ModuleRecord)) :=
  try_except
    (modules' <- expand_short_hashes modules ;; ret (Some modules'))
    (fun _ => Some (ret None)).

End Driver.

(** The [ls-remote] output read as a list of (hash, ref name) pairs, and
    the hashes of the peeled ([^{}]) and of the other lines. *)
Definition ls_remote_entry (line : string) : option (string * string) :=
  match PyStr.split line with
  | hash_val :: ref_name :: _ => Some (hash_val, ref_name)
  | _ => None
  end.

Definition is_peeled (entry : string * string) : bool :=
  PyStr.endswith "^{}" entry.2.

Definition peeled_hashes (lines : list string) : list string :=
  (filter (fun e => is_peeled e = true) (omap ls_remote_entry lines)).*1.

Definition tag_object_hashes (lines : list string) : list string :=
  (filter (fun e => is_peeled e = false) (omap ls_remote_entry lines)).*1.

(** An environment in which nothing exists on disk and every command runs
    into its timeout. *)
Definition env_all_timeouts : Env := {|
  env_run := fun _ _ => TimedOut;
  env_exists := fun _ _ => false;
  env_fs_ok := fun _ _ => true;
  env_mkdtemp := fun _ prefix => String.append "/tmp/" prefix;
  env_now := fun _ => 0%Z;
  sha256_hexdigest := fun s => s;
  fromisoformat := fun _ => None;
  utc_isoformat := fun _ => "1970-01-01T00:00:00+00:00";
|}.

Definition cfg_default : Config := {|
  CLONE_CACHE_DIR := "/scripts/.cache/repos";
  VERIFY_BASE_DIR := "/scripts/data/.verify";
  VERIFY_CACHE_MAX_AGE_DAYS := 30;
|}.

Definition newline : string := String (ascii_of_N 10) EmptyString.

(** An environment without local clones whose remote has an annotated tag:
    [ls-remote] prints the tag object and the peeled commit. *)
Definition annotated_tag_output : string :=
  String.append "1111111111111111111111111111111111111111 refs/tags/v1.8.0"
    (String.append newline
      (String.append "2222222222222222222222222222222222222222 refs/tags/v1.8.0^{}"
         newline)).

Definition env_annotated_tag : Env := {|
  env_run := fun _ c =>
    if bool_decide (take 2 (argv c) = ["git"; "ls-remote"])
    then Exited 0 annotated_tag_output ""
    else Exited 1 "" "";
  env_exists := fun _ _ => false;
  env_fs_ok := fun _ _ => true;
  env_mkdtemp := fun _ prefix => String.append "/tmp/" prefix;
  env_now := fun _ => 0%Z;
  sha256_hexdigest := fun s => s;
  fromisoformat := fun _ => None;
  utc_isoformat := fun _ => "1970-01-01T00:00:00+00:00";
|}.

(** The environment of the [golang.org/x/tools] scenario: cloning from
    [go.googlesource.com] fails, the GitHub mirror can be cloned, and the
    log of the window holds two commits. *)
Definition tools_log_output : string :=
  String.append "0f2c5f3c9e1d4b7a8c6e5d4f3a2b1c0d9e8f7a6b 1597473500"
    (String.append newline
      (String.append "42c35b4376350123456789abcdef0123456789ab 1597473492"
         newline)).

Definition env_golang_tools : Env := {|
  env_run := fun _ c =>
    if bool_decide (take 2 (argv c) = ["git"; "clone"]) then
      if bool_decide (argv c !! 4%nat = Some "https://github.com/golang/tools")
      then Exited 0 "" ""
      else Exited 128 "" "fatal: unable to access"
    else if bool_decide (take 2 (argv c) = ["git"; "log"]) then
      Exited 0 tools_log_output ""
    else Exited 1 "" "";
  env_exists := fun _ _ => false;
  env_fs_ok := fun _ _ => true;
  env_mkdtemp := fun _ prefix => String.append "/tmp/" prefix;
  env_now := fun _ => 0%Z;
  sha256_hexdigest := fun s => s;
  fromisoformat := fun _ => None;
  utc_isoformat := fun _ => "1970-01-01T00:00:00+00:00";
|}.

(** *** Two verifier scenarios *)

Definition example_repo : string := "https://github.com/example/proj".
Definition commit_a : string := "aaaaaaaaaaaaaaaaaaaaaaaaaaaaaaaaaaaaaaaa".
Definition commit_b : string := "bbbbbbbbbbbbbbbbbbbbbbbbbbbbbbbbbbbbbbbb".

(** A force-pushed tag: the bare repository can be set up, the tag can be
    fetched and now points at [commit_b]; the commit the proxy reported,
    [commit_a], is neither in the local repository nor fetchable. *)
Definition env_moved_tag : Env := {|
  env_run := fun _ c =>
    if bool_decide (argv c = ["git"; "init"; "--bare"]) then Exited 0 "" ""
    else if bool_decide (take 3 (argv c) = ["git"; "remote"; "add"]) then Exited 0 "" ""
    else if bool_decide
              (argv c = ["git"; "fetch"; "--depth=1"; "origin"; "refs/tags/v1.2.3"])
    then Exited 0 "" ""
    else if bool_decide (argv c = ["git"; "rev-parse"; "FETCH_HEAD"])
    then Exited 0 (String.append commit_b newline) ""
    else Exited 128 "" "fatal";
  env_exists := fun _ _ => false;
  env_fs_ok := fun _ _ => true;
  env_mkdtemp := fun _ prefix => String.append "/tmp/" prefix;
  env_now := fun _ => 0%Z;
  sha256_hexdigest := fun s => s;
  fromisoformat := fun _ => None;
  utc_isoformat := fun _ => "1970-01-01T00:00:00+00:00";
|}.

(** The network is down: only the set-up of the bare repository works.
    The clock stands one day after the instant every cached timestamp
    reads as. *)
Definition env_network_down : Env := {|
  env_run := fun _ c =>
    if bool_decide (argv c = ["git"; "init"; "--bare"]) then Exited 0 "" ""
    else if bool_decide (take 3 (argv c) = ["git"; "remote"; "add"]) then Exited 0 "" ""
    else Exited 128 "" "fatal: unable to access";
  env_exists := fun _ _ => false;
  env_fs_ok := fun _ _ => true;
  env_mkdtemp := fun _ prefix => String.append "/tmp/" prefix;
  env_now := fun _ => (1739197200 + 86400)%Z;
  sha256_hexdigest := fun s => s;
  fromisoformat := fun _ =>
    Some {| iso_fields := {| dt_year := 2025; dt_month := 2; dt_day := 10;
                             dt_hour := 14; dt_minute := 20; dt_second := 0 |};
            iso_epoch := Some 1739197200%Z |};
  utc_isoformat := fun _ => "2025-02-11T14:20:00+00:00";
|}.

(** A run that starts with a one-day-old verified entry for
    [(example_repo, commit_a)] in the v2 cache. *)
Definition state_with_fresh_entry : State :=
  with_commit_cache_v2
    (insert (cache_key_of example_repo commit_a)
       {| verified := true;
          first_verified := Some "2025-01-15T10:30:00Z";
          last_checked := Some "2025-02-10T14:20:00Z";
          fetch_method := "fetch" |})
    initial_state.

(** Two runs that end alike and issued the same events. *)
Definition same_run {A} (r1 r2 : Outcome A * State) : Prop :=
  r1.1 = r2.1 /\ events r1.2 = events r2.2.

(** ** The record invariants as the specification words them *)

(** A major-version suffix: [v] and one or more decimal digits. *)
Definition is_major_version (part : string) : bool :=
  PyStr.startswith "v" part
  && negb (PyStr.is_empty (PyStr.drop 1 part))
  && PyStr.forallb_char PyStr.is_ascii_digit (PyStr.drop 1 part).

(** "If [subdir] is non-empty, no component equals a major-version
    suffix." *)
Definition subdir_free_of_versions (r : ModuleRecord) : Prop :=
  subdir r <> EmptyString ->
  forall part, part ∈ PyStr.split_on "/" (subdir r) -> is_major_version part = false.

(** "[vcs_hash] is 40 characters of lower-case hex." *)
Definition is_lower_hex40 (h : string) : bool :=
  (String.length h =? 40)%nat && PyStr.forallb_char PyStr.is_hex_lower h.

Definition no_slash (part : string) : Prop := PyStr.has_char "/" part = false.

(** *** The etcd fork scenario *)

(** The manifest replaces [go.etcd.io/etcd/server/v3] by
    [github.com/k3s-io/etcd/server/v3 v3.5.10-k3s1].  The base module
    [github.com/k3s-io/etcd] has been resolved against a mirror; the
    replaced path itself cannot be resolved (its own repository does not
    answer), so [resolve_module_metadata] fails on it and the synthesis is
    entered. *)
Definition etcd_mirror : string := "https://mirror.example.com/k3s-io/etcd".

Definition etcd_base_record : ModuleRecord := {|
  module_path := "github.com/k3s-io/etcd";
  version := "v3.5.10-k3s1";
  vcs_url := etcd_mirror;
  vcs_hash := "cccccccccccccccccccccccccccccccccccccccc";
  vcs_ref := "refs/tags/v3.5.10-k3s1";
  timestamp := "1970-01-01T00:00:00Z";
  subdir := "";
|}.

Definition etcd_modules_by_path : gmap string (list ModuleRecord) :=
  {[ "github.com/k3s-io/etcd" := [etcd_base_record] ]}.

(** Only the mirror answers [ls-remote]; it knows the tag of the
    replacement version. *)
Definition env_etcd : Env := {|
  env_run := fun _ c =>
    if bool_decide (take 3 (argv c) = ["git"; "ls-remote"; etcd_mirror])
    then Exited 0 "cccccccccccccccccccccccccccccccccccccccc refs/tags/v3.5.10-k3s1" ""
    else Exited 128 "" "fatal: unable to access";
  env_exists := fun _ _ => false;
  env_fs_ok := fun _ _ => true;
  env_mkdtemp := fun _ prefix => String.append "/tmp/" prefix;
  env_now := fun _ => 0%Z;
  sha256_hexdigest := fun s => s;
  fromisoformat := fun _ => None;
  utc_isoformat := fun _ => "1970-01-01T00:00:00+00:00";
|}.

(** The globals after the failed resolution of the replaced path: the
    look-ups of its tag on [https://github.com/k3s-io/etcd], with and
    without [.git], are cached as failures. *)
Definition etcd_failed_lookups : gmap UrlKey (option string) :=
  {[ ("https://github.com/k3s-io/etcd", "refs/tags/v3.5.10-k3s1") := None;
     ("https://github.com/k3s-io/etcd", "v3.5.10-k3s1") := None;
     ("https://github.com/k3s-io/etcd.git", "refs/tags/v3.5.10-k3s1") := None;
     ("https://github.com/k3s-io/etcd.git", "v3.5.10-k3s1") := None ]}.

Definition etcd_state : State :=
  with_ls_remote_cache (fun _ => etcd_failed_lookups) true initial_state.

(** *** An upper-case hash *)

Definition upper_hash : string := "ABCDEF0123456789ABCDEF0123456789ABCDEF01".

Definition upper_hash_entry : Meta.entry := {|
  Meta.vcs_url := "https://github.com/spf13/cobra";
  Meta.commit := upper_hash;
  Meta.timestamp := "1970-01-01T00:00:00Z";
  Meta.subdir := "";
  Meta.ref := "refs/tags/v1.8.0";
|}.

(** *** A short hash that cannot be expanded *)

Definition short_hash_record : ModuleRecord := {|
  module_path := "golang.org/x/tools";
  version := "v0.0.0-20200815063812-42c35b437635";
  vcs_url := "https://go.googlesource.com/tools";
  vcs_hash := "42c35b437635";
  vcs_ref := "";
  timestamp := "2020-08-15T06:38:12Z";
  subdir := "";
|}.

(** What the loop of [prune_metadata_cache] has kept after the entries of
    [seen]: entries of the cache it started from, and the seen ones among
    them passed the tests. *)
Definition kept_entries_ok (ov : Overrides) (cache0 : gmap ModKey Meta.entry)
  (acc : Outcome (gmap ModKey Meta.entry * bool))
  (seen : gmap ModKey Meta.entry) : Prop :=
  forall cache removed, acc = Ret (cache, removed) ->
    forall key entry, cache !! key = Some entry ->
      cache0 !! key = Some entry
      /\ forall entry', seen !! key = Some entry' ->
           keep_metadata ov key entry' = Ret true.

(** ** Further functions of the fetcher *)

(** *** Repository overrides *)

(** Where a candidate of [repo_override_candidates] can come from: a
    non-empty dynamic or manual override stored under the version-specific
    or the wildcard key, or the legacy list of the module path. *)
Definition override_source (ov : Overrides) (module_path : string)
  (version : option string) (url : string) : Prop :=
  (exists key,
     (_normalise_override_key module_path version = Ret key
      \/ _normalise_override_key module_path None = Ret key)
     /\ (MODULE_REPO_OVERRIDES ov !! key = Some url
         \/ MANUAL_OVERRIDES ov !! key = Some url)
     /\ url <> EmptyString)
  \/ url ∈ default [] (REPO_OVERRIDES ov !! module_path).

(** The body of the loop over the legacy entries. *)
Definition add_legacy (acc : list string) (candidate : string) : list string :=
  if bool_decide (candidate ∈ acc) then acc else acc ++ [candidate].

(** The entries of a metadata cache that pass the tests of
    [prune_metadata_cache]. *)
Definition passes_prune (ov : Overrides) (kv : ModKey * Meta.entry) : bool :=
  match keep_metadata ov kv.1 kv.2 with
  | Ret true => true
  | _ => false
  end.

(** Overrides used in examples: a dynamic override of one version of a
    module and a manual wildcard override of the same module. *)
Definition example_overrides : Overrides := {|
  MODULE_REPO_OVERRIDES :=
    {[ ("github.com/docker/docker", Some "v25.0.0")
         := "https://github.com/moby/moby" ]};
  MANUAL_OVERRIDES :=
    {[ ("github.com/docker/docker", None) := "git://github.com/moby/moby.git" ]};
  REPO_OVERRIDES := ∅;
|}.

(** *** The metadata cache *)

#[global] Instance meta_entry_eq_dec : EqDecision Meta.entry.
Proof. solve_decision. Defined.

(** [update_metadata_cache]; the pair is [MODULE_METADATA_CACHE] and
    [MODULE_METADATA_CACHE_DIRTY].  The arguments are strings, on which
    [x or ''] is the identity. *)
Definition update_metadata_cache
  (module_path version vcs_url commit timestamp subdir ref : string) (dirty : bool)
  (caches : gmap ModKey Meta.entry * bool) : gmap ModKey Meta.entry * bool :=
  let key := (module_path, version) in
  let value := {| Meta.vcs_url := vcs_url; Meta.commit := commit;
                  Meta.timestamp := timestamp; Meta.subdir := subdir;
                  Meta.ref := ref |} in
  if bool_decide (caches.1 !! key = Some value) then caches
  else (<[key := value]> caches.1, if dirty then true else caches.2).

(** [get_cached_metadata] (a stored entry is a dictionary of five keys,
    which is never falsy). *)
Definition get_cached_metadata (MODULE_METADATA_CACHE : gmap ModKey Meta.entry)
  (module_path version : string) : option ModuleRecord :=
  match MODULE_METADATA_CACHE !! (module_path, version) with
  | None => None
  | Some entry =>
      let timestamp :=
        if PyStr.is_empty (Meta.timestamp entry)
        then derive_timestamp_from_version version
        else Meta.timestamp entry in
      Some {| module_path := module_path; version := version;
              vcs_url := Meta.vcs_url entry; vcs_hash := Meta.commit entry;
              vcs_ref := Meta.ref entry; timestamp := timestamp;
              subdir := Meta.subdir entry |}
  end.

(** A cache with one entry that passes the tests of the pruning and one
    whose commit is a short hash. *)
Definition cobra_entry : Meta.entry := {|
  Meta.vcs_url := "https://github.com/spf13/cobra";
  Meta.commit := "0123456789abcdef0123456789abcdef01234567";
  Meta.timestamp := "2023-11-04T00:00:00Z";
  Meta.subdir := "";
  Meta.ref := "refs/tags/v1.8.0";
|}.

Definition short_commit_entry : Meta.entry := {|
  Meta.vcs_url := "https://go.googlesource.com/tools";
  Meta.commit := "42c35b437635";
  Meta.timestamp := "";
  Meta.subdir := "";
  Meta.ref := "";
|}.

Definition example_metadata_cache : gmap ModKey Meta.entry :=
  {[ ("github.com/spf13/cobra", "v1.8.0") := cobra_entry;
     ("golang.org/x/tools", "v0.0.0-20200815063812-42c35b437635")
       := short_commit_entry ]}.

(** A remote that answers every command with status 0 and no output;
    nothing exists on disk. *)
Definition env_silent : Env := {|
  env_run := fun _ _ => Exited 0 "" "";
  env_exists := fun _ _ => false;
  env_fs_ok := fun _ _ => true;
  env_mkdtemp := fun _ prefix => String.append "/tmp/" prefix;
  env_now := fun _ => 0%Z;
  sha256_hexdigest := fun s => s;
  fromisoformat := fun _ => None;
  utc_isoformat := fun _ => "1970-01-01T00:00:00+00:00";
|}.

(** *** The verifier: what a run leaves behind *)

(** A block of the verifier that, when it leaves the function with a
    verdict, has recorded that verdict in [VERIFY_RESULTS]. *)
Definition settles {A} (key : UrlKey) (m : M (bool + A)) : Prop :=
  forall st b st', m st = (Ret (inl b), st') -> VERIFY_RESULTS st' !! key = Some b.

(** A block that always leaves the function, with a recorded verdict. *)
Definition decides (key : UrlKey) (m : M (bool + bool)) : Prop :=
  forall st r st', m st = (Ret r, st') ->
    exists b, r = inl b /\ VERIFY_RESULTS st' !! key = Some b.

(** Every repository with a directory in [VERIFY_REPO_CACHE] has its lock
    in [VERIFY_REPO_LOCKS]. *)
Definition locks_cover (st : State) : Prop :=
  forall url dir, VERIFY_REPO_CACHE st !! url = Some dir ->
    url ∈ VERIFY_REPO_LOCKS st.

(** A computation that keeps [locks_cover] and never raises [KeyError]. *)
Definition lock_safe {A} (m : M A) : Prop :=
  forall st, locks_cover st ->
    locks_cover (m st).2 /\ (m st).1 <> Raise KeyError.

(** *** Pseudo-versions *)

(** A version string in the shape of a Go pseudo-version: a base, a dash,
    an optional dotted pre-release prefix, the 14-digit timestamp, a dash,
    the abbreviated commit, and optional build metadata. *)
Definition pseudo_version (base pre ts h build : string) : string :=
  base +:+ "-" +:+ (pre +:+ ts) +:+ "-" +:+ h +:+ build.

(** *** Cache files *)

(** [s.split(sep, 1)] for a non-empty [sep] that occurs in [s]: the text
    before its first occurrence and the text after it; [None] when [sep]
    does not occur (the result then has one element, and unpacking it
    into two names raises [ValueError]). *)
Fixpoint split_once (sep s : string) : option (string * string) :=
  if PyStr.startswith sep s
  then Some (EmptyString, PyStr.drop (String.length sep) s)
  else
    match s with
    | EmptyString => None
    | String c rest =>
        match split_once sep rest with
        | Some (before, after) => Some (String c before, after)
        | None => None
        end
    end.

(** [_cache_key] *)
Definition _cache_key (url ref : string) : string := url +:+ "|||" +:+ ref.

(** The dictionary [save_ls_remote_cache] writes, from the items of
    [LS_REMOTE_CACHE] in their order. *)
Definition ls_remote_payload (items : list (UrlKey * option string))
  : gmap string (option string) :=
  foldl (fun payload item => <[_cache_key item.1.1 item.1.2 := item.2]> payload)
        ∅ items.

(** One round of the loop of [load_ls_remote_cache]. *)
Definition load_ls_remote_entry (cache : gmap UrlKey (option string))
  (item : string * option string) : gmap UrlKey (option string) :=
  match split_once "|||" item.1 with
  | Some (url, ref) => <[(url, ref) := item.2]> cache
  | None => cache
  end.

(** [load_ls_remote_cache] from the point where the file has been read:
    [data] holds the items of the decoded object in their order. *)
Definition load_ls_remote_cache (data : list (string * option string))
  (LS_REMOTE_CACHE : gmap UrlKey (option string)) : gmap UrlKey (option string) :=
  foldl load_ls_remote_entry LS_REMOTE_CACHE data.

(** [s.rfind(ch)], [None] standing for -1. *)
Fixpoint rfind_char (ch : ascii) (s : string) : option nat :=
  match s with
  | EmptyString => None
  | String c rest =>
      match rfind_char ch rest with
      | Some i => Some (S i)
      | None => if PyStr.eqb_char c ch then Some 0%nat else None
      end
  end.

(** The key [save_repo_overrides] writes for an override. *)
Definition override_file_key (key : OverrideKey) : string :=
  match key.2 with
  | None => key.1
  | Some version => key.1 +:+ "|||" +:+ version
  end.

(** The key [_load_overrides_from_file] stores an entry under, from the
    key in the file: the legacy [module|||version] form (with [*] for "any
    version"), the [module@version] form, or the bare module path. *)
Definition parse_override_file_key (raw_key : string) : Outcome OverrideKey :=
  if PyStr.contains "|||" raw_key then
    match split_once "|||" raw_key with
    | Some (module_part, version_part) =>
        let version :=
          if String.eqb version_part "*" then None else Some version_part in
        _normalise_override_key module_part version
    | None => Raise ValueError
    end
  else if PyStr.has_char "@" raw_key && negb (PyStr.startswith "@" raw_key) then
    match rfind_char "@" raw_key with
    | Some at_pos =>
        _normalise_override_key (PyStr.take at_pos raw_key)
          (Some (PyStr.drop (S at_pos) raw_key))
    | None =>
        _normalise_override_key (PyStr.drop_end 1 raw_key) (Some raw_key)
    end
  else _normalise_override_key raw_key None.

(** *** The module file ([go.mod]) *)

(** A word: not empty and without white space. *)
Definition is_token (s : string) : bool :=
  negb (PyStr.is_empty s) && PyStr.forallb_char (fun c => negb (PyStr.isspace c)) s.

(** One round of the loop of [parse_go_mod_requires]; the state is
    [(in_require, modules)]. *)
Definition requires_step (state : bool * list (string * string)) (line : string)
  : bool * list (string * string) :=
  let '(in_require, modules) := state in
  let line := PyStr.strip line in
  if PyStr.startswith "require (" line then (true, modules)
  else if in_require && String.eqb line ")" then (false, modules)
  else if PyStr.startswith "require " line && negb (PyStr.has_char "(" line) then
    match PyStr.split line with
    | _ :: module :: version :: _ => (in_require, modules ++ [(module, version)])
    | _ => (in_require, modules)
    end
  else if in_require && negb (PyStr.is_empty line) then
    if PyStr.startswith "//" line then (in_require, modules)
    else
      match PyStr.split line with
      | module :: version :: _ => (in_require, modules ++ [(module, version)])
      | _ => (in_require, modules)
      end
  else (in_require, modules).

(** [parse_go_mod_requires]; [go_mod] is [None] when the file does not
    exist, and otherwise the lines the file object yields (a file that
    cannot be read to its end is not modelled). *)
Definition parse_go_mod_requires (go_mod : option (list string))
  : list (string * string) :=
  match go_mod with
  | None => []
  | Some lines => (foldl requires_step (false, []) lines).2
  end.

Definition tab : string := String (ascii_of_N 9) EmptyString.

(** A requirement as [go mod tidy] writes it inside a [require (...)]
    block: a tab, the module path, the version, and [// indirect] for an
    indirect dependency. *)
Definition require_line (req : string * string * bool) : string :=
  let '(module, version, indirect) := req in
  tab +:+ PyStr.join " " (module :: version ::
                           if indirect then ["//"; "indirect"] else [])
      +:+ newline.

Definition require_block (reqs : list (string * string * bool)) : list string :=
  ("require (" +:+ newline) :: map require_line reqs ++ [")" +:+ newline].

(** A module path the parser can tell from the syntax of the file. *)
Definition plain_module (module : string) : bool :=
  is_token module && negb (String.eqb module "require")
  && negb (PyStr.startswith "//" module).

(** *** Correcting a commit hash from its ref *)

(** [c.lower()] for a code point below 256: the ASCII capitals and the
    capital letters of Latin-1 (192 to 222 but for the multiplication
    sign). *)
Definition lower_char (c : ascii) : ascii :=
  if PyStr.in_range 65 90 c || PyStr.in_range 192 214 c || PyStr.in_range 216 222 c
  then ascii_of_N (PyStr.code c + 32) else c.

Fixpoint lower (s : string) : string :=
  match s with
  | EmptyString => EmptyString
  | String c rest => String (lower_char c) (lower rest)
  end.

(** [found and found.lower() == vcs_hash.lower()] and
    [found and found.lower() != vcs_hash.lower()] *)
Definition same_commit (found : option string) (vcs_hash : string) : bool :=
  truthy found && String.eqb (lower (default EmptyString found)) (lower vcs_hash).
Definition other_commit (found : option string) (vcs_hash : string) : bool :=
  truthy found
  && negb (String.eqb (lower (default EmptyString found)) (lower vcs_hash)).

Section Correction.

Variable E : Env.
Variable cfg : Config.

Definition correct_commit_hash_from_ref (vcs_url vcs_hash vcs_ref : string)
  : M (option string) :=
  if PyStr.is_empty vcs_ref || negb (PyStr.startswith "refs/" vcs_ref)
  then ret None
  else
    dereferenced_hash <- git_ls_remote E cfg vcs_url (vcs_ref +:+ "^{}") ;;
    if other_commit dereferenced_hash vcs_hash
    then ret (Some (lower (default EmptyString dereferenced_hash)))
    else
      commit_hash <- git_ls_remote E cfg vcs_url vcs_ref ;;
      if other_commit commit_hash vcs_hash
      then ret (Some (lower (default EmptyString commit_hash)))
      else ret None.

Definition is_commit_bitbake_fetchable (vcs_url vcs_hash vcs_ref : string)
  : M bool :=
  if negb (PyStr.is_empty vcs_ref) && PyStr.startswith "refs/" vcs_ref
  then
    ref_commit <- git_ls_remote E cfg vcs_url (vcs_ref +:+ "^{}") ;;
    if same_commit ref_commit vcs_hash then ret true
    else
      ref_commit <- git_ls_remote E cfg vcs_url vcs_ref ;;
      if same_commit ref_commit vcs_hash then ret true
      else ret false
  else ret false.

End Correction.

(** *** Replace directives of the module file *)

(** [s.split(sep)] for a non-empty [sep]: occurrences are taken left to
    right and do not overlap; [skip] counts the characters of an occurrence
    still to pass over. *)
Fixpoint split_str_from (sep : string) (skip : nat) (cur s : string)
  : list string :=
  match s with
  | EmptyString => [cur]
  | String c rest =>
      match skip with
      | S k => split_str_from sep k cur rest
      | O =>
          if PyStr.startswith sep s
          then cur :: split_str_from sep (String.length sep - 1) EmptyString rest
          else split_str_from sep 0 (PyStr.snoc cur c) rest
      end
  end.
Definition split_str (sep s : string) : list string :=
  split_str_from sep 0 EmptyString s.

(** One round of the loop of [parse_go_mod_replaces]. *)
Definition replaces_step (replaces : gmap string (string * string))
  (line : string) : gmap string (string * string) :=
  let line := PyStr.strip line in
  if negb (PyStr.startswith "replace " line) && negb (PyStr.contains "=>" line)
  then replaces
  else
    let line := if PyStr.startswith "replace " line
                then PyStr.strip (PyStr.drop 8 line) else line in
    match split_str "=>" line with
    | [part0; part1] =>
        match PyStr.split (PyStr.strip part0), PyStr.split (PyStr.strip part1) with
        | old_path :: _, new_path :: right_rest =>
            <[old_path := (new_path, hd EmptyString right_rest)]> replaces
        | _, _ => replaces
        end
    | _ => replaces
    end.

(** [parse_go_mod_replaces]; [go_mod] is [None] when the file does not
    exist or cannot be read, and its text otherwise. *)
Definition parse_go_mod_replaces (go_mod : option string)
  : gmap string (string * string) :=
  match go_mod with
  | None => ∅
  | Some content => foldl replaces_step ∅ (PyStr.splitlines content)
  end.

(** A replace directive [old [version] => new [version]], written on a
    line of its own after the keyword [replace], or after a tab as inside
    a [replace (...)] block. *)
Record Directive := {
  keyword : bool;
  old_path : string;
  old_version : option string;
  new_path : string;
  new_version : option string;
}.

Definition optional_word (word : option string) : list string :=
  match word with Some w => [w] | None => [] end.

Definition left_words (d : Directive) : list string :=
  old_path d :: optional_word (old_version d).
Definition right_words (d : Directive) : list string :=
  new_path d :: optional_word (new_version d).

Definition directive_line (d : Directive) : string :=
  (if keyword d then "replace " else tab)
  +:+ PyStr.join " " (left_words d ++ "=>" :: right_words d).

Definition text_of_lines (lines : list string) : string :=
  foldr (fun line text => line +:+ newline +:+ text) EmptyString lines.

(** The words of a directive the parser can read back: no white space, no
    [=] in them, and a directive without keyword does not start with the
    word [replace]. *)
Definition plain_word (w : string) : bool :=
  is_token w && negb (PyStr.has_char "=" w).

Definition plain_directive (d : Directive) : bool :=
  forallb plain_word (left_words d ++ right_words d)
  && (keyword d || negb (String.eqb (old_path d) "replace")).

Definition example_directives : list Directive :=
  [ {| keyword := true;
       old_path := "github.com/containerd/containerd/v2";
       old_version := None;
       new_path := "github.com/k3s-io/containerd/v2";
       new_version := Some "v2.1.4-k3s2" |};
    {| keyword := false;
       old_path := "go.etcd.io/etcd/api/v3";
       old_version := Some "v3.5.9";
       new_path := "../etcd/api";
       new_version := None |} ].

(** *** Pinning and clearing overrides on the command line *)

(** [_parse_override_spec] *)
Definition _parse_override_spec (module_spec : string) : string * option string :=
  if PyStr.has_char "@" module_spec then
    match split_once "@" module_spec with
    | Some (module_path, version) =>
        (PyStr.strip module_path,
         if PyStr.is_empty version then None else Some (PyStr.strip version))
    | None => (PyStr.strip module_spec, None)
    end
  else (PyStr.strip module_spec, None).

(** One round of the loop over [args.set_repo] in [_execute]; the state is
    [(MODULE_REPO_OVERRIDES, MODULE_REPO_OVERRIDES_DIRTY)]. *)
Definition set_repo (module_spec repo_url : string)
  (ovs : gmap OverrideKey string * bool) : gmap OverrideKey string * bool :=
  let '(module_path, version) := _parse_override_spec module_spec in
  match _normalise_override_key module_path version with
  | Raise _ => ovs
  | Ret key => (<[key := repo_url]> ovs.1, true)
  end.

(** One round of the loop over [args.clear_repo] in [_execute]. *)
Definition clear_repo (module_spec : string)
  (ovs : gmap OverrideKey string * bool) : gmap OverrideKey string * bool :=
  let '(module_path, version) := _parse_override_spec module_spec in
  match _normalise_override_key module_path version with
  | Raise _ => ovs
  | Ret key =>
      match version with
      | Some _ =>
          match ovs.1 !! key with
          | Some _ => (delete key ovs.1, true)
          | None => ovs
          end
      | None =>
          let removed := bool_decide (is_Some (ovs.1 !! key)) in
          let overrides := delete key ovs.1 in
          let specific_keys :=
            filter (fun candidate : OverrideKey =>
                      candidate.1 = module_path /\ candidate.2 <> None)
                   (map_to_list overrides).*1 in
          let overrides :=
            foldl (fun m candidate => delete candidate m) overrides specific_keys in
          let removed := removed || negb (bool_decide (specific_keys = [])) in
          (overrides, removed || ovs.2)
      end
  end.

Definition example_pins : gmap OverrideKey string :=
  <[("github.com/spf13/cobra", Some "v1.8.0") := "https://mirror.example.com/cobra"]>
    (<[("github.com/spf13/cobra", None) := "https://github.com/spf13/cobra"]>
       (<[("golang.org/x/sys", None) := "https://github.com/golang/sys"]> ∅)).

(** *** Versions marked [+incompatible] ([discover_modules], second loop) *)

(** An [.info] file of the module cache as far as the second loop reads
    it: the URL and the hash of its [Origin] object, where it has them, and
    its [Time]. *)
Record InfoFile := {
  info_origin_url : option string;
  info_origin_hash : option string;
  info_time : string;
}.

(** [re.search(r'/v(\d+)$', module_path)]: the path ends with [/v] and
    digits; [$] also matches before a line feed that ends the path. *)
Definition ends_with_major (path : string) : bool :=
  let '(digits, rest) := PyStr.span PyStr.is_ascii_digit (PyStr.rev path) in
  negb (PyStr.is_empty digits) && PyStr.startswith "v/" rest.

Definition has_major_suffix (module_path : string) : bool :=
  ends_with_major module_path
  || (PyStr.endswith newline module_path
      && ends_with_major (PyStr.drop_end 1 module_path)).

(** [s.rfind(sub)] for a non-empty [sub], [None] standing for -1. *)
Fixpoint rfind_str (sub s : string) : option nat :=
  match s with
  | EmptyString => None
  | String c rest =>
      match rfind_str sub rest with
      | Some i => Some (S i)
      | None => if PyStr.startswith sub s then Some 0%nat else None
      end
  end.

(** [module_path[:module_path.rfind('/v')]] *)
Definition major_base_path (module_path : string) : string :=
  match rfind_str "/v" module_path with
  | Some i => PyStr.take i module_path
  | None => PyStr.drop_end 1 module_path
  end.

Section Discovery.

Variable E : Env.
Variable cfg : Config.

(** What the module cache holds for a base path: [None] when it has no
    [@v] directory for it, and otherwise the [.info] files of that
    directory in the order of [glob], each with its name without the
    extension and its content ([None] for a file that cannot be read or
    decoded; a file that holds something else than an object is not
    modelled). *)
Variable info_files : string -> option (list (string * option InfoFile)).

(** The body of the loop over the [.info] files of a base path: the record
    that is appended, if one is. *)
Definition synthesize_version (vcs_url base_path : string)
  (entry : string * option InfoFile) : M (option ModuleRecord) :=
  let '(version, content) := entry in
  if negb (PyStr.endswith "+incompatible" version) then ret None
  else
    try_except
      (match content with
       | None => raise OSError
       | Some info =>
           if truthy (info_origin_url info) && truthy (info_origin_hash info)
           then ret None
           else
             let tag_version := PyStr.replace "+incompatible" EmptyString version in
             let tag_ref := "refs/tags/" +:+ tag_version in
             tag_commit <- git_ls_remote E cfg vcs_url tag_ref ;;
             if negb (truthy tag_commit) then ret None
             else
               ret (Some {| module_path := base_path;
                            version := version;
                            vcs_url := vcs_url;
                            vcs_hash := default EmptyString tag_commit;
                            vcs_ref := tag_ref;
                            timestamp := info_time info;
                            subdir := EmptyString |})
       end)
      (fun _ => Some (ret None)).

Fixpoint synthesize_versions (vcs_url base_path : string)
  (entries : list (string * option InfoFile)) : M (list ModuleRecord) :=
  match entries with
  | [] => ret []
  | entry :: rest =>
      synthesized <- synthesize_version vcs_url base_path entry ;;
      more <- synthesize_versions vcs_url base_path rest ;;
      ret (match synthesized with
           | Some module => module :: more
           | None => more
           end)
  end.

(** One round of the loop over the records of the first loop; the state is
    the list of synthesized records and the keys of [module_vcs_map]. *)
Definition synthesize_for (acc : list ModuleRecord * gset string)
  (module : ModuleRecord) : M (list ModuleRecord * gset string) :=
  if negb (has_major_suffix (module_path module)) then ret acc
  else
    let base_path := major_base_path (module_path module) in
    if bool_decide (base_path ∈ acc.2) then ret acc
    else
      match info_files base_path with
      | None => ret acc
      | Some entries =>
          synthesized <- synthesize_versions (vcs_url module) base_path entries ;;
          ret (acc.1 ++ synthesized,
               match synthesized with
               | [] => acc.2
               | _ => {[base_path]} ∪ acc.2
               end)
      end.

Fixpoint synthesize_all (acc : list ModuleRecord * gset string)
  (modules : list ModuleRecord) : M (list ModuleRecord * gset string) :=
  match modules with
  | [] => ret acc
  | module :: rest =>
      acc' <- synthesize_for acc module ;;
      synthesize_all acc' rest
  end.

(** [discover_modules] from the point where the first loop has built
    [modules]: the records synthesized for [+incompatible] versions are
    appended to them. *)
Definition synthesize_incompatible (modules : list ModuleRecord)
  : M (list ModuleRecord) :=
  acc <- synthesize_all ([], list_to_set (module_path <$> modules)) modules ;;
  ret (modules ++ acc.1).

End Discovery.

(** The [.info] files of [discover_modules] as the first loop reads them. *)
Record OriginInfo := {
  found_module_path : string;
  found_version : string;
  origin_url : option string;
  origin_hash : option string;
  origin_ref : string;
  origin_subdir : string;
  origin_time : string;
}.

Definition discovered_of (ov : Overrides) (found : OriginInfo)
  : option ModuleRecord :=
  discovered_module ov (found_module_path found) (found_version found)
    (origin_url found) (origin_hash found) (origin_ref found)
    (origin_subdir found) (origin_time found).

(** [discover_modules] from the point where the module cache has been
    filled: the records of the first loop, then the synthesized ones. *)
Definition discover_modules (E : Env) (cfg : Config) (ov : Overrides)
  (info_files : string -> option (list (string * option InfoFile)))
  (found : list OriginInfo) : M (list ModuleRecord) :=
  synthesize_incompatible E cfg info_files (omap (discovered_of ov) found).

(** What [load_discovered_modules] does to one record between the states
    [st] and [st']: a 12-character hash of a pseudo-version is replaced by
    the hash the resolver returns, when that has 40 characters; in every
    other case the record stays as it is. *)
Definition expansion (E : Env) (cfg : Config) (module module' : ModuleRecord)
  (st st' : State) : Prop :=
  if bool_decide (String.length (vcs_hash module) = 12%nat)
  then
    match parse_pseudo_version_tag
            (List.hd EmptyString (PyStr.split_on "+" (version module))) with
    | Some (timestamp_str, _) =>
        exists found,
          resolve_pseudo_version_commit E (vcs_url module) timestamp_str
            (vcs_hash module) (Some (CLONE_CACHE_DIR cfg)) st = (Ret found, st')
          /\ match found with
             | Some full_hash =>
                 if bool_decide (String.length full_hash = 40%nat)
                 then module' = set_vcs_hash module full_hash
                 else module' = module
             | None => module' = module
             end
    | None => module' = module /\ st' = st
    end
  else module' = module /\ st' = st.

(** The records of [load_discovered_modules], one after the other. *)
Inductive expansions (E : Env) (cfg : Config)
  : list ModuleRecord -> list ModuleRecord -> State -> State -> Prop :=
| expansions_nil st : expansions E cfg [] [] st st
| expansions_cons module module' rest rest' st s1 st' :
    expansion E cfg module module' st s1 ->
    expansions E cfg rest rest' s1 st' ->
    expansions E cfg (module :: rest) (module' :: rest') st st'.

(** A record synthesized for a [+incompatible] version of the base path
    of [module]: it carries the hash that [git_ls_remote] stored for the
    tag of the version in the repository of [module]. *)
Definition synthesized_from (module r : ModuleRecord) (st' : State) : Prop :=
  has_major_suffix (module_path module) = true
  /\ module_path r = major_base_path (module_path module)
  /\ vcs_url r = vcs_url module
  /\ PyStr.endswith "+incompatible" (version r) = true
  /\ vcs_ref r
     = "refs/tags/" +:+ PyStr.replace "+incompatible" EmptyString (version r)
  /\ subdir r = EmptyString
  /\ vcs_hash r <> EmptyString
  /\ LS_REMOTE_CACHE st' !! (vcs_url r, vcs_ref r) = Some (Some (vcs_hash r)).

(** Entries of the lookup cache stay. *)
Definition keeps_lookups (st st' : State) : Prop :=
  forall key value,
    LS_REMOTE_CACHE st !! key = Some value ->
    LS_REMOTE_CACHE st' !! key = Some value.

(** *** A repository with hashes of 64 characters *)

Definition long_hash : string :=
  "9f86d081884c7d659a2feaa0c55ad015a3bf4f1b2b0b822cd15d6c15b0f00a08".

(** The remote prints the tag [v2.16.0] with a hash of 64 characters (the
    object format [sha256]). *)
Definition env_long_hashes : Env := {|
  env_run := fun _ c =>
    if bool_decide (take 2 (argv c) = ["git"; "ls-remote"])
    then Exited 0 (long_hash +:+ " refs/tags/v2.16.0" +:+ newline) ""
    else Exited 1 "" "";
  env_exists := fun _ _ => false;
  env_fs_ok := fun _ _ => true;
  env_mkdtemp := fun _ prefix => String.append "/tmp/" prefix;
  env_now := fun _ => 0%Z;
  sha256_hexdigest := fun s => s;
  fromisoformat := fun _ => None;
  utc_isoformat := fun _ => "1970-01-01T00:00:00+00:00";
|}.

(** The module cache holds [go-restful/v3] with its VCS data, and
    [go-restful] at [v2.16.0+incompatible] without. *)
Definition restful_v3 : OriginInfo := {|
  found_module_path := "github.com/emicklei/go-restful/v3";
  found_version := "v3.11.0";
  origin_url := Some "https://github.com/emicklei/go-restful";
  origin_hash := Some commit_a;
  origin_ref := "refs/tags/v3.11.0";
  origin_subdir := "";
  origin_time := "2023-08-19T11:07:24Z";
|}.

Definition restful_info_files (base_path : string)
  : option (list (string * option InfoFile)) :=
  if String.eqb base_path "github.com/emicklei/go-restful"
  then Some [("v2.16.0+incompatible",
              Some {| info_origin_url := None; info_origin_hash := None;
                      info_time := "2021-12-08T07:23:24Z" |})]
  else None.

Definition restful_v2_synthesized : ModuleRecord := {|
  module_path := "github.com/emicklei/go-restful";
  version := "v2.16.0+incompatible";
  vcs_url := "https://github.com/emicklei/go-restful";
  vcs_hash := long_hash;
  vcs_ref := "refs/tags/v2.16.0";
  timestamp := "2021-12-08T07:23:24Z";
  subdir := "";
|}.

(** A checksum file: a module with a source entry and a [/go.mod] entry,
    and a module with a [/go.mod] entry only. *)
Definition example_go_sum : list string :=
  [ "github.com/spf13/cobra v1.8.0 h1:7aJaZx1B85qltLMc546zn58BxxfZdR/W22ej9CFoEf0="
      +:+ newline;
    "github.com/spf13/cobra v1.8.0/go.mod h1:WXLWApfZ71AjXPya3WOlMsY9yMs7YeiHhFVlvLyhcho="
      +:+ newline;
    "golang.org/x/sys v0.15.0/go.mod h1:/VUhepiaJMQUp4+oa/7Zr1D23ma6VTLIYjOOTFZPUcA="
      +:+ newline ].

(** * Properties *)

(** ** Escaping and unescaping of module paths *)

Section Escaping.

Lemma upper_lower_is_lower c :
    PyStr.is_ascii_upper c = true ->
    PyStr.is_ascii_lower (PyStr.ascii_lower c) = true.
Proof.
    destruct c as [[] [] [] [] [] [] [] []]; vm_compute; congruence.
Qed.

Lemma upper_lower_upper c :
    PyStr.is_ascii_upper c = true ->
    PyStr.ascii_upper (PyStr.ascii_lower c) = c.
Proof.
    destruct c as [[] [] [] [] [] [] [] []]; vm_compute; congruence.
Qed.

Lemma unescape_plain c s :
    PyStr.eqb_char c bang = false ->
    unescape_module_path (String c s) = String c (unescape_module_path s).
Proof.
    intros Hc. destruct s as [|d s']; [reflexivity|].
    cbn [unescape_module_path]. rewrite Hc. reflexivity.
Qed.

Lemma unescape_pair d s :
    PyStr.is_ascii_lower d = true ->
    unescape_module_path (String bang (String d s))
    = String (PyStr.ascii_upper d) (unescape_module_path s).
Proof.
    intros Hd. cbn [unescape_module_path]. rewrite Hd. reflexivity.
Qed.

End Escaping.

(** C10. For a module path with no ['!'] in it, unescaping the escaped
    path gives the path back: every upper-case ASCII letter [X] becomes
    [!x] and every [!x] becomes [X] again. *)
Theorem escape_unescape_roundtrip (p : string) :
  PyStr.has_char bang p = false ->
  unescape_module_path (escape_module_path p) = p.
Proof.
  induction p as [|c p IH]; intros Hp; [reflexivity|].
  cbn [PyStr.has_char] in Hp. apply orb_false_iff in Hp as [Hc Hrest].
  cbn [escape_module_path].
  destruct (PyStr.is_ascii_upper c) eqn:Hup.
  - rewrite unescape_pair by (apply upper_lower_is_lower; exact Hup).
    rewrite upper_lower_upper by exact Hup. rewrite IH by exact Hrest.
    reflexivity.
  - rewrite unescape_plain by exact Hc. rewrite IH by exact Hrest.
    reflexivity.
Qed.

Lemma escape_unescape_roundtrip_witness :
  PyStr.has_char bang "github.com/Sirupsen/logrus" = false
  /\ unescape_module_path (escape_module_path "github.com/Sirupsen/logrus")
     = "github.com/Sirupsen/logrus".
Proof.
  split; [reflexivity|].
  apply (escape_unescape_roundtrip "github.com/Sirupsen/logrus").
  reflexivity.
Defined.

(** ** The remote ref resolver *)

Section LsRemote.

Variable E : Env.
Variable cfg : Config.

Lemma split_ws_from_nonempty cur s w :
  (forall c, cur = Some c -> c <> EmptyString) ->
  w ∈ PyStr.split_ws_from cur s -> w <> EmptyString.
Proof.
  revert cur. induction s as [|c s IH]; intros cur Hcur Hin; cbn in Hin.
  - destruct cur as [c0|]; [|by apply elem_of_nil in Hin].
    apply list_elem_of_singleton in Hin. subst. by apply Hcur.
  - destruct (PyStr.isspace c).
    + destruct cur as [c0|].
      * apply elem_of_cons in Hin as [->|Hin]; [by apply Hcur|].
        apply (IH None); [intros ? [=] | done].
      * apply (IH None); [intros ? [=] | done].
    + eapply IH; [|exact Hin]. intros c0 [= <-].
      unfold PyStr.snoc. destruct (default EmptyString cur); discriminate.
Qed.

Lemma split_nonempty s w : w ∈ PyStr.split s -> w <> EmptyString.
Proof. apply split_ws_from_nonempty. intros ? [=]. Qed.

Lemma ls_remote_line_spec acc line :
  ls_remote_line acc line =
    match ls_remote_entry line with
    | Some e => if is_peeled e then (acc.1, Some e.1) else (Some e.1, acc.2)
    | None => acc
    end.
Proof.
  unfold ls_remote_line, ls_remote_entry, is_peeled.
  destruct line as [|c line]; [by destruct acc|].
  cbn [PyStr.is_empty].
  destruct (PyStr.split (String c line)) as [|h [|r rest]]; try done.
Qed.

Lemma parse_lines_spec lines :
  foldl ls_remote_line (None, None) lines
  = (last (tag_object_hashes lines), last (peeled_hashes lines)).
Proof.
  induction lines as [|line lines IH] using rev_ind; [done|].
  rewrite foldl_snoc, IH, ls_remote_line_spec.
  unfold tag_object_hashes, peeled_hashes.
  rewrite omap_app, !filter_app, !fmap_app. cbn [omap list_omap].
  destruct (ls_remote_entry line) as [e|]; cbn [fst snd].
  - rewrite !filter_cons, !filter_nil.
    destruct (is_peeled e) eqn:He; repeat case_decide; try congruence;
      cbn [fmap list_fmap]; by rewrite last_snoc, app_nil_r.
  - by rewrite !filter_nil, !app_nil_r.
Qed.

Lemma peeled_hashes_nonempty lines h :
  h ∈ peeled_hashes lines -> h <> EmptyString.
Proof.
  unfold peeled_hashes. intros Hin.
  apply list_elem_of_fmap in Hin as ([h' r] & -> & Hin).
  apply list_elem_of_filter in Hin as [_ Hin].
  apply list_elem_of_omap in Hin as (line & _ & Hline).
  unfold ls_remote_entry in Hline.
  destruct (PyStr.split line) as [|h0 [|r0 rest]] eqn:Hs; try done.
  injection Hline as <- <-. cbn. apply (split_nonempty line).
  rewrite Hs. apply elem_of_cons. by left.
Qed.


Lemma git_ls_remote_cached url ref cached st :
  LS_REMOTE_CACHE st !! (url, ref) = Some cached ->
  git_ls_remote E cfg url ref st = (Ret cached, st).
Proof.
  intros Hc. cbv beta iota delta [git_ls_remote bind get_state]. by rewrite Hc.
Qed.

Lemma git_ls_remote_uncached url ref st st1 :
  LS_REMOTE_CACHE st !! (url, ref) = None ->
  git_ls_remote_local E cfg url ref st = (Ret None, st1) ->
  git_ls_remote E cfg url ref st = git_ls_remote_network E url ref st1.
Proof.
  intros Hc Hl. cbv beta iota delta [git_ls_remote bind get_state].
  rewrite Hc. cbv beta iota delta [bind]. by rewrite Hl.
Qed.

Lemma network_timeout url ref st1 :
  env_run E (events st1) (ls_remote_cmd url ref) = TimedOut ->
  git_ls_remote_network E url ref st1
  = (Ret None,
     with_ls_remote_cache (insert (url, ref) None) true
       (with_event (EvRun (ls_remote_cmd url ref)) st1)).
Proof.
  intros Ht.
  cbv beta iota delta [git_ls_remote_network try_except bind subprocess_run].
  by rewrite Ht.
Qed.

Lemma network_events url ref st1 :
  events (git_ls_remote_network E url ref st1).2
  = EvRun (ls_remote_cmd url ref) :: events st1.
Proof.
  cbv beta iota delta [git_ls_remote_network try_except bind subprocess_run].
  destruct (env_run E (events st1) (ls_remote_cmd url ref)) as [rc out err| |];
    [|done|done].
  destruct (true && negb (rc =? 0)%Z); [done|].
  cbn [stdout]. destruct (parse_ls_remote out) as [t d].
  by destruct (truthy (py_or d t)).
Qed.

Lemma network_peeled url ref st1 out err h :
  env_run E (events st1) (ls_remote_cmd url ref) = Exited 0 out err ->
  last (peeled_hashes (PyStr.splitlines (PyStr.strip out))) = Some h ->
  (git_ls_remote_network E url ref st1).1 = Ret (Some h).
Proof.
  intros Hrun Hlast.
  cbv beta iota delta [git_ls_remote_network try_except bind subprocess_run].
  rewrite Hrun. cbn [andb negb Z.eqb stdout].
  unfold parse_ls_remote. rewrite parse_lines_spec, Hlast.
  assert (Hne : h <> EmptyString).
  { apply (peeled_hashes_nonempty (PyStr.splitlines (PyStr.strip out))).
    apply last_Some_elem_of. exact Hlast. }
  unfold py_or. cbn [truthy].
  destruct h as [|c h]; [done|]. reflexivity.
Qed.

End LsRemote.

(** C8. When the network [ls-remote] of an uncached (url, ref) runs into the
    90-second timeout, [git_ls_remote] stores null for the pair, marks the
    cache dirty and returns null without raising; and in every later state
    that still holds the stored null, a lookup of the pair returns null
    and does nothing else (the state, and so the event history, is
    unchanged), whatever the environment. *)
Theorem git_ls_remote_timeout_is_cached
  (E : Env) (cfg : Config) (url ref : string) (st st1 : State) :
  LS_REMOTE_CACHE st !! (url, ref) = None ->
  git_ls_remote_local E cfg url ref st = (Ret None, st1) ->
  env_run E (events st1) (ls_remote_cmd url ref) = TimedOut ->
  timeout (ls_remote_cmd url ref) = Some 90%Z
  /\ exists st',
      git_ls_remote E cfg url ref st = (Ret None, st')
      /\ LS_REMOTE_CACHE st' !! (url, ref) = Some None
      /\ LS_REMOTE_CACHE_DIRTY st' = true
      /\ forall E' cfg' st'',
           LS_REMOTE_CACHE st'' !! (url, ref) = Some None ->
           git_ls_remote E' cfg' url ref st'' = (Ret None, st'').
Proof.
  intros Hc Hl Ht. split; [reflexivity|].
  eexists. rewrite (git_ls_remote_uncached E cfg url ref st st1 Hc Hl).
  rewrite (network_timeout E url ref st1 Ht).
  split; [reflexivity|]. split; [|split].
  - cbn. apply lookup_insert_eq.
  - reflexivity.
  - intros E' cfg' st'' Hstored. by apply git_ls_remote_cached.
Qed.

Lemma git_ls_remote_timeout_is_cached_witness :
  exists st',
    git_ls_remote env_all_timeouts cfg_default
      "https://github.com/spf13/cobra" "refs/tags/v1.8.0" initial_state
    = (Ret None, st')
    /\ LS_REMOTE_CACHE st' !! ("https://github.com/spf13/cobra", "refs/tags/v1.8.0")
       = Some None.
Proof.
  destruct (git_ls_remote_timeout_is_cached env_all_timeouts cfg_default
              "https://github.com/spf13/cobra" "refs/tags/v1.8.0"
              initial_state initial_state)
    as (_ & st' & Hrun & Hcache & _).
  - reflexivity.
  - reflexivity.
  - reflexivity.
  - exists st'. split; [exact Hrun | exact Hcache].
Defined.

(** C5. For a ref that begins with [refs/tags/], the network lookup of
    [git_ls_remote] is one [ls-remote] command that names both the ref and
    its peeled form [ref^{}], and when the output has peeled lines the hash
    returned is the peeled one (of the last such line), also when lines
    with a tag-object hash are present. *)
Theorem git_ls_remote_prefers_peeled
  (E : Env) (cfg : Config) (url ref : string) (st st1 : State) :
  PyStr.startswith "refs/tags/" ref = true ->
  LS_REMOTE_CACHE st !! (url, ref) = None ->
  git_ls_remote_local E cfg url ref st = (Ret None, st1) ->
  argv (ls_remote_cmd url ref)
    = ["git"; "ls-remote"; url; ref; String.append ref "^{}"]
  /\ events (git_ls_remote E cfg url ref st).2
     = EvRun (ls_remote_cmd url ref) :: events st1
  /\ forall out err peeled,
       env_run E (events st1) (ls_remote_cmd url ref) = Exited 0 out err ->
       last (peeled_hashes (PyStr.splitlines (PyStr.strip out))) = Some peeled ->
       (git_ls_remote E cfg url ref st).1 = Ret (Some peeled).
Proof.
  intros Htag Hc Hl.
  rewrite (git_ls_remote_uncached E cfg url ref st st1 Hc Hl).
  split; [|split].
  - unfold ls_remote_cmd, refs_to_query. by rewrite Htag.
  - apply network_events.
  - intros out err peeled Hrun Hlast. by apply (network_peeled E url ref st1 out err).
Qed.

Lemma git_ls_remote_prefers_peeled_witness :
  (git_ls_remote env_annotated_tag cfg_default
     "https://github.com/spf13/cobra" "refs/tags/v1.8.0" initial_state).1
  = Ret (Some "2222222222222222222222222222222222222222").
Proof.
  destruct (git_ls_remote_prefers_peeled env_annotated_tag cfg_default
              "https://github.com/spf13/cobra" "refs/tags/v1.8.0"
              initial_state initial_state)
    as (_ & _ & Hpeeled).
  - reflexivity.
  - reflexivity.
  - reflexivity.
  - apply (Hpeeled annotated_tag_output ""); vm_compute; reflexivity.
Defined.

(** ** The pseudo-version resolver *)

Section Pseudo.

Variable E : Env.

Lemma search_window_unusable timestamp_str :
  timestamp_unusable timestamp_str -> search_window timestamp_str = None.
Proof.
  intros Hbad. unfold search_window.
  destruct (PyDate.strptime timestamp_str) as [dt|e] eqn:Hp; [|done].
  specialize (Hbad dt Hp).
  destruct (dt_year dt <? 1970)%Z eqn:Hlo; [done|].
  destruct (9999 <? dt_year dt)%Z eqn:Hhi; [done|].
  cbn [orb]. destruct (dt_year dt =? 1)%Z; [done|].
  destruct Hbad as [H|[H|[H|H]]]; [lia|lia| |].
  - by rewrite H.
  - rewrite H. by destruct (PyDate.add_days dt (-1)).
Qed.

Lemma p_then_elem {A B} (p : PyDate.Parse A) (k : A -> PyDate.Parse B) s x :
  x ∈ PyDate.p_then p k s -> exists a r, (a, r) ∈ p s /\ x ∈ k a r.
Proof.
  unfold PyDate.p_then. rewrite list_elem_of_In, in_flat_map.
  intros ([a r] & Hin & Hx). exists a, r.
  by rewrite !list_elem_of_In.
Qed.

Lemma p_Y_deterministic s x y :
  x ∈ PyDate.p_Y s -> y ∈ PyDate.p_Y s -> x = y.
Proof.
  unfold PyDate.p_Y, PyDate.p_then, PyDate.p_ret, PyDate.p_digit.
  destruct s as [|c1 [|c2 [|c3 [|c4 s]]]]; cbn;
    repeat (match goal with
            | |- context [PyDate.digit_value ?c] => destruct (PyDate.digit_value c)
            | |- context [if ?b then _ else _] => destruct b
            end; cbn);
    rewrite ?list_elem_of_singleton; try (intros H; by apply elem_of_nil in H);
    congruence.
Qed.

Lemma strptime_year timestamp_str dt :
  PyDate.strptime timestamp_str = Ret dt ->
  leading_year timestamp_str = Some (dt_year dt).
Proof.
  unfold PyDate.strptime, leading_year.
  destruct (PyDate.p_timestamp timestamp_str) as [|[dt0 rest] tl] eqn:Hp; [done|].
  intros Hdt.
  assert (dt0 = dt) as ->.
  { destruct (negb (PyStr.is_empty rest)); [done|].
    destruct (PyDate.valid_datetime dt0); congruence. }
  assert (Hin : (dt, rest) ∈ PyDate.p_timestamp timestamp_str)
    by (rewrite Hp; apply elem_of_cons; by left).
  unfold PyDate.p_timestamp in Hin.
  apply p_then_elem in Hin as (y & r0 & Hy & Hin).
  apply p_then_elem in Hin as (mo & r1 & _ & Hin).
  apply p_then_elem in Hin as (d & r2 & _ & Hin).
  apply p_then_elem in Hin as (h & r3 & _ & Hin).
  apply p_then_elem in Hin as (mi & r4 & _ & Hin).
  apply p_then_elem in Hin as (se & r5 & _ & Hin).
  apply list_elem_of_singleton in Hin. injection Hin as -> ->. cbn.
  destruct (PyDate.p_Y timestamp_str) as [|[y0 r0'] tl0] eqn:HY;
    [by apply elem_of_nil in Hy|].
  f_equal.
  assert (H0 : (y0, r0') ∈ PyDate.p_Y timestamp_str)
    by (rewrite HY; apply elem_of_cons; by left).
  rewrite <- HY in Hy.
  by injection (p_Y_deterministic _ _ _ H0 Hy).
Qed.


Lemma early_year_unusable timestamp_str year :
  leading_year timestamp_str = Some year -> (year < 1970)%Z ->
  timestamp_unusable timestamp_str.
Proof.
  intros Hy Hlt dt Hdt. apply strptime_year in Hdt.
  rewrite Hy in Hdt. injection Hdt as <-. by left.
Qed.

Lemma bind_ret_inv {A B} (m : M A) (k : A -> M B) st b st' :
  bind m k st = (Ret b, st') ->
  exists a st1, m st = (Ret a, st1) /\ k a st1 = (Ret b, st').
Proof.
  unfold bind. destruct (m st) as [[a|e] st1]; [eauto|done].
Qed.

Lemma try_except_ret_inv {A} (m : M A) (handler : exn -> option (M A)) st a st' :
  try_except m handler st = (Ret a, st') ->
  m st = (Ret a, st')
  \/ exists e st1 h, m st = (Raise e, st1) /\ handler e = Some h
                     /\ h st1 = (Ret a, st').
Proof.
  unfold try_except. destruct (m st) as [[a0|e] st1]; [by left|].
  destruct (handler e) as [h|] eqn:Hh; [|done].
  intros Hr. right. by exists e, st1, h.
Qed.

Lemma subprocess_run_checked_inv c st result st' :
  subprocess_run E true c st = (Ret result, st') ->
  env_run E (events st) c = Exited 0 (stdout result) (stderr result).
Proof.
  unfold subprocess_run.
  destruct (env_run E (events st) c) as [rc out err| |]; [|done|done].
  destruct (rc =? 0)%Z eqn:Hrc; cbn [andb negb]; [|done].
  intros [= <- _]. cbn. apply Z.eqb_eq in Hrc. by subst.
Qed.

Lemma find_commit_cons short_commit line rest :
  find_commit short_commit (line :: rest)
  = match log_line_hash line with
    | Some full_hash =>
        if PyStr.startswith short_commit full_hash then Some full_hash
        else find_commit short_commit rest
    | None => find_commit short_commit rest
    end.
Proof.
  cbn [find_commit]. unfold log_line_hash.
  destruct line as [|c line]; [done|]. cbn [PyStr.is_empty].
  by destruct (PyStr.split (String c line)) as [|h [|x tl]].
Qed.

Lemma find_commit_first short_commit lines h :
  find_commit short_commit lines = Some h
  <-> first_matching_hash short_commit lines h.
Proof.
  unfold first_matching_hash. induction lines as [|line lines IH].
  - split; [done|]. intros (before & l & after & Heq & _).
    by destruct before.
  - rewrite find_commit_cons. split.
    + destruct (log_line_hash line) as [h0|] eqn:Hl.
      * destruct (PyStr.startswith short_commit h0) eqn:Hs.
        -- intros [= <-]. exists [], line, lines. repeat split; try done.
           intros l h' Hin. by apply elem_of_nil in Hin.
        -- intros Hf. apply IH in Hf as (before & l & after & -> & Hh & Hst & Hno).
           exists (line :: before), l, after. repeat split; try done.
           intros l0 h' Hin Hl0. apply elem_of_cons in Hin as [->|Hin]; [congruence|eauto].
      * intros Hf. apply IH in Hf as (before & l & after & -> & Hh & Hst & Hno).
        exists (line :: before), l, after. repeat split; try done.
        intros l0 h' Hin Hl0. apply elem_of_cons in Hin as [->|Hin]; [congruence|eauto].
    + intros (before & l & after & Heq & Hh & Hst & Hno).
      destruct before as [|b before]; cbn in Heq; injection Heq as -> ->.
      * by rewrite Hh, Hst.
      * assert (Hrest : find_commit short_commit (before ++ l :: after) = Some h).
        { apply IH. exists before, l, after. repeat split; try done.
          intros l0 h' Hin. apply Hno. apply elem_of_cons. by right. }
        destruct (log_line_hash b) as [h0|] eqn:Hb; [|done].
        rewrite (Hno b h0); [done| apply elem_of_cons; by left | done].
Qed.

(** Events only accumulate: every step of the resolver extends the
    history it started from. *)
Lemma grows_run {A} (m : M A) st r st' :
  grows m -> m st = (r, st') -> events st `suffix_of` events st'.
Proof. intros Hm Hrun. specialize (Hm st). by rewrite Hrun in Hm. Qed.

Lemma grows_ret {A} (a : A) : grows (ret a).
Proof. by intros st. Qed.

Lemma grows_bind {A B} (m : M A) (k : A -> M B) :
  grows m -> (forall a, grows (k a)) -> grows (bind m k).
Proof.
  intros Hm Hk st. unfold bind. specialize (Hm st).
  destruct (m st) as [[a|e] s1]; [|done].
  etrans; [exact Hm | apply Hk].
Qed.

Lemma grows_try_except {A} (m : M A) handler :
  grows m -> (forall e h, handler e = Some h -> grows h) ->
  grows (try_except m handler).
Proof.
  intros Hm Hh st. unfold try_except. specialize (Hm st).
  destruct (m st) as [[a|e] s1]; [done|].
  destruct (handler e) as [h|] eqn:He; [|done].
  etrans; [exact Hm | by apply (Hh e h)].
Qed.

Lemma grows_try_finally {A} (m : M A) cleanup :
  grows m -> grows cleanup -> grows (try_finally m cleanup).
Proof.
  intros Hm Hc st. unfold try_finally. specialize (Hm st).
  destruct (m st) as [r s1]. specialize (Hc s1).
  destruct (cleanup s1) as [u s2]. by etrans.
Qed.

Lemma grows_subprocess_run check c : grows (subprocess_run E check c).
Proof.
  intros st. unfold subprocess_run.
  destruct (env_run E (events st) c) as [rc out err| |];
    [destruct (check && negb (rc =? 0)%Z)| |]; by apply suffix_cons_r.
Qed.

Lemma grows_path_exists path : grows (path_exists E path).
Proof. by intros st. Qed.

Lemma grows_fs_op ev : grows (fs_op E ev).
Proof.
  intros st. unfold fs_op.
  destruct (env_fs_ok E (events st) ev); by apply suffix_cons_r.
Qed.

Lemma grows_mkdtemp prefix : grows (mkdtemp E prefix).
Proof.
  intros st. unfold mkdtemp.
  destruct (env_fs_ok E (events st) (EvMkdtemp prefix)); by apply suffix_cons_r.
Qed.


Ltac handler_cases :=
  match goal with
  | H : (if ?b then _ else _) = Some _ |- _ =>
      destruct b eqn:?; [injection H as <- | discriminate H]
  | H : Some _ = Some _ |- _ => injection H as <-
  | H : None = Some _ |- _ => discriminate H
  end.

Ltac solve_grows :=
  repeat first
    [ apply grows_ret | apply grows_subprocess_run | apply grows_path_exists
    | apply grows_fs_op | apply grows_mkdtemp
    | apply grows_bind; [|intros ?]
    | apply grows_try_finally
    | apply grows_try_except; [|intros ? ? ?; handler_cases]
    | match goal with |- grows (if ?b then _ else _) => destruct b end
    | match goal with |- grows (match ?x with _ => _ end) => destruct x end ].

Lemma grows_remove_temp_clone clone_cache_dir clone_dir :
  grows (remove_temp_clone E clone_cache_dir clone_dir).
Proof. unfold remove_temp_clone. solve_grows. Qed.

Lemma grows_clone_dir_for clone_cache_dir try_url :
  grows (clone_dir_for E clone_cache_dir try_url).
Proof. unfold clone_dir_for. solve_grows. Qed.

Lemma grows_clone_and_search try_url clone_dir since until short_commit :
  grows (clone_and_search E try_url clone_dir since until short_commit).
Proof. unfold clone_and_search. solve_grows. Qed.

Lemma grows_try_url_round clone_cache_dir since until short_commit try_url :
  grows (try_url_round E clone_cache_dir since until short_commit try_url).
Proof.
  unfold try_url_round. solve_grows; try apply grows_clone_dir_for;
    try apply grows_clone_and_search; try apply grows_remove_temp_clone.
Qed.

Lemma grows_try_urls clone_cache_dir since until short_commit urls :
  grows (try_urls E clone_cache_dir since until short_commit urls).
Proof.
  induction urls as [|u urls IH]; cbn [try_urls]; [apply grows_ret|].
  apply grows_bind; [apply grows_try_url_round|].
  intros [h|]; [apply grows_ret | exact IH].
Qed.


Lemma bind_raise_inv {A B} (m : M A) (k : A -> M B) st e st' :
  bind m k st = (Raise e, st') ->
  m st = (Raise e, st')
  \/ exists a s1, m st = (Ret a, s1) /\ k a s1 = (Raise e, st').
Proof.
  unfold bind. destruct (m st) as [[a|e0] s1].
  - intros Hk. right. by exists a, s1.
  - intros [= <- <-]. by left.
Qed.

Lemma try_except_raise_inv {A} (m : M A) handler st e st' :
  try_except m handler st = (Raise e, st') ->
  (m st = (Raise e, st') /\ handler e = None)
  \/ exists e0 s1 h, m st = (Raise e0, s1) /\ handler e0 = Some h
                     /\ h s1 = (Raise e, st').
Proof.
  unfold try_except. destruct (m st) as [[a|e0] s1]; [done|].
  destruct (handler e0) as [h|] eqn:Hh.
  - intros Hr. right. by exists e0, s1, h.
  - intros [= <- <-]. by left.
Qed.

Lemma try_finally_inv {A} (m : M A) (cleanup : M unit) st r st' :
  try_finally m cleanup st = (r, st') ->
  exists s1 u, m st = (r, s1) /\ cleanup s1 = (u, st').
Proof.
  unfold try_finally. destruct (m st) as [r0 s1].
  destruct (cleanup s1) as [u s2] eqn:Hc. intros [= <- <-]. exists s1, u. by rewrite Hc.
Qed.

Lemma subprocess_run_events check c st r st' :
  subprocess_run E check c st = (r, st') -> events st' = EvRun c :: events st.
Proof.
  unfold subprocess_run.
  destruct (env_run E (events st) c) as [rc out err| |];
    [destruct (check && negb (rc =? 0)%Z)| |]; by intros [= _ <-].
Qed.

Lemma subprocess_run_failure c st e st' :
  subprocess_run E true c st = (Raise e, st') ->
  is_process_failure e = true ->
  process_failed (env_run E (events st) c).
Proof.
  unfold subprocess_run.
  destruct (env_run E (events st) c) as [rc out err| |].
  - destruct (rc =? 0)%Z eqn:Hrc; cbn [andb negb]; [done|].
    intros _ _. cbn. by apply Z.eqb_neq.
  - done.
  - by intros [= <- _].
Qed.

Lemma fs_op_raise ev st e st' :
  fs_op E ev st = (Raise e, st') -> is_process_failure e = false.
Proof.
  unfold fs_op. destruct (env_fs_ok E (events st) ev); [done|]. by intros [= <- _].
Qed.

Lemma find_commit_none short_commit lines :
  find_commit short_commit lines = None <-> no_matching_hash short_commit lines.
Proof.
  unfold no_matching_hash. induction lines as [|line lines IH].
  - split; [|done]. intros _ l h Hin. by apply elem_of_nil in Hin.
  - rewrite find_commit_cons. split.
    + intros Hf l h Hin Hl. apply elem_of_cons in Hin as [->|Hin].
      * rewrite Hl in Hf. by destruct (PyStr.startswith short_commit h).
      * destruct (log_line_hash line) as [h0|];
          [destruct (PyStr.startswith short_commit h0); [done|]|];
          by apply (proj1 IH Hf l h).
    + intros Hno.
      assert (Hrest : find_commit short_commit lines = None).
      { apply IH. intros l h Hin. apply Hno. apply elem_of_cons. by right. }
      destruct (log_line_hash line) as [h0|] eqn:Hl; [|done].
      rewrite (Hno line h0); [done | apply elem_of_cons; by left | done].
Qed.

End Pseudo.

(** C7. A timestamp whose parsed year is outside 1970..9999 (year 0001
    included), or for which moving one day back or forth leaves the
    supported dates, makes [resolve_pseudo_version_commit] return null:
    no exception is raised and nothing is run. *)
Theorem resolve_pseudo_version_rejects_timestamp
  (E : Env) (vcs_url timestamp_str short_commit : string)
  (clone_cache_dir : option string) (st : State) :
  timestamp_unusable timestamp_str ->
  resolve_pseudo_version_commit E vcs_url timestamp_str short_commit
    clone_cache_dir st = (Ret None, st).
Proof.
  intros Hbad. unfold resolve_pseudo_version_commit.
  by rewrite (search_window_unusable _ Hbad).
Qed.

Lemma year_one_unusable : timestamp_unusable "00010101000000".
Proof.
  intros dt Hdt. vm_compute in Hdt. injection Hdt as <-. left. reflexivity.
Qed.

Lemma last_day_unusable : timestamp_unusable "99991231235959".
Proof.
  intros dt Hdt. vm_compute in Hdt. injection Hdt as <-.
  right. right. right. reflexivity.
Qed.

Lemma resolve_pseudo_version_rejects_timestamp_witness :
  resolve_pseudo_version_commit env_all_timeouts
    "https://github.com/golang/tools" "00010101000000" "42c35b437635"
    (Some "/scripts/.cache/repos") initial_state = (Ret None, initial_state)
  /\ resolve_pseudo_version_commit env_all_timeouts
    "https://github.com/golang/tools" "99991231235959" "42c35b437635"
    (Some "/scripts/.cache/repos") initial_state = (Ret None, initial_state).
Proof.
  split.
  - apply (resolve_pseudo_version_rejects_timestamp env_all_timeouts
             "https://github.com/golang/tools" "00010101000000").
    exact year_one_unusable.
  - apply (resolve_pseudo_version_rejects_timestamp env_all_timeouts
             "https://github.com/golang/tools" "99991231235959").
    exact last_day_unusable.
Defined.

(** ** The commit verifier *)

Section Verifier.

Variable E : Env.
Variable cfg : Config.

(** The moved-tag block: when the tag can be fetched again and
    [FETCH_HEAD] is another commit, the correction is stored and the
    [return] statement raises. *)
Lemma check_tag_moved_raises vcs_url commit ref_hint repo_dir st out err out' err' :
  PyStr.startswith "refs/tags/" ref_hint = true ->
  env_run E (events st) (fetch_ref_cmd repo_dir ref_hint) = Exited 0 out err ->
  env_run E (EvRun (fetch_ref_cmd repo_dir ref_hint) :: events st)
    (repo_cmd ["git"; "rev-parse"; "FETCH_HEAD"] repo_dir (Some 30%Z))
    = Exited 0 out' err' ->
  PyStr.strip out' <> commit ->
  exists st',
    check_tag_moved E vcs_url commit ref_hint repo_dir st
      = (Raise (NameError "module_path"), st')
    /\ VERIFY_FALLBACK_COMMITS st' !! (vcs_url, commit) = Some (PyStr.strip out').
Proof.
  intros Htag Hfetch Hrev Hne.
  unfold check_tag_moved.
  assert (Hnonempty : PyStr.is_empty ref_hint = false)
    by (destruct ref_hint; [discriminate Htag | reflexivity]).
  rewrite Hnonempty, Htag. cbn [negb andb].
  cbv beta iota delta [try_except bind subprocess_run].
  rewrite Hfetch. cbn [andb negb Z.eqb with_event events].
  rewrite Hrev. cbn [andb negb Z.eqb stdout].
  assert (Heq : (PyStr.strip out' =? commit)%string = false)
    by (by apply String.eqb_neq).
  rewrite Heq. cbn [negb].
  cbv beta iota delta [modify_state raise only_called_process_error].
  eexists. split; [reflexivity|]. cbn. apply lookup_insert_eq.
Qed.

(** The same for the whole "tagged version" block, under the premises of
    the moved-tag case: the fetch of the commit fails, the fetch of the
    tag succeeds, and [FETCH_HEAD] is another commit. *)
Lemma fetch_tagged_commit_raises
  vcs_url commit ref_hint repo_dir key cache_key st rc out err out1 err1 out2 err2 :
  PyStr.startswith "refs/tags/" ref_hint = true ->
  env_run E (events st) (fetch_ref_cmd repo_dir commit) = Exited rc out err ->
  rc <> 0%Z ->
  env_run E (EvRun (fetch_ref_cmd repo_dir commit) :: events st)
    (fetch_ref_cmd repo_dir ref_hint) = Exited 0 out1 err1 ->
  env_run E (EvRun (fetch_ref_cmd repo_dir ref_hint)
               :: EvRun (fetch_ref_cmd repo_dir commit) :: events st)
    (repo_cmd ["git"; "rev-parse"; "FETCH_HEAD"] repo_dir (Some 30%Z))
    = Exited 0 out2 err2 ->
  PyStr.strip out2 <> commit ->
  exists st',
    fetch_tagged_commit E vcs_url commit ref_hint repo_dir key cache_key st
      = (Raise (NameError "module_path"), st')
    /\ VERIFY_FALLBACK_COMMITS st' !! (vcs_url, commit) = Some (PyStr.strip out2).
Proof.
  intros Htag Hfetch Hrc Hretry Hrev Hne.
  destruct (check_tag_moved_raises vcs_url commit ref_hint repo_dir
              (with_event (EvRun (fetch_ref_cmd repo_dir commit)) st)
              out1 err1 out2 err2 Htag Hretry Hrev Hne) as (st' & Hmoved & Hstored).
  exists st'. split; [|exact Hstored].
  unfold fetch_tagged_commit.
  cbv beta iota delta [try_except bind subprocess_run].
  rewrite Hfetch. apply Z.eqb_neq in Hrc. rewrite Hrc. cbn [andb negb].
  cbv beta iota delta [only_called_process_error].
  by rewrite Hmoved.
Qed.

Lemma bind_same_run {A B} (m : M A) (k1 k2 : A -> M B) st :
  (forall a st1, same_run (k1 a st1) (k2 a st1)) ->
  same_run (bind m k1 st) (bind m k2 st).
Proof.
  intros Hk. unfold bind. destruct (m st) as [[a|e] st1]; [apply Hk | done].
Qed.

Lemma and_then_same_run {A B} (m : M (bool + A)) (k1 k2 : A -> M (bool + B)) st :
  (forall a st1, same_run (k1 a st1) (k2 a st1)) ->
  same_run (and_then m k1 st) (and_then m k2 st).
Proof.
  intros Hk. unfold and_then. apply bind_same_run.
  intros [b|a] st1; [done | apply Hk].
Qed.

Lemma finish_same_run (m1 m2 : M (bool + bool)) st :
  same_run (m1 st) (m2 st) -> same_run (finish m1 st) (finish m2 st).
Proof.
  unfold finish, bind, same_run.
  destruct (m1 st) as [[o1|e1] s1], (m2 st) as [[o2|e2] s2]; cbn;
    intros [H1 H2]; try discriminate.
  - injection H1 as ->. destruct o2; by split.
  - injection H1 as ->. by split.
Qed.

Lemma record_verified_same_run key cache_key p1 p2 st :
  same_run (record_verified E key cache_key p1 st)
           (record_verified E key cache_key p2 st).
Proof.
  by destruct p1, p2.
Qed.

(** The flag [cached_verification_passed] is read only when the v2 entry
    is written: it changes neither the verdict nor the commands run. *)
Lemma cached_flag_never_decides
  vcs_url commit ref_hint version timestamp repo_dir p1 p2 st :
  same_run
    (verify_under_lock E cfg vcs_url commit ref_hint version timestamp repo_dir p1 st)
    (verify_under_lock E cfg vcs_url commit ref_hint version timestamp repo_dir p2 st).
Proof.
  unfold verify_under_lock. apply bind_same_run. intros s0 st0.
  destruct (VERIFY_RESULTS s0 !! (vcs_url, commit)); [done|].
  apply bind_same_run. intros commit_present st1.
  apply bind_same_run. intros _ st2.
  apply bind_same_run. intros _ st3.
  apply finish_same_run.
  apply and_then_same_run. intros _ st4.
  apply and_then_same_run. intros actual_commit st5.
  apply bind_same_run. intros present st6.
  destruct present; [|done].
  apply and_then_same_run. intros _ st7.
  by destruct p1, p2.
Qed.

End Verifier.

(** C3 (the code departs from the claim).  At a force-pushed tag --
    the requested commit cannot be fetched, the tag can, and it resolves
    to another commit -- [verify_commit_accessible] stores the correction
    in [VERIFY_FALLBACK_COMMITS] and then raises [NameError] instead of
    returning a true result. *)
Theorem moved_tag_correction_raises :
  (verify_commit_accessible env_moved_tag cfg_default
     example_repo commit_a "refs/tags/v1.2.3" "v1.2.3" "" initial_state).1
  = Raise (NameError "module_path")
  /\ VERIFY_FALLBACK_COMMITS
       (verify_commit_accessible env_moved_tag cfg_default
          example_repo commit_a "refs/tags/v1.2.3" "v1.2.3" "" initial_state).2
     !! (example_repo, commit_a) = Some commit_b.
Proof. split; vm_compute; reflexivity. Qed.

(** C4 (the code departs from the claim).  With a one-day-old verified
    entry for the commit in the v2 cache (the cache look-up says
    "passed"), [verify_commit_accessible] still asks upstream for the
    commit; when the network is down it returns false and records the
    failure. *)
Theorem fresh_cache_entry_still_fetches :
  (fresh_in_v2_cache env_network_down cfg_default
     (cache_key_of example_repo commit_a) state_with_fresh_entry).1 = Ret true
  /\ (verify_commit_accessible env_network_down cfg_default
        example_repo commit_a "refs/tags/v1.2.3" "v1.2.3" "" state_with_fresh_entry).1
     = Ret false
  /\ EvRun (fetch_ref_cmd
              (git_dir_of env_network_down cfg_default example_repo) commit_a)
     ∈ events (verify_commit_accessible env_network_down cfg_default
                 example_repo commit_a "refs/tags/v1.2.3" "v1.2.3" ""
                 state_with_fresh_entry).2
  /\ VERIFY_RESULTS
       (verify_commit_accessible env_network_down cfg_default
          example_repo commit_a "refs/tags/v1.2.3" "v1.2.3" ""
          state_with_fresh_entry).2
     !! (example_repo, commit_a) = Some false.
Proof.
  split; [vm_compute; reflexivity|].
  split; [vm_compute; reflexivity|].
  split; [|vm_compute; reflexivity].
  vm_compute. apply elem_of_cons. right. apply elem_of_cons. by left.
Qed.

(** ** Sub-directories of module records *)

Section Subdir.

Lemma append_cons a s t :
  String.append (String a s) t = String a (String.append s t).
Proof. reflexivity. Qed.

Lemma append_nil t : String.append EmptyString t = t.
Proof. reflexivity. Qed.

Lemma append_snoc cur c s :
  String.append (PyStr.snoc cur c) s = String.append cur (String c s).
Proof.
  unfold PyStr.snoc. induction cur as [|a cur IH]; [done|].
  rewrite !append_cons. f_equal. exact IH.
Qed.

Lemma append_empty_r s : String.append s EmptyString = s.
Proof. induction s as [|a s IH]; [done|]. rewrite append_cons. by f_equal. Qed.

Lemma has_char_append ch a b :
  PyStr.has_char ch (String.append a b) = PyStr.has_char ch a || PyStr.has_char ch b.
Proof.
  induction a as [|c a IH]; [done|].
  rewrite append_cons. cbn [PyStr.has_char]. rewrite IH. by rewrite orb_assoc.
Qed.

Lemma split_on_from_plain ch cur s :
  PyStr.has_char ch s = false ->
  PyStr.split_on_from ch cur s = [String.append cur s].
Proof.
  revert cur. induction s as [|c s IH]; intros cur Hs.
  - cbn. by rewrite append_empty_r.
  - cbn [PyStr.has_char] in Hs. apply orb_false_iff in Hs as [Hc Hs].
    cbn [PyStr.split_on_from]. rewrite Hc, IH by done. by rewrite append_snoc.
Qed.

Lemma split_on_from_sep ch cur s rest :
  PyStr.has_char ch s = false ->
  PyStr.split_on_from ch cur (String.append s (String ch rest))
  = String.append cur s :: PyStr.split_on_from ch EmptyString rest.
Proof.
  revert cur. induction s as [|c s IH]; intros cur Hs.
  - rewrite append_nil. cbn [PyStr.split_on_from].
    unfold PyStr.eqb_char. rewrite Ascii.eqb_refl. by rewrite append_empty_r.
  - cbn [PyStr.has_char] in Hs. apply orb_false_iff in Hs as [Hc Hs].
    rewrite append_cons. cbn [PyStr.split_on_from].
    rewrite Hc, IH by done. by rewrite append_snoc.
Qed.

Lemma split_on_join ch parts :
  parts <> [] ->
  Forall (fun part => PyStr.has_char ch part = false) parts ->
  PyStr.split_on ch (PyStr.join (String ch EmptyString) parts) = parts.
Proof.
  unfold PyStr.split_on. induction parts as [|p parts IH]; [done|].
  intros _ Hall. apply Forall_cons in Hall as [Hp Hall].
  destruct parts as [|q parts].
  - cbn [PyStr.join]. by rewrite split_on_from_plain.
  - change (PyStr.join (String ch EmptyString) (p :: q :: parts))
      with (String.append p (String ch (PyStr.join (String ch EmptyString) (q :: parts)))).
    rewrite split_on_from_sep by done. rewrite append_nil.
    by rewrite IH.
Qed.

Lemma has_char_snoc ch cur c :
  PyStr.has_char ch cur = false -> PyStr.eqb_char c ch = false ->
  PyStr.has_char ch (PyStr.snoc cur c) = false.
Proof.
  intros Hcur Hc. unfold PyStr.snoc. rewrite has_char_append, Hcur.
  cbn [PyStr.has_char orb]. by rewrite Hc.
Qed.

Lemma split_on_from_no_sep ch cur s :
  PyStr.has_char ch cur = false ->
  Forall (fun part => PyStr.has_char ch part = false) (PyStr.split_on_from ch cur s).
Proof.
  revert cur. induction s as [|c s IH]; intros cur Hcur; cbn.
  - by apply Forall_singleton.
  - destruct (PyStr.eqb_char c ch) eqn:Hc.
    + apply Forall_cons. split; [done | by apply IH].
    + apply IH. by apply has_char_snoc.
Qed.

Lemma split_on_no_sep ch s :
  Forall (fun part => PyStr.has_char ch part = false) (PyStr.split_on ch s).
Proof. by apply split_on_from_no_sep. Qed.

Lemma removelast_nonempty {A} (l : list A) :
  (2 <= length l)%nat -> removelast l <> [].
Proof. destruct l as [|x [|y l]]; cbn; [lia|lia|done]. Qed.

Lemma Forall_removelast {A} (P : A -> Prop) (l : list A) :
  Forall P l -> Forall P (removelast l).
Proof.
  induction 1 as [|x l Hx Hl IH]; [constructor|].
  destruct l as [|y l]; [constructor|].
  cbn [removelast]. constructor; [exact Hx | exact IH].
Qed.

Lemma list_last_app {A} (l1 l2 : list A) d :
  l2 <> [] -> List.last (l1 ++ l2) d = List.last l2 d.
Proof.
  intros Hne. induction l1 as [|x l1 IH]; [done|].
  cbn [app]. destruct (l1 ++ l2) as [|y l] eqn:Happ.
  - by destruct l1, l2.
  - exact IH.
Qed.

Lemma join_subdir_join subdir_parts :
  join_subdir subdir_parts = PyStr.join "/" subdir_parts.
Proof. by destruct subdir_parts. Qed.

Lemma last_drop_3 (parts : list string) :
  (3 < length parts)%nat -> last (drop 3 parts) = last parts.
Proof.
  intros Hlen. destruct parts as [|a [|b [|c [|d parts]]]]; cbn in Hlen; try lia.
  reflexivity.
Qed.

(** The sub-directory computed from a module path whose last component
    is a version suffix leaves that component out. *)
Lemma module_subdir_drops_suffix (parts : list string) v :
  (3 < length parts)%nat -> last parts = Some v -> is_version_suffix v = true ->
  module_subdir parts = PyStr.join "/" (removelast (drop 3 parts)).
Proof.
  intros Hlen Hlast Hv. unfold module_subdir.
  apply Nat.ltb_lt in Hlen as Hlt. rewrite Hlt.
  unfold strip_version_suffix. rewrite last_drop_3, Hlast, Hv by done.
  apply join_subdir_join.
Qed.

Lemma module_subdir_keeps_other (parts : list string) v :
  (3 < length parts)%nat -> last parts = Some v -> is_version_suffix v = false ->
  module_subdir parts = PyStr.join "/" (drop 3 parts).
Proof.
  intros Hlen Hlast Hv. unfold module_subdir.
  apply Nat.ltb_lt in Hlen as Hlt. rewrite Hlt.
  unfold strip_version_suffix. rewrite last_drop_3, Hlast, Hv by done.
  apply join_subdir_join.
Qed.

Lemma base_candidates_elem resolved_path base_path sub :
  (base_path, sub) ∈ base_candidates resolved_path ->
  exists i, (3 <= i < length (PyStr.split_on "/" resolved_path))%nat
    /\ base_path = PyStr.join "/" (take i (PyStr.split_on "/" resolved_path))
    /\ sub = PyStr.join "/" (drop i (PyStr.split_on "/" resolved_path)).
Proof.
  unfold base_candidates. intros Hin.
  apply list_elem_of_fmap in Hin as (i & [= -> ->] & Hi).
  apply list_elem_of_In in Hi. apply in_rev, in_seq in Hi.
  exists i. split; [lia | done].
Qed.

Variable E : Env.
Variable cfg : Config.

Lemma try_base_candidates_record modules_by_path mpath ver resolved_version
  candidates st r st' :
  try_base_candidates E cfg modules_by_path mpath ver resolved_version candidates st
    = (Ret (Some r), st') ->
  exists base_path sub,
    (base_path, sub) ∈ candidates
    /\ is_Some (modules_by_path !! base_path)
    /\ subdir r = sub /\ module_path r = mpath /\ version r = ver.
Proof.
  revert st. induction candidates as [|[base_path sub] rest IH]; intros st Hrun;
    [done|].
  cbn [try_base_candidates] in Hrun.
  assert (Hrest : forall st0,
    try_base_candidates E cfg modules_by_path mpath ver resolved_version rest st0
      = (Ret (Some r), st') ->
    exists base_path0 sub0,
      (base_path0, sub0) ∈ (base_path, sub) :: rest
      /\ is_Some (modules_by_path !! base_path0)
      /\ subdir r = sub0 /\ module_path r = mpath /\ version r = ver).
  { intros st0 H0. apply IH in H0 as (b & s0 & Hin & Hrest).
    exists b, s0. split; [apply elem_of_cons; by right | done]. }
  destruct (modules_by_path !! base_path) as [[|base_module tl]|] eqn:Hlook;
    [done| |by eapply Hrest].
  apply bind_ret_inv in Hrun as ([commit_hash|] & s1 & _ & Hrun);
    [|by eapply Hrest].
  destruct (PyStr.is_empty commit_hash); [by eapply Hrest|].
  apply bind_ret_inv in Hrun as (tagged & s2 & _ & Hrun).
  injection Hrun as <- _. exists base_path, sub.
  split; [apply elem_of_cons; by left|]. split; [by rewrite Hlook|]. done.
Qed.

End Subdir.

(** C1 (amended).  Where [resolve_module_metadata] derives the
    sub-directory from a module path of more than three components whose
    last one is a version suffix, the sub-directory is made of the
    components after the third without that last one (earlier components
    are kept, whatever they are).  The monorepo sub-module synthesis takes
    the rest of the replaced path after an already resolved base path as
    it stands, so the sub-directory of its record ends with the last
    component of that path, a version suffix included. *)
Theorem subdir_derivations :
  (forall (parts : list string) (v : string),
     (3 < length parts)%nat -> last parts = Some v -> is_version_suffix v = true ->
     Forall no_slash parts ->
     module_subdir parts = PyStr.join "/" (removelast (drop 3 parts))
     /\ ((4 < length parts)%nat ->
         PyStr.split_on "/" (module_subdir parts) = removelast (drop 3 parts)))
  /\ (forall (E : Env) (cfg : Config)
        (modules_by_path : gmap string (list ModuleRecord))
        (mpath ver resolved_path resolved_version : string) (st st' : State)
        (r : ModuleRecord),
        synthesize_submodule E cfg modules_by_path mpath ver resolved_path
          resolved_version st = (Ret (Some r), st') ->
        (exists i,
           (3 <= i < length (PyStr.split_on "/" resolved_path))%nat
           /\ is_Some (modules_by_path
                         !! PyStr.join "/" (take i (PyStr.split_on "/" resolved_path)))
           /\ subdir r = PyStr.join "/" (drop i (PyStr.split_on "/" resolved_path))
           /\ PyStr.split_on "/" (subdir r)
              = drop i (PyStr.split_on "/" resolved_path))
        /\ List.last (PyStr.split_on "/" (subdir r)) EmptyString
           = List.last (PyStr.split_on "/" resolved_path) EmptyString).
Proof.
  split.
  - intros parts v Hlen Hlast Hv Hparts.
    assert (Hsub := module_subdir_drops_suffix parts v Hlen Hlast Hv).
    split; [exact Hsub|].
    intros Hlen4. rewrite Hsub. apply split_on_join.
    + apply removelast_nonempty. rewrite length_drop. lia.
    + apply Forall_removelast. by apply Forall_drop.
  - intros E cfg modules_by_path mpath ver resolved_path resolved_version st st' r Hrun.
    assert (Hsyn : exists i,
        (3 <= i < length (PyStr.split_on "/" resolved_path))%nat
        /\ is_Some (modules_by_path
                      !! PyStr.join "/" (take i (PyStr.split_on "/" resolved_path)))
        /\ subdir r = PyStr.join "/" (drop i (PyStr.split_on "/" resolved_path))
        /\ PyStr.split_on "/" (subdir r) = drop i (PyStr.split_on "/" resolved_path)).
    { unfold synthesize_submodule in Hrun.
      destruct (negb (resolved_path =? mpath)%string
                && PyStr.has_char "/" resolved_path); [|done].
      apply try_base_candidates_record in Hrun as (b & s0 & Hin & Hsome & Hs & _).
      apply base_candidates_elem in Hin as (i & Hi & -> & ->).
      exists i. split; [done|]. split; [done|]. split; [done|].
      rewrite Hs. apply split_on_join.
      - intros Hnil. apply (f_equal length) in Hnil. rewrite length_drop in Hnil.
        cbn in Hnil. lia.
      - apply Forall_drop. apply split_on_no_sep. }
    split; [exact Hsyn|].
    destruct Hsyn as (i & Hi & _ & _ & ->).
    set (segs := PyStr.split_on "/" resolved_path) in *.
    rewrite <- (take_drop i segs) at 2.
    symmetry. apply list_last_app.
    intros Hnil. apply (f_equal length) in Hnil. rewrite length_drop in Hnil.
    cbn in Hnil. lia.
Qed.

Lemma subdir_derivations_witness :
  module_subdir (PyStr.split_on "/" "go.etcd.io/etcd/client/pkg/v3") = "pkg"
  /\ exists r,
       (synthesize_submodule env_etcd cfg_default etcd_modules_by_path
          "go.etcd.io/etcd/server/v3" "v3.5.10"
          "github.com/k3s-io/etcd/server/v3" "v3.5.10-k3s1" etcd_state).1
       = Ret (Some r)
       /\ List.last (PyStr.split_on "/" (subdir r)) EmptyString = "v3".
Proof.
  destruct subdir_derivations as [Hresolve Hsynth]. split.
  - destruct (Hresolve (PyStr.split_on "/" "go.etcd.io/etcd/client/pkg/v3") "v3")
      as [Hsub _].
    + vm_compute. lia.
    + reflexivity.
    + reflexivity.
    + vm_compute. repeat constructor.
    + rewrite Hsub. reflexivity.
  - eexists. split; [vm_compute; reflexivity|].
    destruct (Hsynth env_etcd cfg_default etcd_modules_by_path
                "go.etcd.io/etcd/server/v3" "v3.5.10"
                "github.com/k3s-io/etcd/server/v3" "v3.5.10-k3s1" etcd_state
                (synthesize_submodule env_etcd cfg_default etcd_modules_by_path
                   "go.etcd.io/etcd/server/v3" "v3.5.10"
                   "github.com/k3s-io/etcd/server/v3" "v3.5.10-k3s1"
                   etcd_state).2
                {| module_path := "go.etcd.io/etcd/server/v3"; version := "v3.5.10";
                   vcs_url := etcd_mirror;
                   vcs_hash := "cccccccccccccccccccccccccccccccccccccccc";
                   vcs_ref := "refs/tags/v3.5.10-k3s1";
                   timestamp := "1970-01-01T00:00:00Z";
                   subdir := "server/v3" |})
      as [_ Hlast].
    + vm_compute. reflexivity.
    + etrans; [exact Hlast | reflexivity].
Defined.

(** C1 as stated fails: the record the monorepo synthesis builds for the
    etcd fork has the sub-directory [server/v3], whose last component is a
    major-version suffix.  (In this environment the replaced path's own
    repository does not answer, which is how the synthesis comes to be
    entered.) *)
Lemma monorepo_subdir_keeps_version :
  (git_ls_remote env_etcd cfg_default "https://github.com/k3s-io/etcd"
     "refs/tags/v3.5.10-k3s1" initial_state).1 = Ret None
  /\ exists r,
       (synthesize_submodule env_etcd cfg_default etcd_modules_by_path
          "go.etcd.io/etcd/server/v3" "v3.5.10"
          "github.com/k3s-io/etcd/server/v3" "v3.5.10-k3s1" etcd_state).1
       = Ret (Some r)
       /\ module_path r = "go.etcd.io/etcd/server/v3"
       /\ subdir r = "server/v3"
       /\ ~ subdir_free_of_versions r.
Proof.
  split; [vm_compute; reflexivity|].
  eexists. split; [vm_compute; reflexivity|]. split; [reflexivity|].
  split; [reflexivity|].
  intros Hfree. unfold subdir_free_of_versions in Hfree. cbn [subdir] in Hfree.
  specialize (Hfree ltac:(discriminate) "v3").
  assert (Hin : "v3" ∈ PyStr.split_on "/" "server/v3").
  { vm_compute. apply elem_of_cons. right. apply elem_of_cons. by left. }
  specialize (Hfree Hin). vm_compute in Hfree. discriminate.
Qed.

(** ** Commit hashes of cache entries and discovered records *)

Section Hashes.

Variable ov : Overrides.

Lemma keep_metadata_commit key entry :
  keep_metadata ov key entry = Ret true ->
  String.length (Meta.commit entry) = 40%nat
  /\ PyStr.forallb_char PyStr.is_hex (Meta.commit entry) = true.
Proof.
  unfold keep_metadata.
  destruct (PyStr.is_empty (Meta.vcs_url entry) || PyStr.is_empty (Meta.commit entry));
    [done|].
  destruct (String.length (Meta.commit entry) =? 40)%nat eqn:Hlen; [|done].
  destruct (fullmatch_hex40 (Meta.commit entry)) eqn:Hhex; [|done].
  intros _. apply Nat.eqb_eq in Hlen. split; [done|].
  unfold fullmatch_hex40 in Hhex. by apply andb_true_iff in Hhex as [_ Hhex].
Qed.

Lemma prune_fold_kept cache0 seen :
  kept_entries_ok ov cache0
    (map_fold (prune_step ov) (Ret (cache0, false)) seen) seen.
Proof.
  apply (map_fold_weak_ind (kept_entries_ok ov cache0)).
  - intros cache removed [= <- <-] key entry Hk. split; [done|].
    intros entry' He. by rewrite lookup_empty in He.
  - intros i x m acc Hi IH cache removed Hstep key entry Hk.
    unfold prune_step in Hstep.
    destruct acc as [[c rem]|e]; [|done].
    destruct (keep_metadata ov i x) as [[|]|e] eqn:Hkeep; [| |done].
    + injection Hstep as <- <-.
      destruct (IH c rem eq_refl key entry Hk) as [H0 Hseen].
      split; [done|]. intros entry' He.
      destruct (decide (key = i)) as [->|Hne].
      * rewrite lookup_insert_eq in He. by injection He as <-.
      * rewrite lookup_insert_ne in He by done. by apply Hseen.
    + injection Hstep as <- <-.
      destruct (decide (key = i)) as [->|Hne];
        [by rewrite lookup_delete_eq in Hk|].
      rewrite lookup_delete_ne in Hk by done.
      destruct (IH c rem eq_refl key entry Hk) as [H0 Hseen].
      split; [done|]. intros entry' He.
      rewrite lookup_insert_ne in He by done. by apply Hseen.
Qed.

End Hashes.

(** ** Repository overrides *)

Section OverrideCandidates.

Implicit Types (overrides : list string) (url : string).

Lemma add_override_elem candidate overrides url :
  url ∈ add_override candidate overrides
  <-> url ∈ overrides \/ (candidate = Some url /\ url <> EmptyString).
Proof.
  unfold add_override. destruct candidate as [c|]; [|naive_solver].
  destruct c as [|a c]; cbn [PyStr.is_empty negb andb]; [naive_solver|].
  case_bool_decide as Hin; cbn [negb].
  - split; [by left|]. intros [H|[[= <-] _]]; done.
  - rewrite elem_of_app, list_elem_of_singleton. naive_solver.
Qed.

Lemma add_override_NoDup candidate overrides :
  NoDup overrides -> NoDup (add_override candidate overrides).
Proof.
  intros Hnd. unfold add_override. destruct candidate as [c|]; [|done].
  destruct (negb (PyStr.is_empty c)); [|done]. cbn [andb].
  case_bool_decide as Hin; cbn [negb]; [done|].
  apply NoDup_app. split; [done|]. split; [|apply NoDup_singleton].
  intros x Hx Hx'. apply list_elem_of_singleton in Hx'. by subst.
Qed.

Lemma add_override_head candidate overrides url :
  head overrides = Some url -> head (add_override candidate overrides) = Some url.
Proof.
  intros Hh. unfold add_override. destruct candidate as [c|]; [|done].
  destruct (negb (PyStr.is_empty c) && negb (bool_decide (c ∈ overrides))); [|done].
  by destruct overrides.
Qed.

Lemma legacy_elem legacy overrides url :
  url ∈ foldl add_legacy overrides legacy <-> url ∈ overrides \/ url ∈ legacy.
Proof.
  revert overrides. induction legacy as [|c legacy IH]; intros overrides; cbn [foldl].
  - split; [by left|]. intros [H|H]; [done | by apply elem_of_nil in H].
  - rewrite IH, elem_of_cons. unfold add_legacy. case_bool_decide as Hin.
    + naive_solver.
    + rewrite elem_of_app, list_elem_of_singleton. naive_solver.
Qed.

Lemma legacy_NoDup legacy overrides :
  NoDup overrides -> NoDup (foldl add_legacy overrides legacy).
Proof.
  revert overrides. induction legacy as [|c legacy IH]; intros overrides Hnd; [done|].
  cbn [foldl]. apply IH. unfold add_legacy. case_bool_decide as Hin; [done|].
  apply NoDup_app. split; [done|]. split; [|apply NoDup_singleton].
  intros x Hx Hx'. apply list_elem_of_singleton in Hx'. by subst.
Qed.

Lemma legacy_head legacy overrides url :
  head overrides = Some url -> head (foldl add_legacy overrides legacy) = Some url.
Proof.
  revert overrides. induction legacy as [|c legacy IH]; intros overrides Hh; [done|].
  cbn [foldl]. apply IH. unfold add_legacy. case_bool_decide; [done|].
  by destruct overrides.
Qed.

Lemma normalise_wildcard module_path version key :
  _normalise_override_key module_path version = Ret key ->
  _normalise_override_key module_path None = Ret (key.1, None).
Proof.
  unfold _normalise_override_key.
  destruct (PyStr.is_empty (PyStr.strip module_path)); [done|]. by intros [= <-].
Qed.

End OverrideCandidates.

(** X1.  [repo_override_candidates] raises [ValueError] exactly for a
    module path that is blank; otherwise its list has no duplicates, holds
    exactly the non-empty dynamic and manual overrides of the
    version-specific and the wildcard key together with the legacy
    entries, and starts with the version-specific dynamic override when
    there is one. *)
Theorem repo_override_candidates_spec
  (ov : Overrides) (module_path : string) (version : option string) :
  match repo_override_candidates ov module_path version with
  | Raise e => e = ValueError /\ PyStr.strip module_path = EmptyString
  | Ret overrides =>
      PyStr.strip module_path <> EmptyString
      /\ NoDup overrides
      /\ (forall url, url ∈ overrides <-> override_source ov module_path version url)
      /\ (forall key url,
            _normalise_override_key module_path version = Ret key ->
            MODULE_REPO_OVERRIDES ov !! key = Some url -> url <> EmptyString ->
            head overrides = Some url)
  end.
Proof.
  unfold repo_override_candidates, override_source.
  destruct (_normalise_override_key module_path version) as [key|e] eqn:Hkey.
  - rewrite (normalise_wildcard _ _ _ Hkey).
    assert (Hne : PyStr.strip module_path <> EmptyString).
    { unfold _normalise_override_key in Hkey.
      destruct (PyStr.strip module_path); [done|discriminate]. }
    split; [done|]. split; [|split].
    + apply legacy_NoDup. do 4 apply add_override_NoDup. constructor.
    + intros url. fold add_legacy. rewrite legacy_elem, !add_override_elem.
      rewrite elem_of_nil. split.
      * intros [[[[[[]|[H Hu]]|[H Hu]]|[H Hu]]|[H Hu]]|H]; [left..|by right].
        -- exists key. split; [by left|]. split; [by left|done].
        -- exists (key.1, None). split; [by right|]. split; [by left|done].
        -- exists key. split; [by left|]. split; [by right|done].
        -- exists (key.1, None). split; [by right|]. split; [by right|done].
      * intros [(k & Hk & Hs & Hu)|H]; [|by right]. left.
        destruct Hk as [[= <-]|[= <-]], Hs as [Hs|Hs]; naive_solver.
    + intros k url [= <-] Hdyn Hu. fold add_legacy.
      apply legacy_head. do 3 apply add_override_head.
      unfold add_override. rewrite Hdyn.
      destruct url as [|a url]; [done|]. cbn [PyStr.is_empty negb andb].
      case_bool_decide as Hin; [by apply elem_of_nil in Hin|]. done.
  - unfold _normalise_override_key in Hkey.
    destruct (PyStr.strip module_path) eqn:Hs; [|discriminate].
    cbn in Hkey. by injection Hkey as <-.
Qed.

(** X2.  Every candidate that [repo_override_candidates] returns for a
    module is allowed by [_url_allowed_for_module] (so the first one, which
    [resolve_module_metadata] takes as the repository, is never rejected
    by the policy check that follows); without candidates every URL is
    allowed; and an allowed URL is, up to normalisation, one of the
    candidates. *)
Theorem override_candidates_are_allowed
  (ov : Overrides) (module_path : string) (version : option string)
  (overrides : list string) :
  repo_override_candidates ov module_path version = Ret overrides ->
  (forall url, overrides = [] \/ url ∈ overrides ->
     _url_allowed_for_module ov module_path url version = Ret true)
  /\ (forall url,
        _url_allowed_for_module ov module_path url version = Ret true ->
        overrides = []
        \/ exists o, o ∈ overrides /\ _normalize_url o = _normalize_url url).
Proof.
  intros Hov. unfold _url_allowed_for_module. rewrite Hov. split.
  - intros url [->|Hin]; [done|].
    destruct overrides as [|o rest]; [done|]. f_equal.
    apply bool_decide_eq_true. apply list_elem_of_In, in_map, list_elem_of_In, Hin.
  - intros url. destruct overrides as [|o rest]; [by left|].
    intros [= Hin]. apply bool_decide_eq_true in Hin. right.
    apply list_elem_of_In in Hin.
    change (In (_normalize_url url) (map _normalize_url (o :: rest))) in Hin.
    apply in_map_iff in Hin as (o' & Ho' & Hin').
    exists o'. split; [by apply list_elem_of_In | done].
Qed.

Lemma override_candidates_are_allowed_witness :
  repo_override_candidates example_overrides "github.com/docker/docker"
    (Some "v25.0.0")
  = Ret ["https://github.com/moby/moby"; "git://github.com/moby/moby.git"]
  /\ _url_allowed_for_module example_overrides "github.com/docker/docker"
       "git://github.com/moby/moby.git" (Some "v25.0.0") = Ret true.
Proof.
  split; [vm_compute; reflexivity|].
  apply (override_candidates_are_allowed example_overrides
           "github.com/docker/docker" (Some "v25.0.0")
           ["https://github.com/moby/moby"; "git://github.com/moby/moby.git"]).
  - vm_compute. reflexivity.
  - right. apply elem_of_cons. right. apply elem_of_cons. by left.
Defined.

(** ** Pruning of the metadata cache *)

Section Prune.

Variable ov : Overrides.

Implicit Types (cache seen : gmap ModKey Meta.entry).

(** What the loop has made of [cache0] after the entries of [seen]. *)
Lemma prune_fold_exact cache0 seen :
  match map_fold (prune_step ov) (Ret (cache0, false)) seen with
  | Ret (cache, removed) =>
      (forall key entry, seen !! key = Some entry ->
         exists keep, keep_metadata ov key entry = Ret keep)
      /\ (forall key,
            cache !! key =
              match seen !! key with
              | Some entry =>
                  if passes_prune ov (key, entry) then cache0 !! key else None
              | None => cache0 !! key
              end)
      /\ (removed = true <->
          exists key entry, seen !! key = Some entry
                            /\ keep_metadata ov key entry = Ret false)
  | Raise e =>
      exists key entry, seen !! key = Some entry
                        /\ keep_metadata ov key entry = Raise e
  end.
Proof.
  apply (map_fold_weak_ind (fun acc seen =>
    match acc with
    | Ret (cache, removed) =>
        (forall key entry, seen !! key = Some entry ->
           exists keep, keep_metadata ov key entry = Ret keep)
        /\ (forall key,
              cache !! key =
                match seen !! key with
                | Some entry =>
                    if passes_prune ov (key, entry) then cache0 !! key else None
                | None => cache0 !! key
                end)
        /\ (removed = true <->
            exists key entry, seen !! key = Some entry
                              /\ keep_metadata ov key entry = Ret false)
    | Raise e =>
        exists key entry, seen !! key = Some entry
                          /\ keep_metadata ov key entry = Raise e
    end)).
  - split; [|split].
    + intros key entry H. by rewrite lookup_empty in H.
    + intros key. by rewrite lookup_empty.
    + split; [done|]. intros (key & entry & H & _). by rewrite lookup_empty in H.
  - intros i x m acc Hi IH. unfold prune_step.
    destruct acc as [[c rem]|e].
    + destruct IH as (Hall & Hlook & Hrem).
      destruct (keep_metadata ov i x) as [[|]|e] eqn:Hkeep.
      * split; [|split].
        -- intros key entry. destruct (decide (key = i)) as [->|Hne].
           ++ rewrite lookup_insert_eq. intros [= <-]. eauto.
           ++ rewrite lookup_insert_ne by done. apply Hall.
        -- intros key. destruct (decide (key = i)) as [->|Hne].
           ++ rewrite lookup_insert_eq. unfold passes_prune. cbn [fst snd].
              by rewrite Hkeep, Hlook, Hi.
           ++ rewrite lookup_insert_ne by done. apply Hlook.
        -- rewrite Hrem. split; intros (key & entry & Hk & Hf).
           ++ exists key, entry. split; [|done].
              rewrite lookup_insert_ne; [done|]. intros <-. by rewrite Hi in Hk.
           ++ destruct (decide (key = i)) as [->|Hne].
              ** rewrite lookup_insert_eq in Hk. injection Hk as <-. congruence.
              ** rewrite lookup_insert_ne in Hk by done. eauto.
      * split; [|split].
        -- intros key entry. destruct (decide (key = i)) as [->|Hne].
           ++ rewrite lookup_insert_eq. intros [= <-]. eauto.
           ++ rewrite lookup_insert_ne by done. apply Hall.
        -- intros key. destruct (decide (key = i)) as [->|Hne].
           ++ rewrite lookup_insert_eq, lookup_delete_eq. unfold passes_prune.
              cbn [fst snd]. by rewrite Hkeep.
           ++ rewrite lookup_insert_ne, lookup_delete_ne by done. apply Hlook.
        -- split; [|done]. intros _. exists i, x. by rewrite lookup_insert_eq.
      * exists i, x. by rewrite lookup_insert_eq.
    + destruct IH as (key & entry & Hk & Hr). exists key, entry. split; [|done].
      rewrite lookup_insert_ne; [done|]. intros <-. by rewrite Hi in Hk.
Qed.

Lemma prune_fold_nothing_to_do cache0 seen :
  (forall key entry, seen !! key = Some entry -> keep_metadata ov key entry = Ret true) ->
  map_fold (prune_step ov) (Ret (cache0, false)) seen = Ret (cache0, false).
Proof.
  apply (map_fold_weak_ind (fun acc seen =>
    (forall key entry, seen !! key = Some entry ->
       keep_metadata ov key entry = Ret true) ->
    acc = Ret (cache0, false))); [done|].
  intros i x m acc Hi IH Hall. rewrite IH.
  - unfold prune_step. by rewrite (Hall i x) by apply lookup_insert_eq.
  - intros key entry Hk. apply Hall. rewrite lookup_insert_ne; [done|].
    intros <-. by rewrite Hi in Hk.
Qed.

End Prune.

(** X3.  When [prune_metadata_cache] returns, the cache holds exactly the
    entries that pass its tests, nothing is added or changed, the dirty
    flag is raised exactly when an entry was removed and is never lowered,
    and pruning the result again changes nothing. *)
Theorem prune_metadata_cache_exact
  (ov : Overrides) (cache cache' : gmap ModKey Meta.entry) (dirty dirty' : bool) :
  prune_metadata_cache ov cache dirty = Ret (cache', dirty') ->
  cache' = filter (fun kv => passes_prune ov kv = true) cache
  /\ (dirty' = true <-> dirty = true \/ cache' <> cache)
  /\ prune_metadata_cache ov cache' dirty' = Ret (cache', dirty').
Proof.
  unfold prune_metadata_cache. intros Hprune.
  pose proof (prune_fold_exact ov cache cache) as Hfold.
  destruct (map_fold (prune_step ov) (Ret (cache, false)) cache)
    as [[c removed]|e]; [|done].
  injection Hprune as <- <-. destruct Hfold as (Hall & Hlook & Hrem).
  assert (Hc : c = filter (fun kv => passes_prune ov kv = true) cache).
  { apply map_eq. intros key. rewrite Hlook.
    destruct (cache !! key) as [entry|] eqn:Hk.
    - destruct (passes_prune ov (key, entry)) eqn:Hkeep.
      + symmetry. by apply map_lookup_filter_Some.
      + symmetry. apply map_lookup_filter_None. right.
        intros entry' Hk'. rewrite Hk in Hk'. injection Hk' as <-. congruence.
    - symmetry. apply map_lookup_filter_None. by left. }
  split; [done|]. split.
  - destruct removed.
    + destruct (proj1 Hrem eq_refl) as (key & entry & Hk & Hf).
      split; [|done]. intros _. right.
      intros Heq. specialize (Hlook key). rewrite Heq, Hk in Hlook.
      unfold passes_prune in Hlook. cbn [fst snd] in Hlook. by rewrite Hf in Hlook.
    + split; [by left|]. intros [Hd|Hne]; [done|].
      exfalso. apply Hne. apply map_eq. intros key. rewrite Hlook.
      destruct (cache !! key) as [entry|] eqn:Hk; [|done].
      unfold passes_prune. cbn [fst snd].
      destruct (Hall key entry Hk) as ([|] & Hkeep); rewrite Hkeep; [done|].
      assert (false = true) as Habs; [|done].
      apply Hrem. by exists key, entry.
  - rewrite (prune_fold_nothing_to_do ov c c).
    + by destruct removed, dirty.
    + intros key entry. rewrite Hc. intros Hk.
      apply map_lookup_filter_Some in Hk as [_ Hk].
      unfold passes_prune in Hk. cbn [fst snd] in Hk.
      by destruct (keep_metadata ov key entry) as [[|]|].
Qed.

Lemma prune_metadata_cache_exact_witness :
  prune_metadata_cache no_overrides example_metadata_cache false
  = Ret ({[ ("github.com/spf13/cobra", "v1.8.0") := cobra_entry ]}, true)
  /\ prune_metadata_cache no_overrides
       {[ ("github.com/spf13/cobra", "v1.8.0") := cobra_entry ]} true
     = Ret ({[ ("github.com/spf13/cobra", "v1.8.0") := cobra_entry ]}, true).
Proof.
  assert (H : prune_metadata_cache no_overrides example_metadata_cache false
              = Ret ({[ ("github.com/spf13/cobra", "v1.8.0") := cobra_entry ]}, true))
    by (vm_compute; reflexivity).
  split; [exact H|].
  destruct (prune_metadata_cache_exact no_overrides example_metadata_cache
              {[ ("github.com/spf13/cobra", "v1.8.0") := cobra_entry ]}
              false true H) as (_ & _ & Hagain).
  exact Hagain.
Defined.

(** ** The metadata cache: writing and reading an entry *)

(** X4.  After [update_metadata_cache] has written an entry,
    [get_cached_metadata] returns it for that (module, version), with the
    timestamp derived from the version when the stored one is empty;
    other keys read as before; the dirty flag is raised only if [dirty]
    is set and the stored value changed; and writing the same entry again
    changes nothing. *)
Theorem metadata_cache_write_read
  (module_path version vcs_url commit timestamp subdir ref : string)
  (dirty dirty2 : bool) (caches : gmap ModKey Meta.entry * bool) :
  let written := {| Meta.vcs_url := vcs_url; Meta.commit := commit;
                    Meta.timestamp := timestamp; Meta.subdir := subdir;
                    Meta.ref := ref |} in
  let caches' := update_metadata_cache module_path version vcs_url commit
                   timestamp subdir ref dirty caches in
  get_cached_metadata caches'.1 module_path version
  = Some {| module_path := module_path; version := version;
            vcs_url := vcs_url; vcs_hash := commit; vcs_ref := ref;
            timestamp := if PyStr.is_empty timestamp
                         then derive_timestamp_from_version version
                         else timestamp;
            subdir := subdir |}
  /\ (forall m v, (m, v) <> (module_path, version) ->
        get_cached_metadata caches'.1 m v = get_cached_metadata caches.1 m v)
  /\ (caches'.2 = true <->
      caches.2 = true
      \/ (dirty = true /\ caches.1 !! (module_path, version) <> Some written))
  /\ update_metadata_cache module_path version vcs_url commit timestamp subdir
       ref dirty2 caches' = caches'.
Proof.
  intros written caches'. subst caches'. unfold update_metadata_cache.
  fold written. destruct caches as [cache flag]. cbn [fst snd].
  case_bool_decide as Hsame; cbn [fst snd].
  - split; [|split; [|split]].
    + unfold get_cached_metadata. by rewrite Hsame.
    + done.
    + split; [by left|]. intros [H|[_ H]]; done.
    + by rewrite bool_decide_eq_true_2.
  - split; [|split; [|split]].
    + unfold get_cached_metadata. by rewrite lookup_insert_eq.
    + intros m v Hne. unfold get_cached_metadata.
      by rewrite lookup_insert_ne.
    + destruct dirty, flag; naive_solver.
    + rewrite bool_decide_eq_true_2; [done|]. apply lookup_insert_eq.
Qed.

(** ** The remote ref resolver: what is remembered *)

Section LsRemoteMemo.

Variable E : Env.
Variable cfg : Config.

(** The attempt on a local clone: a hash it returns is a non-empty token
    and has been stored; when it returns nothing the cache is as before. *)
Lemma subprocess_run_frame (E0 : Env) check c st r st' :
  subprocess_run E0 check c st = (r, st') ->
  LS_REMOTE_CACHE st' = LS_REMOTE_CACHE st
  /\ LS_REMOTE_CACHE_DIRTY st' = LS_REMOTE_CACHE_DIRTY st.
Proof.
  unfold subprocess_run.
  destruct (env_run E0 (events st) c) as [rc out err| |];
    [destruct (check && negb (rc =? 0)%Z)| |]; by intros [= _ <-].
Qed.

Lemma git_ls_remote_local_inv url ref st r st' :
  git_ls_remote_local E cfg url ref st = (Ret r, st') ->
  match r with
  | Some h =>
      h <> EmptyString
      /\ LS_REMOTE_CACHE st' !! (url, ref) = Some (Some h)
      /\ LS_REMOTE_CACHE_DIRTY st' = true
  | None =>
      LS_REMOTE_CACHE st' = LS_REMOTE_CACHE st
      /\ LS_REMOTE_CACHE_DIRTY st' = LS_REMOTE_CACHE_DIRTY st
  end.
Proof.
  unfold git_ls_remote_local. intros Hrun.
  apply bind_ret_inv in Hrun as (ex & s1 & [= <- <-] & Hrun).
  apply bind_ret_inv in Hrun as (ex_head & s2 & H2 & Hrun).
  assert (s2 = st) as ->
    by (destruct (env_exists E (events st) (local_repo_of E cfg url));
        by injection H2 as _ <-).
  destruct (env_exists E (events st) (local_repo_of E cfg url) && ex_head);
    [|by injection Hrun as <- <-].
  apply try_except_ret_inv in Hrun as [Hrun|(e & s3 & h & Hrun & [= <-] & Hh)].
  - apply bind_ret_inv in Hrun as (result & s3 & Hsub & Hrun).
    apply subprocess_run_frame in Hsub.
    destruct ((returncode result =? 0)%Z
              && negb (PyStr.is_empty (PyStr.strip (stdout result))));
      [|by injection Hrun as <- <-].
    destruct (PyStr.split (PyStr.strip (stdout result))) as [|c tl] eqn:Hsplit;
      [done|].
    injection Hrun as <- <-. split; [|split].
    + apply (split_nonempty (PyStr.strip (stdout result))).
      rewrite Hsplit. apply elem_of_cons. by left.
    + cbn. apply lookup_insert_eq.
    + reflexivity.
  - injection Hh as <- <-.
    apply bind_raise_inv in Hrun as [Hrun|(result & s4 & Hsub & Hrun)].
    + by apply subprocess_run_frame in Hrun.
    + apply subprocess_run_frame in Hsub.
      destruct ((returncode result =? 0)%Z
                && negb (PyStr.is_empty (PyStr.strip (stdout result))));
        [|done].
      destruct (PyStr.split (PyStr.strip (stdout result))) as [|c tl];
        [by injection Hrun as _ <-|].
      apply bind_raise_inv in Hrun as [Hrun|(u & s5 & _ & Hrun)]; done.
Qed.

(** The network query, by the answer of the command. *)
Lemma git_ls_remote_network_inv url ref st r st' :
  git_ls_remote_network E url ref st = (Ret r, st') ->
  match r with
  | Some h =>
      h <> EmptyString
      /\ LS_REMOTE_CACHE st' !! (url, ref) = Some (Some h)
      /\ LS_REMOTE_CACHE_DIRTY st' = true
  | None =>
      (process_failed (env_run E (events st) (ls_remote_cmd url ref))
       /\ LS_REMOTE_CACHE st' !! (url, ref) = Some None
       /\ LS_REMOTE_CACHE_DIRTY st' = true)
      \/ (exists out err,
            env_run E (events st) (ls_remote_cmd url ref) = Exited 0 out err
            /\ LS_REMOTE_CACHE st' = LS_REMOTE_CACHE st
            /\ LS_REMOTE_CACHE_DIRTY st' = LS_REMOTE_CACHE_DIRTY st)
  end.
Proof.
  cbv beta iota delta [git_ls_remote_network try_except bind subprocess_run].
  destruct (env_run E (events st) (ls_remote_cmd url ref)) as [rc out err| |] eqn:Hrun.
  - destruct (rc =? 0)%Z eqn:Hrc; cbn [andb negb].
    + apply Z.eqb_eq in Hrc as ->. cbn [stdout].
      destruct (parse_ls_remote out) as [t d].
      destruct (truthy (py_or d t)) eqn:Htruthy.
      * intros [= <- <-]. destruct (py_or d t) as [h|]; [|done].
        split; [by destruct h|]. split; [cbn; apply lookup_insert_eq|done].
      * intros [= <- <-]. right. by exists out, err.
    + intros [= <- <-]. left. split; [cbn; by apply Z.eqb_neq|].
      split; [cbn; apply lookup_insert_eq|done].
  - intros [= <- <-]. left. split; [done|].
    split; [cbn; apply lookup_insert_eq|done].
  - done.
Qed.

End LsRemoteMemo.

(** X5.  A hash that [git_ls_remote] finds for a pair it had not cached
    is never empty and is stored for the pair with the dirty flag set, so
    that every later lookup of the pair returns it without running a
    command. *)
Theorem git_ls_remote_hit_is_cached
  (E : Env) (cfg : Config) (url ref h : string) (st st' : State) :
  LS_REMOTE_CACHE st !! (url, ref) = None ->
  git_ls_remote E cfg url ref st = (Ret (Some h), st') ->
  h <> EmptyString
  /\ LS_REMOTE_CACHE st' !! (url, ref) = Some (Some h)
  /\ LS_REMOTE_CACHE_DIRTY st' = true
  /\ forall E' cfg', git_ls_remote E' cfg' url ref st' = (Ret (Some h), st').
Proof.
  intros Hc Hrun.
  assert (H : h <> EmptyString
              /\ LS_REMOTE_CACHE st' !! (url, ref) = Some (Some h)
              /\ LS_REMOTE_CACHE_DIRTY st' = true).
  { cbv beta iota delta [git_ls_remote bind get_state] in Hrun. rewrite Hc in Hrun.
    cbv beta iota delta [bind] in Hrun.
    destruct (git_ls_remote_local E cfg url ref st) as [[[c|]|e] s1] eqn:Hlocal;
      [| |done].
    - injection Hrun as -> ->.
      exact (git_ls_remote_local_inv E cfg url ref st (Some h) st' Hlocal).
    - exact (git_ls_remote_network_inv E url ref s1 (Some h) st' Hrun). }
  destruct H as (Hne & Hstored & Hdirty). repeat split; try done.
  intros E' cfg'. by apply git_ls_remote_cached.
Qed.

Lemma git_ls_remote_hit_is_cached_witness :
  exists st',
    git_ls_remote env_annotated_tag cfg_default
      "https://github.com/spf13/cobra" "refs/tags/v1.8.0" initial_state
    = (Ret (Some "2222222222222222222222222222222222222222"), st')
    /\ git_ls_remote env_all_timeouts cfg_default
         "https://github.com/spf13/cobra" "refs/tags/v1.8.0" st'
       = (Ret (Some "2222222222222222222222222222222222222222"), st').
Proof.
  eexists. split; [vm_compute; reflexivity|].
  eapply (git_ls_remote_hit_is_cached env_annotated_tag cfg_default
            "https://github.com/spf13/cobra" "refs/tags/v1.8.0"
            "2222222222222222222222222222222222222222" initial_state).
  - reflexivity.
  - vm_compute. reflexivity.
Defined.

(** X6.  When [git_ls_remote] finds nothing for a pair it had not cached,
    the miss is stored only if the network command failed or timed out;
    when the command exits with status 0 and prints no usable line, the
    cache and its dirty flag are left as they were, so the next lookup of
    the pair asks the remote again. *)
Theorem git_ls_remote_miss_cached_only_on_failure
  (E : Env) (cfg : Config) (url ref : string) (st st' : State) :
  LS_REMOTE_CACHE st !! (url, ref) = None ->
  git_ls_remote E cfg url ref st = (Ret None, st') ->
  exists st1,
    git_ls_remote_local E cfg url ref st = (Ret None, st1)
    /\ ((process_failed (env_run E (events st1) (ls_remote_cmd url ref))
         /\ LS_REMOTE_CACHE st' !! (url, ref) = Some None
         /\ LS_REMOTE_CACHE_DIRTY st' = true)
        \/ (exists out err,
              env_run E (events st1) (ls_remote_cmd url ref) = Exited 0 out err
              /\ LS_REMOTE_CACHE st' = LS_REMOTE_CACHE st
              /\ LS_REMOTE_CACHE_DIRTY st' = LS_REMOTE_CACHE_DIRTY st)).
Proof.
  intros Hc Hrun.
  cbv beta iota delta [git_ls_remote bind get_state] in Hrun. rewrite Hc in Hrun.
  cbv beta iota delta [bind] in Hrun.
  destruct (git_ls_remote_local E cfg url ref st) as [[[c|]|e] s1] eqn:Hlocal;
    [done| |done].
  exists s1. split; [done|].
  destruct (git_ls_remote_local_inv E cfg url ref st None s1 Hlocal)
    as [Hsame Hflag].
  destruct (git_ls_remote_network_inv E url ref s1 None st' Hrun)
    as [H|(out & err & Henv & Hcache & Hdirty)]; [by left|].
  right. exists out, err. split; [done|]. split; congruence.
Qed.

Lemma git_ls_remote_miss_cached_only_on_failure_witness :
  LS_REMOTE_CACHE
    (git_ls_remote env_silent cfg_default "https://github.com/spf13/cobra"
       "refs/tags/v9.9.9" initial_state).2
  !! ("https://github.com/spf13/cobra", "refs/tags/v9.9.9") = None.
Proof.
  destruct (git_ls_remote_miss_cached_only_on_failure env_silent cfg_default
              "https://github.com/spf13/cobra" "refs/tags/v9.9.9" initial_state
              (git_ls_remote env_silent cfg_default
                 "https://github.com/spf13/cobra" "refs/tags/v9.9.9"
                 initial_state).2)
    as (st1 & _ & [(Hfailed & _)|(out & err & _ & Hcache & _)]).
  - reflexivity.
  - vm_compute. reflexivity.
  - cbn in Hfailed. done.
  - rewrite Hcache. reflexivity.
Defined.

(** ** The fallback commit search *)

Section Fallback.

Variable E : Env.
Variable cfg : Config.

Lemma strip_nonempty s :
  PyStr.is_empty (PyStr.strip s) = false -> PyStr.strip s <> EmptyString.
Proof. by destruct (PyStr.strip s). Qed.

Lemma default_branch_of_returns vcs_url st :
  exists branch st', default_branch_of E vcs_url st = (Ret branch, st').
Proof.
  unfold default_branch_of, try_except.
  match goal with |- context [match ?m st with _ => _ end] =>
    destruct (m st) as [[b|e] s1] end; [eauto|]. unfold ret. eauto.
Qed.

End Fallback.

(** X7.  [_find_fallback_commit] never raises, whatever the commands do
    (failures, timeouts, commands that cannot be started, malformed
    output); and a commit it returns is never the empty string. *)
Theorem find_fallback_commit_never_raises
  (E : Env) (cfg : Config) (vcs_url version timestamp : string) (st : State) :
  exists result st',
    _find_fallback_commit E cfg vcs_url version timestamp st = (Ret result, st')
    /\ forall commit_hash branch,
         result = Some (commit_hash, branch) -> commit_hash <> EmptyString.
Proof.
  unfold _find_fallback_commit.
  destruct (default_branch_of_returns E vcs_url st) as (default_branch & s1 & Hb).
  unfold bind at 1. rewrite Hb.
  destruct (try_except _ _ s1) as [[r|e] s2] eqn:Hrun.
  - exists r, s2. split; [done|]. intros commit_hash branch ->.
    apply try_except_ret_inv in Hrun as [Hrun|(e & s3 & h & _ & [= <-] & Hh)];
      [|done].
    destruct (fallback_target_date E version timestamp) as [target_date|].
    + apply bind_ret_inv in Hrun as (s & s3 & _ & Hrun).
      apply bind_ret_inv in Hrun as (repo_dir & s4 & _ & Hrun).
      apply bind_ret_inv in Hrun as (u & s5 & _ & Hrun).
      apply bind_ret_inv in Hrun as (found & s6 & Hfound & Hrun).
      destruct found as [c|].
      * injection Hrun as -> _ _.
        apply try_except_ret_inv in Hfound
          as [Hfound|(e & s7 & h & _ & Hh & Hfound)].
        -- apply bind_ret_inv in Hfound as (result & s7 & _ & Hfound).
           unfold nonempty_output in Hfound.
           destruct (returncode result =? 0)%Z; [|done]. cbn [andb] in Hfound.
           destruct (PyStr.is_empty (PyStr.strip (stdout result))) eqn:Hne;
             [done|].
           injection Hfound as <- _. by apply strip_nonempty.
        -- destruct e; try done. by injection Hh as <-.
      * apply bind_ret_inv in Hrun as (result & s7 & _ & Hrun).
        unfold nonempty_output in Hrun.
        destruct (returncode result =? 0)%Z; [|done]. cbn [andb] in Hrun.
        destruct (PyStr.is_empty (PyStr.strip (stdout result))) eqn:Hne; [done|].
        injection Hrun as <- _ _. by apply strip_nonempty.
    + apply bind_ret_inv in Hrun as (result & s3 & _ & Hrun).
      destruct ((returncode result =? 0)%Z && negb (PyStr.is_empty (stdout result)));
        [|done].
      destruct (PyStr.split (stdout result)) as [|c tl] eqn:Hsplit; [done|].
      injection Hrun as <- _ _.
      apply (split_nonempty (stdout result)). rewrite Hsplit.
      apply elem_of_cons. by left.
  - unfold try_except in Hrun.
    match type of Hrun with context [match ?m s1 with _ => _ end] =>
      destruct (m s1) as [[r|e0] s3] end; done.
Qed.

(** ** The commit verifier: recorded verdicts *)

Create HintDb verifier.

Section Settles.

Variable E : Env.
Variable cfg : Config.
Variable key : UrlKey.

Lemma settles_go_on {A} (a : A) : settles key (go_on a).
Proof. intros st b st' H. discriminate H. Qed.

Lemma settles_fail_verification {A} : settles key (@fail_verification A key).
Proof. intros st b st' [= <- <-]. cbn. apply lookup_insert_eq. Qed.

Lemma settles_fail_and_forget {A} cache_key :
  settles key (@fail_and_forget A key cache_key).
Proof. intros st b st' [= <- <-]. cbn. apply lookup_insert_eq. Qed.

Lemma settles_bind {A B} (m : M A) (k : A -> M (bool + B)) :
  (forall a, settles key (k a)) -> settles key (bind m k).
Proof.
  intros Hk st b st' Hrun. apply bind_ret_inv in Hrun as (a & s1 & _ & Hrun).
  by apply (Hk a s1).
Qed.

Lemma settles_and_then {A B} (m : M (bool + A)) (k : A -> M (bool + B)) :
  settles key m -> (forall a, settles key (k a)) -> settles key (and_then m k).
Proof.
  intros Hm Hk st b st' Hrun. unfold and_then in Hrun.
  apply bind_ret_inv in Hrun as ([b0|a] & s1 & Hm1 & Hrun).
  - injection Hrun as <- <-. by apply (Hm st).
  - by apply (Hk a s1).
Qed.

Lemma settles_try_except {A} (m : M (bool + A)) handler :
  settles key m -> (forall e h, handler e = Some h -> settles key h) ->
  settles key (try_except m handler).
Proof.
  intros Hm Hh st b st' Hrun.
  apply try_except_ret_inv in Hrun as [Hrun|(e & s1 & h & _ & He & Hrun)].
  - by apply (Hm st).
  - by apply (Hh e h He s1).
Qed.

Ltac handler_inv :=
  match goal with
  | H : only_called_process_error _ ?e = Some _ |- _ =>
      destruct e; try discriminate H; injection H as <-
  | H : (if ?b then _ else _) = Some _ |- _ =>
      destruct b eqn:?; [injection H as <- | discriminate H]
  | H : Some _ = Some _ |- _ => injection H as <-
  end.

Ltac settle :=
  repeat first
    [ apply settles_go_on | apply settles_fail_verification
    | apply settles_fail_and_forget
    | apply settles_and_then; [|intros ?]
    | apply settles_try_except; [|intros ? ? ?; handler_inv]
    | apply settles_bind; intros ?
    | progress cbv zeta
    | match goal with |- settles _ (if ?b then _ else _) => destruct b end
    | match goal with |- settles _ (match ?x with _ => _ end) => destruct x end ].

Lemma settles_fetch_tagged_commit vcs_url commit ref_hint repo_dir cache_key :
  settles key (fetch_tagged_commit E vcs_url commit ref_hint repo_dir key cache_key).
Proof. unfold fetch_tagged_commit. settle. Qed.

Lemma settles_fetch_full_history vcs_url repo_dir cache_key :
  settles key (fetch_full_history E vcs_url repo_dir key cache_key).
Proof. unfold fetch_full_history. settle. Qed.

Lemma settles_use_fallback_commit vcs_url commit version timestamp repo_dir :
  settles key (use_fallback_commit E cfg vcs_url commit version timestamp repo_dir key).
Proof. unfold use_fallback_commit. settle. Qed.

Lemma settles_check_tag_target vcs_url commit ref_hint repo_dir cache_key actual :
  settles key
    (check_tag_target E cfg vcs_url commit ref_hint repo_dir key cache_key actual).
Proof. unfold check_tag_target. settle. Qed.

Lemma settles_detect_branch vcs_url commit version timestamp repo_dir actual :
  settles key
    (detect_branch E cfg vcs_url commit version timestamp repo_dir key actual).
Proof. unfold detect_branch. settle. Qed.

Lemma record_verified_result cache_key passed st v st' :
  record_verified E key cache_key passed st = (Ret v, st') ->
  v = true /\ VERIFY_RESULTS st' !! key = Some true.
Proof.
  unfold record_verified. intros Hrun.
  apply bind_ret_inv in Hrun as (u & s1 & _ & Hrun).
  injection Hrun as <- <-. split; [done|]. cbn. apply lookup_insert_eq.
Qed.

Lemma decides_and_then {A} (m : M (bool + A)) (k : A -> M (bool + bool)) :
  settles key m -> (forall a, decides key (k a)) -> decides key (and_then m k).
Proof.
  intros Hm Hk st r st' Hrun. unfold and_then in Hrun.
  apply bind_ret_inv in Hrun as ([b0|a] & s1 & Hm1 & Hrun).
  - injection Hrun as <- <-. exists b0. split; [done|]. by apply (Hm st).
  - by apply (Hk a s1).
Qed.

Lemma decides_bind {A} (m : M A) (k : A -> M (bool + bool)) :
  (forall a, decides key (k a)) -> decides key (bind m k).
Proof.
  intros Hk st r st' Hrun. apply bind_ret_inv in Hrun as (a & s1 & _ & Hrun).
  by apply (Hk a s1).
Qed.

End Settles.

(** X8.  Whenever [verify_commit_accessible] returns, its verdict is what
    [VERIFY_RESULTS] holds for (url, commit) afterwards; so a second call
    for the same pair, whatever its other arguments and whatever the
    remote does by then, returns the same verdict and does nothing. *)
Theorem verify_verdict_is_recorded
  (E : Env) (cfg : Config) (vcs_url commit ref_hint version timestamp : string)
  (st st' : State) (verdict : bool) :
  verify_commit_accessible E cfg vcs_url commit ref_hint version timestamp st
    = (Ret verdict, st') ->
  VERIFY_RESULTS st' !! (vcs_url, commit) = Some verdict
  /\ forall E' cfg' ref_hint' version' timestamp',
       verify_commit_accessible E' cfg' vcs_url commit ref_hint' version'
         timestamp' st' = (Ret verdict, st').
Proof.
  intros Hrun.
  assert (Hrec : VERIFY_RESULTS st' !! (vcs_url, commit) = Some verdict).
  { unfold verify_commit_accessible in Hrun.
    apply bind_ret_inv in Hrun as (s & s0 & [= <- <-] & Hrun).
    destruct (VERIFY_RESULTS st !! (vcs_url, commit)) as [cached|] eqn:Hcached;
      [by injection Hrun as <- <-|].
    apply bind_ret_inv in Hrun as (passed & s1 & _ & Hrun).
    apply bind_ret_inv in Hrun as (flag & s2 & _ & Hrun).
    apply bind_ret_inv in Hrun as (repo_dir & s3 & _ & Hrun).
    apply bind_ret_inv in Hrun as (s & s4 & [= <- <-] & Hrun).
    destruct (negb (bool_decide (vcs_url ∈ VERIFY_REPO_LOCKS s3))); [done|].
    unfold verify_under_lock in Hrun.
    apply bind_ret_inv in Hrun as (s & s4 & [= <- <-] & Hrun).
    destruct (VERIFY_RESULTS s3 !! (vcs_url, commit)) as [cached|] eqn:Hc3;
      [by injection Hrun as <- <-|].
    apply bind_ret_inv in Hrun as (commit_present & s4 & _ & Hrun).
    apply bind_ret_inv in Hrun as (u1 & s5 & _ & Hrun).
    apply bind_ret_inv in Hrun as (u2 & s6 & _ & Hrun).
    unfold finish in Hrun.
    apply bind_ret_inv in Hrun as (outcome & s7 & Hchain & Hrun).
    assert (Hdec : exists b, outcome = inl b
                             /\ VERIFY_RESULTS s7 !! (vcs_url, commit) = Some b).
    { match type of Hchain with
      | ?m s6 = _ =>
          enough (Hd : decides (vcs_url, commit) m)
            by exact (Hd s6 outcome s7 Hchain)
      end.
      apply decides_and_then.
      { destruct (negb (PyStr.is_empty ref_hint) && negb commit_present);
          [apply settles_fetch_tagged_commit | apply settles_fetch_full_history]. }
      intros _. apply decides_and_then.
      { apply settles_bind. intros present.
        destruct (negb present); [|apply settles_go_on].
        destruct (PyStr.is_empty ref_hint);
          [apply settles_use_fallback_commit | apply settles_fail_verification]. }
      intros actual_commit. apply decides_bind. intros present.
      destruct present.
      - apply decides_and_then.
        + destruct (negb (PyStr.is_empty ref_hint)).
          * apply settles_and_then; [apply settles_check_tag_target|].
            intros actual. apply settles_bind. intros _. apply settles_go_on.
          * apply settles_detect_branch.
        + intros _ s r s' Hfin.
          apply bind_ret_inv in Hfin as (v & s8 & Hrec & [= <- <-]).
          apply record_verified_result in Hrec as [-> Hrec]. eauto.
      - intros s r s' [= <- <-]. exists false. split; [done|].
        cbn. apply lookup_insert_eq. }
    destruct Hdec as (b & -> & Hb). by injection Hrun as <- <-. }
  split; [exact Hrec|].
  intros E' cfg' ref_hint' version' timestamp'.
  cbv beta iota zeta delta [verify_commit_accessible bind get_state].
  by rewrite Hrec.
Qed.

Lemma verify_verdict_is_recorded_witness :
  verify_commit_accessible env_all_timeouts cfg_default example_repo commit_a
    "" "" ""
    (verify_commit_accessible env_network_down cfg_default example_repo commit_a
       "refs/tags/v1.2.3" "v1.2.3" "" state_with_fresh_entry).2
  = (Ret false,
     (verify_commit_accessible env_network_down cfg_default example_repo commit_a
        "refs/tags/v1.2.3" "v1.2.3" "" state_with_fresh_entry).2).
Proof.
  destruct (verify_verdict_is_recorded env_network_down cfg_default example_repo
              commit_a "refs/tags/v1.2.3" "v1.2.3" "" state_with_fresh_entry
              (verify_commit_accessible env_network_down cfg_default example_repo
                 commit_a "refs/tags/v1.2.3" "v1.2.3" ""
                 state_with_fresh_entry).2 false) as [_ Hagain].
  - vm_compute. reflexivity.
  - apply Hagain.
Defined.

(** ** The commit verifier: repository locks *)

Section Locks.

Variable E : Env.
Variable cfg : Config.

Lemma locks_cover_frame st st' :
  VERIFY_REPO_CACHE st' = VERIFY_REPO_CACHE st ->
  VERIFY_REPO_LOCKS st' = VERIFY_REPO_LOCKS st ->
  locks_cover st -> locks_cover st'.
Proof. unfold locks_cover. intros -> ->. done. Qed.

Lemma lock_safe_ret {A} (a : A) : lock_safe (ret a).
Proof. by intros st Hinv. Qed.

Lemma lock_safe_raise {A} e : e <> KeyError -> lock_safe (@raise A e).
Proof. intros He st Hinv. split; [done|]. cbn. congruence. Qed.

Lemma lock_safe_get_state : lock_safe get_state.
Proof. by intros st Hinv. Qed.

Lemma lock_safe_modify f :
  (forall st, VERIFY_REPO_CACHE (f st) = VERIFY_REPO_CACHE st) ->
  (forall st, VERIFY_REPO_LOCKS (f st) = VERIFY_REPO_LOCKS st) ->
  lock_safe (modify_state f).
Proof.
  intros Hc Hl st Hinv. split; [|done]. cbn. by apply (locks_cover_frame st).
Qed.

Lemma lock_safe_subprocess_run check c : lock_safe (subprocess_run E check c).
Proof.
  intros st Hinv. unfold subprocess_run.
  destruct (env_run E (events st) c) as [rc out err| |];
    [destruct (check && negb (rc =? 0)%Z)| |]; by split.
Qed.

Lemma lock_safe_path_exists path : lock_safe (path_exists E path).
Proof. by intros st Hinv. Qed.

Lemma lock_safe_now : lock_safe (now E).
Proof. by intros st Hinv. Qed.

Lemma lock_safe_fs_op ev : lock_safe (fs_op E ev).
Proof.
  intros st Hinv. unfold fs_op. destruct (env_fs_ok E (events st) ev); by split.
Qed.

Lemma lock_safe_bind {A B} (m : M A) (k : A -> M B) :
  lock_safe m -> (forall a, lock_safe (k a)) -> lock_safe (bind m k).
Proof.
  intros Hm Hk st Hinv. unfold bind. destruct (Hm st Hinv) as [H1 H2].
  destruct (m st) as [[a|e] s1]; [by apply Hk|].
  split; [done|]. cbn in *. congruence.
Qed.

Lemma lock_safe_try_except {A} (m : M A) handler :
  lock_safe m -> (forall e h, handler e = Some h -> lock_safe h) ->
  lock_safe (try_except m handler).
Proof.
  intros Hm Hh st Hinv. unfold try_except. destruct (Hm st Hinv) as [H1 H2].
  destruct (m st) as [[a|e] s1]; [by split|].
  destruct (handler e) as [h|] eqn:He; [by apply (Hh e h) | by split].
Qed.

(** A handler that catches everything: the body may raise what it likes. *)
Lemma lock_safe_catch_all {A} (m : M A) (h : M A) :
  (forall st, locks_cover st -> locks_cover (m st).2) -> lock_safe h ->
  lock_safe (try_except m (fun _ => Some h)).
Proof.
  intros Hm Hh st Hinv. unfold try_except. specialize (Hm st Hinv).
  destruct (m st) as [[a|e] s1]; [by split | by apply Hh].
Qed.

Ltac handler_inv :=
  match goal with
  | H : only_called_process_error _ ?e = Some _ |- _ =>
      destruct e; try discriminate H; injection H as <-
  | H : (if ?b then _ else _) = Some _ |- _ =>
      destruct b eqn:?; [injection H as <- | discriminate H]
  | H : Some _ = Some _ |- _ => injection H as <-
  | H : match ?e with _ => _ end = Some _ |- _ =>
      destruct e; try discriminate H; injection H as <-
  end.

Ltac lock_steps :=
  repeat first
    [ solve [auto with verifier nocore]
    | progress cbv zeta
    | progress unfold early, go_on, and_then, finish, fail_verification,
        fail_and_forget, cache_ls_remote, or_else
    | match goal with
      | |- lock_safe (ret _) => apply lock_safe_ret
      | |- lock_safe get_state => apply lock_safe_get_state
      | |- lock_safe (now _) => apply lock_safe_now
      | |- lock_safe (subprocess_run _ _ _) => apply lock_safe_subprocess_run
      | |- lock_safe (path_exists _ _) => apply lock_safe_path_exists
      | |- lock_safe (fs_op _ _) => apply lock_safe_fs_op
      | |- lock_safe (raise _) => apply lock_safe_raise; discriminate
      | |- lock_safe (modify_state _) =>
          apply lock_safe_modify; intros ?; reflexivity
      | |- lock_safe (bind _ _) => apply lock_safe_bind; [|intros ?]
      | |- lock_safe (try_except _ _) =>
          apply lock_safe_try_except; [|intros ? ? ?; handler_inv]
      | |- lock_safe (if ?b then _ else _) => destruct b
      | |- lock_safe (match ?x with _ => _ end) => destruct x
      end ].

Lemma lock_safe_commit_exists repo_dir commit check_commit :
  lock_safe (_commit_exists E repo_dir commit check_commit).
Proof. unfold _commit_exists. lock_steps. Qed.
#[local] Hint Resolve lock_safe_commit_exists : verifier.

Lemma lock_safe_unlink_existing repo_dir names :
  lock_safe (unlink_existing E repo_dir names).
Proof.
  induction names as [|name names IH]; cbn [unlink_existing]; lock_steps.
Qed.

Lemma lock_safe_remove_stale_locks repo_dir :
  lock_safe (remove_stale_locks E repo_dir).
Proof. apply lock_safe_unlink_existing. Qed.
#[local] Hint Resolve lock_safe_remove_stale_locks : verifier.

Lemma lock_safe_fresh_in_v2_cache cache_key :
  lock_safe (fresh_in_v2_cache E cfg cache_key).
Proof. unfold fresh_in_v2_cache. lock_steps. Qed.

Lemma lock_safe_migrate_legacy_entry cache_key passed :
  lock_safe (migrate_legacy_entry E cache_key passed).
Proof. unfold migrate_legacy_entry. lock_steps. Qed.

Lemma lock_safe_fetch_ref_hint repo_dir ref_hint :
  lock_safe (fetch_ref_hint E repo_dir ref_hint).
Proof. unfold fetch_ref_hint. lock_steps. Qed.

Lemma lock_safe_check_tag_moved vcs_url commit ref_hint repo_dir :
  lock_safe (check_tag_moved E vcs_url commit ref_hint repo_dir).
Proof. unfold check_tag_moved. lock_steps. Qed.
#[local] Hint Resolve lock_safe_check_tag_moved : verifier.

Lemma lock_safe_fetch_tagged_commit vcs_url commit ref_hint repo_dir key cache_key :
  lock_safe (fetch_tagged_commit E vcs_url commit ref_hint repo_dir key cache_key).
Proof. unfold fetch_tagged_commit. lock_steps. Qed.

Lemma lock_safe_fetch_full_history vcs_url repo_dir key cache_key :
  lock_safe (fetch_full_history E vcs_url repo_dir key cache_key).
Proof. unfold fetch_full_history. lock_steps. Qed.

(** The two registrations at the end of [_verify_repo_dir] taken
    together: the directory and its lock. *)
Lemma lock_safe_register vcs_url git_dir :
  lock_safe (modify_state (with_repo_cache (insert vcs_url git_dir)) ;;;
             modify_state (with_repo_locks (union {[vcs_url]})) ;;;
             ret git_dir).
Proof.
  intros st Hinv. split; [|done]. intros url dir.
  cbv beta iota delta [bind modify_state ret snd].
  cbn [VERIFY_REPO_CACHE VERIFY_REPO_LOCKS with_repo_cache with_repo_locks].
  destruct (decide (url = vcs_url)) as [->|Hne].
  - intros _. set_solver.
  - rewrite lookup_insert_ne by done. intros Hdir.
    apply elem_of_union. right. by apply (Hinv url dir).
Qed.
#[local] Hint Resolve lock_safe_register : verifier.

Lemma lock_safe_verify_repo_dir vcs_url : lock_safe (_verify_repo_dir E cfg vcs_url).
Proof. unfold _verify_repo_dir. lock_steps. Qed.
#[local] Hint Resolve lock_safe_verify_repo_dir : verifier.

Lemma verify_repo_dir_lock vcs_url st repo_dir st' :
  locks_cover st ->
  _verify_repo_dir E cfg vcs_url st = (Ret repo_dir, st') ->
  vcs_url ∈ VERIFY_REPO_LOCKS st'.
Proof.
  intros Hinv Hrun. unfold _verify_repo_dir in Hrun.
  apply bind_ret_inv in Hrun as (s & s0 & [= <- <-] & Hrun).
  destruct (VERIFY_REPO_CACHE st !! vcs_url) as [dir|] eqn:Hdir.
  - injection Hrun as <- <-. by apply (Hinv vcs_url dir).
  - apply bind_ret_inv in Hrun as (u1 & s1 & _ & Hrun).
    apply bind_ret_inv in Hrun as (has_config & s2 & _ & Hrun).
    apply bind_ret_inv in Hrun as (u2 & s3 & _ & Hrun).
    injection Hrun as _ <-. cbn. set_solver.
Qed.

Lemma parse_symref_raises out e : parse_symref out = Raise e -> e = IndexError.
Proof.
  unfold parse_symref.
  destruct (find _ _) as [line|]; [|done].
  destruct (PyStr.split line) as [|a [|b tl]]; congruence.
Qed.

Lemma lock_safe_default_branch_of vcs_url : lock_safe (default_branch_of E vcs_url).
Proof.
  unfold default_branch_of. apply lock_safe_try_except; [|intros ? ? ?; handler_inv].
  - apply lock_safe_bind; [apply lock_safe_subprocess_run|]. intros result.
    destruct ((returncode result =? 0)%Z && negb (PyStr.is_empty (stdout result)));
      [|apply lock_safe_ret].
    destruct (parse_symref (stdout result)) as [b|e] eqn:Hp; [apply lock_safe_ret|].
    apply parse_symref_raises in Hp as ->. by apply lock_safe_raise.
  - apply lock_safe_ret.
Qed.
#[local] Hint Resolve lock_safe_default_branch_of : verifier.

Lemma lock_safe_find_fallback_commit vcs_url version timestamp :
  lock_safe (_find_fallback_commit E cfg vcs_url version timestamp).
Proof. unfold _find_fallback_commit. lock_steps. Qed.
#[local] Hint Resolve lock_safe_find_fallback_commit : verifier.

Lemma lock_safe_use_fallback_commit vcs_url commit version timestamp repo_dir key :
  lock_safe (use_fallback_commit E cfg vcs_url commit version timestamp repo_dir key).
Proof. unfold use_fallback_commit. lock_steps. Qed.

Lemma lock_safe_git_ls_remote url ref : lock_safe (git_ls_remote E cfg url ref).
Proof.
  unfold git_ls_remote, git_ls_remote_local, git_ls_remote_network. lock_steps.
Qed.
#[local] Hint Resolve lock_safe_git_ls_remote : verifier.

Lemma lock_safe_check_tag_target vcs_url commit ref_hint repo_dir key cache_key actual :
  lock_safe (check_tag_target E cfg vcs_url commit ref_hint repo_dir key cache_key
               actual).
Proof. unfold check_tag_target. lock_steps. Qed.

Lemma lock_safe_check_ancestry repo_dir actual :
  lock_safe (check_ancestry E repo_dir actual).
Proof. unfold check_ancestry. lock_steps. Qed.

Lemma lock_safe_detect_branch vcs_url commit version timestamp repo_dir key actual :
  lock_safe (detect_branch E cfg vcs_url commit version timestamp repo_dir key actual).
Proof. unfold detect_branch. lock_steps. Qed.

Lemma lock_safe_record_verified key cache_key passed :
  lock_safe (record_verified E key cache_key passed).
Proof. unfold record_verified. lock_steps. Qed.

#[local] Hint Resolve lock_safe_fetch_tagged_commit lock_safe_fetch_full_history
  lock_safe_use_fallback_commit lock_safe_check_tag_target lock_safe_check_ancestry
  lock_safe_detect_branch lock_safe_record_verified lock_safe_fetch_ref_hint
  lock_safe_fresh_in_v2_cache lock_safe_migrate_legacy_entry : verifier.

Lemma lock_safe_verify_under_lock
  vcs_url commit ref_hint version timestamp repo_dir passed :
  lock_safe (verify_under_lock E cfg vcs_url commit ref_hint version timestamp
               repo_dir passed).
Proof. unfold verify_under_lock. lock_steps. Qed.

End Locks.

(** X9.  If every repository directory registered in [VERIFY_REPO_CACHE]
    has its lock in [VERIFY_REPO_LOCKS], then [verify_commit_accessible]
    keeps it so and never raises [KeyError] at the lock look-up. *)
Theorem verify_keeps_repository_locks
  (E : Env) (cfg : Config) (vcs_url commit ref_hint version timestamp : string)
  (st : State) :
  locks_cover st ->
  locks_cover
    (verify_commit_accessible E cfg vcs_url commit ref_hint version timestamp st).2
  /\ (verify_commit_accessible E cfg vcs_url commit ref_hint version timestamp st).1
     <> Raise KeyError.
Proof.
  intros Hinv. unfold verify_commit_accessible.
  cbv beta iota zeta delta [bind get_state].
  destruct (VERIFY_RESULTS st !! (vcs_url, commit)); [by split|].
  destruct (lock_safe_fresh_in_v2_cache E cfg (cache_key_of vcs_url commit) st Hinv)
    as [H1 H1'].
  destruct (fresh_in_v2_cache E cfg (cache_key_of vcs_url commit) st)
    as [[passed|e] s1]; [|by split].
  destruct (lock_safe_migrate_legacy_entry E (cache_key_of vcs_url commit) passed
              s1 H1) as [H2 H2'].
  destruct (migrate_legacy_entry E (cache_key_of vcs_url commit) passed s1)
    as [[flag|e] s2]; [|by split].
  destruct (lock_safe_verify_repo_dir E cfg vcs_url s2 H2) as [H3 H3'].
  destruct (_verify_repo_dir E cfg vcs_url s2) as [[repo_dir|e] s3] eqn:Hdir;
    [|split; [done | cbn in *; congruence]].
  rewrite bool_decide_eq_true_2 by exact (verify_repo_dir_lock E cfg _ _ _ _ H2 Hdir).
  cbn [negb].
  by apply lock_safe_verify_under_lock.
Qed.

Lemma verify_keeps_repository_locks_witness :
  locks_cover
    (verify_commit_accessible env_network_down cfg_default example_repo commit_a
       "refs/tags/v1.2.3" "v1.2.3" "" initial_state).2.
Proof.
  apply (verify_keeps_repository_locks env_network_down cfg_default example_repo
           commit_a "refs/tags/v1.2.3" "v1.2.3" "" initial_state).
  intros url dir Hdir. cbn in Hdir. by rewrite lookup_empty in Hdir.
Defined.

(** ** Strings: splitting what was joined *)

Section Strings.

Implicit Types (s t cur : string) (ch c : ascii).

Lemma append_assoc' s t u :
  String.append (String.append s t) u = String.append s (String.append t u).
Proof.
  induction s as [|a s IH]; [done|]. rewrite !append_cons. by f_equal.
Qed.

Lemma split_on_from_app_sep ch cur s t :
  PyStr.split_on_from ch cur (String.append s (String ch t))
  = PyStr.split_on_from ch cur s ++ PyStr.split_on_from ch EmptyString t.
Proof.
  revert cur. induction s as [|a s IH]; intros cur.
  - rewrite append_nil. cbn [PyStr.split_on_from].
    unfold PyStr.eqb_char. by rewrite Ascii.eqb_refl.
  - rewrite append_cons. cbn [PyStr.split_on_from].
    destruct (PyStr.eqb_char a ch); rewrite IH; done.
Qed.

Lemma split_on_app_sep ch s t :
  PyStr.split_on ch (String.append s (String ch t))
  = PyStr.split_on ch s ++ PyStr.split_on ch t.
Proof. apply split_on_from_app_sep. Qed.

Lemma split_on_plain ch s :
  PyStr.has_char ch s = false -> PyStr.split_on ch s = [s].
Proof. intros Hs. unfold PyStr.split_on. by rewrite split_on_from_plain. Qed.

Lemma split_on_from_nonempty ch cur s : PyStr.split_on_from ch cur s <> [].
Proof.
  revert cur. induction s as [|a s IH]; intros cur; cbn; [done|].
  destruct (PyStr.eqb_char a ch); [done | apply IH].
Qed.

Lemma forallb_char_no ch (p : ascii -> bool) s :
  p ch = false -> PyStr.forallb_char p s = true -> PyStr.has_char ch s = false.
Proof.
  intros Hp. induction s as [|a s IH]; [done|]. cbn.
  intros [Ha Hs]%andb_true_iff. rewrite (IH Hs), orb_false_r.
  unfold PyStr.eqb_char. apply Ascii.eqb_neq. intros ->. congruence.
Qed.

Lemma list_last_snoc2 {A} (l : list A) a b d : List.last (l ++ [a; b]) d = b.
Proof.
  induction l as [|x l IH]; [done|]. cbn [app].
  destruct (l ++ [a; b]) eqn:Hl; [by destruct l | exact IH].
Qed.

Lemma list_nth_snoc2 {A} (l : list A) a b d :
  List.nth (length (l ++ [a; b]) - 2) (l ++ [a; b]) d = a.
Proof.
  rewrite length_app. cbn [length].
  replace (length l + 2 - 2)%nat with (length l) by lia.
  induction l as [|x l IH]; [done|]. exact IH.
Qed.

End Strings.

(** ** Pseudo-versions *)

(** X10.  [parse_pseudo_version_tag] reads a pseudo-version back: for a
    base without [+], a pre-release prefix that is empty or ends with a
    dot (and has no dash or [+]), a 14-digit timestamp and an abbreviated
    commit of 6 to 40 hexadecimal characters, with or without build
    metadata after a [+], it returns exactly the timestamp and the
    commit. *)
Theorem parse_pseudo_version_tag_reads_back (base pre ts h build : string) :
  PyStr.has_char "+" base = false ->
  PyStr.has_char "+" pre = false -> PyStr.has_char "-" pre = false ->
  (pre = EmptyString \/ exists p, pre = p +:+ ".") ->
  String.length ts = 14%nat -> PyStr.isdigit ts = true ->
  fullmatch_hex_6_40 h = true ->
  (build = EmptyString \/ exists b, build = "+" +:+ b) ->
  parse_pseudo_version_tag (pseudo_version base pre ts h build) = Some (ts, h).
Proof.
  intros Hbase Hpre_plus Hpre_dash Hpre Hlen Hdig Hhex Hbuild.
  assert (Hts : PyStr.forallb_char PyStr.isdigit_char ts = true)
    by (unfold PyStr.isdigit in Hdig; by apply andb_true_iff in Hdig as [_ ?]).
  assert (Hh : PyStr.forallb_char PyStr.is_hex h = true)
    by (unfold fullmatch_hex_6_40 in Hhex; by apply andb_true_iff in Hhex as [_ ?]).
  assert (Hts_plus := forallb_char_no "+" _ ts eq_refl Hts).
  assert (Hts_dash := forallb_char_no "-" _ ts eq_refl Hts).
  assert (Hts_dot := forallb_char_no "." _ ts eq_refl Hts).
  assert (Hh_plus := forallb_char_no "+" _ h eq_refl Hh).
  assert (Hh_dash := forallb_char_no "-" _ h eq_refl Hh).
  set (body := base +:+ "-" +:+ (pre +:+ ts) +:+ "-" +:+ h).
  assert (Htag : pseudo_version base pre ts h build = body +:+ build).
  { unfold pseudo_version, body. by rewrite !append_assoc'. }
  assert (Hbody_plus : PyStr.has_char "+" body = false).
  { unfold body. rewrite !has_char_append, Hbase, Hpre_plus, Hts_plus, Hh_plus.
    reflexivity. }
  assert (Hfirst : List.hd EmptyString
                     (PyStr.split_on "+" (pseudo_version base pre ts h build))
                   = body).
  { rewrite Htag. destruct Hbuild as [->|(b & ->)].
    - by rewrite append_empty_r, split_on_plain.
    - change ("+" +:+ b) with (String "+" b).
      rewrite split_on_app_sep, (split_on_plain _ body) by done. reflexivity. }
  assert (Hparts : PyStr.split_on "-" body
                   = PyStr.split_on "-" base ++ [pre +:+ ts; h]).
  { unfold body. change ("-" +:+ ?x) with (String "-" x).
    rewrite split_on_app_sep. f_equal.
    change ("-" +:+ h) with (String "-" h).
    rewrite split_on_app_sep, !split_on_plain; [done..|].
    by rewrite has_char_append, Hpre_dash, Hts_dash. }
  assert (Hstamp : List.last (PyStr.split_on "." (pre +:+ ts)) EmptyString = ts).
  { destruct Hpre as [->|(p & ->)].
    - by rewrite append_nil, split_on_plain.
    - rewrite append_assoc'. change ("." +:+ ts) with (String "." ts).
      rewrite split_on_app_sep, (split_on_plain _ ts) by done.
      rewrite list_last_app by done. reflexivity. }
  unfold parse_pseudo_version_tag. rewrite Hfirst, Hparts.
  assert (Hlen3 : (length (PyStr.split_on "-" base ++ [pre +:+ ts; h]) <? 3)%nat
                  = false).
  { apply Nat.ltb_ge. rewrite length_app. cbn [length].
    pose proof (split_on_from_nonempty "-" EmptyString base) as Hne.
    unfold PyStr.split_on. destruct (PyStr.split_on_from "-" "" base); [done|].
    cbn [length]. lia. }
  rewrite Hlen3, list_last_snoc2, list_nth_snoc2, Hstamp, Hlen, Hdig, Hhex.
  reflexivity.
Qed.

Lemma parse_pseudo_version_tag_reads_back_witness :
  parse_pseudo_version_tag "v1.2.4-0.20200815063812-42c35b437635+incompatible"
  = Some ("20200815063812", "42c35b437635").
Proof.
  apply (parse_pseudo_version_tag_reads_back "v1.2.4" "0." "20200815063812"
           "42c35b437635" "+incompatible"); try reflexivity.
  - right. by exists "0".
  - right. by exists "incompatible".
Defined.

(** ** Cache files: keys written and read back *)

Section CacheKeys.

Lemma startswith_app p s : PyStr.startswith p (p +:+ s) = true.
Proof.
  induction p as [|a p IH]; [by destruct s|].
  rewrite append_cons. cbn. unfold PyStr.eqb_char. by rewrite Ascii.eqb_refl, IH.
Qed.

Lemma drop_app p s : PyStr.drop (String.length p) (p +:+ s) = s.
Proof.
  induction p as [|a p IH]; [by destruct s|]. rewrite append_cons. cbn. apply IH.
Qed.

Lemma split_once_here sep s :
  PyStr.startswith sep s = true ->
  split_once sep s = Some (EmptyString, PyStr.drop (String.length sep) s).
Proof. intros H. destruct s; cbn [split_once]; by rewrite H. Qed.

(** The text before the first occurrence of the separator is recovered
    when it does not contain the separator's first character. *)
Lemma split_once_key c0 sep before after :
  PyStr.has_char c0 before = false ->
  split_once (String c0 sep) (before +:+ String c0 sep +:+ after)
  = Some (before, after).
Proof.
  intros Hfirst. induction before as [|c before IH].
  - rewrite append_nil, split_once_here by apply startswith_app.
    by rewrite drop_app.
  - cbn [PyStr.has_char] in Hfirst. apply orb_false_iff in Hfirst as [Hc Hrest].
    rewrite append_cons. cbn [split_once PyStr.startswith].
    unfold PyStr.eqb_char in *. rewrite Ascii.eqb_sym, Hc. cbn [andb].
    by rewrite (IH Hrest).
Qed.

Lemma split_once_sound sep s before after :
  split_once sep s = Some (before, after) -> s = before +:+ sep +:+ after.
Proof.
  assert (Hstart : forall p t, PyStr.startswith p t = true ->
                     t = p +:+ PyStr.drop (String.length p) t).
  { induction p as [|a p IH]; intros t Ht; [by destruct t|].
    destruct t as [|b t]; [done|]. cbn in Ht.
    apply andb_true_iff in Ht as [Hab Ht]. apply Ascii.eqb_eq in Hab as ->.
    rewrite append_cons. cbn. f_equal. by apply IH. }
  revert before. induction s as [|c s IH]; intros before; cbn [split_once].
  - destruct (PyStr.startswith sep EmptyString) eqn:Hs; [|done].
    intros [= <- <-]. rewrite append_nil. by apply Hstart.
  - destruct (PyStr.startswith sep (String c s)) eqn:Hs.
    + intros [= <- <-]. rewrite append_nil. by apply Hstart.
    + destruct (split_once sep s) as [[b0 a0]|]; [|done].
      intros [= <- <-]. rewrite append_cons. f_equal. by apply IH.
Qed.

Lemma contains_app_sep sep before after :
  PyStr.contains sep (before +:+ sep +:+ after) = true.
Proof.
  induction before as [|c before IH].
  - rewrite append_nil.
    destruct (sep +:+ after) eqn:Heq; cbn [PyStr.contains];
      rewrite <- Heq, startswith_app; done.
  - rewrite append_cons. cbn [PyStr.contains]. rewrite IH. apply orb_true_r.
Qed.

Lemma contains_no_first c0 sep s :
  PyStr.has_char c0 s = false -> PyStr.contains (String c0 sep) s = false.
Proof.
  induction s as [|c s IH]; [done|]. cbn [PyStr.has_char PyStr.contains].
  intros [Hc Hs]%orb_false_iff. rewrite (IH Hs), orb_false_r.
  cbn. unfold PyStr.eqb_char in *. by rewrite Ascii.eqb_sym, Hc.
Qed.

(** A dictionary filled by a loop that stores each item under a key
    computed from the item's own key, when that computation is one to
    one on the items. *)
Lemma fold_insert_lookup `{Countable K1, Countable K2} {V : Type}
  (f : K1 -> option K2) (l : list (K1 * V)) (k : K2) (v : V) :
  NoDup l.*1 ->
  (forall a b, a ∈ l.*1 -> b ∈ l.*1 -> f a = Some k -> f b = Some k -> a = b) ->
  foldl (fun (m : gmap K2 V) item =>
           match f item.1 with Some k' => <[k' := item.2]> m | None => m end)
        ∅ l !! k = Some v
  <-> exists a, (a, v) ∈ l /\ f a = Some k.
Proof.
  induction l as [|x l IH] using rev_ind; intros Hnd Hinj.
  - cbn. rewrite lookup_empty. split; [done|].
    intros (a & Hin & _). by apply elem_of_nil in Hin.
  - rewrite fmap_app in Hnd, Hinj. cbn [fmap list_fmap] in Hnd, Hinj.
    apply NoDup_app in Hnd as (Hnd & Hfresh & _).
    assert (IH' := IH Hnd (fun a b Ha Hb => Hinj a b
                     (proj2 (elem_of_app _ _ _) (or_introl Ha))
                     (proj2 (elem_of_app _ _ _) (or_introl Hb)))).
    clear IH. rewrite foldl_snoc.
    assert (Hx : x.1 ∈ l.*1 ++ [x.1])
      by (apply elem_of_app; right; by apply list_elem_of_singleton).
    destruct (f x.1) as [k'|] eqn:Hfx.
    + destruct (decide (k' = k)) as [->|Hne].
      * rewrite lookup_insert_eq. split.
        -- intros [= <-]. exists x.1. split; [|done].
           apply elem_of_app. right. apply list_elem_of_singleton. by destruct x.
        -- intros (a & Hin & Hfa). apply elem_of_app in Hin as [Hin|Hin].
           ++ exfalso. apply (Hfresh a).
              ** apply list_elem_of_fmap. by exists (a, v).
              ** assert (a = x.1) as ->; [|by apply list_elem_of_singleton].
                 apply Hinj; try done. apply elem_of_app. left.
                 apply list_elem_of_fmap. by exists (a, v).
           ++ apply list_elem_of_singleton in Hin. by subst.
      * rewrite lookup_insert_ne by done. rewrite IH'. split.
        -- intros (a & Hin & Hfa). exists a. split; [|done].
           apply elem_of_app. by left.
        -- intros (a & Hin & Hfa). apply elem_of_app in Hin as [Hin|Hin]; [eauto|].
           apply list_elem_of_singleton in Hin. subst. cbn in Hfx. congruence.
    + rewrite IH'. split.
      * intros (a & Hin & Hfa). exists a. split; [|done].
        apply elem_of_app. by left.
      * intros (a & Hin & Hfa). apply elem_of_app in Hin as [Hin|Hin]; [eauto|].
        apply list_elem_of_singleton in Hin. subst. cbn in Hfx. congruence.
Qed.

Lemma cache_key_split url ref :
  PyStr.has_char "|" url = false ->
  split_once "|||" (_cache_key url ref) = Some (url, ref).
Proof. intros Hurl. unfold _cache_key. by apply (split_once_key "|" "||"). Qed.

Lemma load_ls_remote_cache_fold data :
  load_ls_remote_cache data ∅
  = foldl (fun (m : gmap UrlKey (option string)) item =>
             match split_once "|||" item.1 with
             | Some k' => <[k' := item.2]> m
             | None => m
             end) ∅ data.
Proof.
  unfold load_ls_remote_cache. generalize (∅ : gmap UrlKey (option string)).
  induction data as [|x data IH]; intros m; [done|]. cbn [foldl].
  rewrite IH. f_equal. unfold load_ls_remote_entry.
  by destruct (split_once "|||" x.1) as [[url ref]|].
Qed.

End CacheKeys.

(** X11.  What [save_ls_remote_cache] writes, [load_ls_remote_cache]
    reads back: if no URL in the cache contains the character [|], loading
    the saved file into an empty cache gives the cache that was saved.
    (The key written is [url|||ref], and it is cut at the first [|||].) *)
Theorem ls_remote_cache_file_round_trip
  (items : list (UrlKey * option string)) (data : list (string * option string)) :
  NoDup items.*1 ->
  (forall item, item ∈ items -> PyStr.has_char "|" item.1.1 = false) ->
  NoDup data.*1 ->
  list_to_map data = ls_remote_payload items ->
  load_ls_remote_cache data ∅ = list_to_map items.
Proof.
  intros Hitems Hbar Hdata Hfile.
  assert (Hpayload : forall s v,
    ls_remote_payload items !! s = Some v
    <-> exists key, (key, v) ∈ items /\ _cache_key key.1 key.2 = s).
  { intros s v. unfold ls_remote_payload.
    rewrite (fold_insert_lookup (fun key : UrlKey => Some (_cache_key key.1 key.2))
               items s v Hitems).
    - split; intros (key & Hin & Hk); exists key; (split; [done | congruence]).
    - intros a b Ha Hb [= Hka] [= Hkb].
      apply list_elem_of_fmap in Ha as ([a' va] & -> & Ha).
      apply list_elem_of_fmap in Hb as ([b' vb] & -> & Hb).
      cbn in *. apply Hbar in Ha, Hb. cbn in Ha, Hb.
      pose proof (cache_key_split a'.1 a'.2 Ha) as Hsa.
      pose proof (cache_key_split b'.1 b'.2 Hb) as Hsb.
      rewrite Hka in Hsa. rewrite Hkb in Hsb.
      destruct a', b'. cbn in *. congruence. }
  apply map_eq. intros k. apply option_eq. intros v.
  rewrite load_ls_remote_cache_fold.
  rewrite (fold_insert_lookup (split_once "|||") data k v Hdata).
  - rewrite <- elem_of_list_to_map by done. split.
    + intros (s & Hin & Hs). apply elem_of_list_to_map in Hin; [|done].
      rewrite Hfile in Hin. apply Hpayload in Hin as (key & Hkey & <-).
      rewrite cache_key_split in Hs by (by apply (Hbar (key, v))).
      injection Hs as <-. by destruct key.
    + intros Hin. exists (_cache_key k.1 k.2). split.
      * apply elem_of_list_to_map; [done|]. rewrite Hfile.
        apply Hpayload. by exists k.
      * rewrite cache_key_split by (by apply (Hbar (k, v))). by destruct k.
  - intros a b _ _ Ha Hb. destruct k as [url ref].
    apply split_once_sound in Ha, Hb. congruence.
Qed.

Lemma ls_remote_cache_file_round_trip_witness :
  load_ls_remote_cache
    [ ("https://github.com/spf13/cobra|||refs/tags/v1.8.0",
       Some "2222222222222222222222222222222222222222");
      ("https://github.com/spf13/cobra|||refs/tags/v9.9.9", None) ] ∅
  = list_to_map
      [ (("https://github.com/spf13/cobra", "refs/tags/v9.9.9"), None);
        (("https://github.com/spf13/cobra", "refs/tags/v1.8.0"),
         Some "2222222222222222222222222222222222222222") ].
Proof.
  apply ls_remote_cache_file_round_trip.
  - apply (bool_decide_unpack _). vm_compute. reflexivity.
  - intros item Hin. apply elem_of_cons in Hin as [->|Hin]; [reflexivity|].
    apply list_elem_of_singleton in Hin as ->. reflexivity.
  - apply (bool_decide_unpack _). vm_compute. reflexivity.
  - vm_compute. reflexivity.
Defined.

(** X12.  An override that [save_repo_overrides] writes is stored under
    the same key again by [_load_overrides_from_file], provided the key is
    in the form [_normalise_override_key] produces, the module path holds
    neither [|] nor [@], and the version is not [*]; an override pinned
    to a version written [*] comes back as the wildcard override of the
    module. *)
Theorem override_file_key_round_trip (key : OverrideKey) :
  _normalise_override_key key.1 key.2 = Ret key ->
  PyStr.has_char "|" key.1 = false ->
  PyStr.has_char "@" key.1 = false ->
  (key.2 <> Some "*"
   -> parse_override_file_key (override_file_key key) = Ret key)
  /\ (key.2 = Some "*"
      -> parse_override_file_key (override_file_key key) = Ret (key.1, None)).
Proof.
  destruct key as [m [v|]]; cbn [fst snd]; intros Hnorm Hbar Hat.
  - assert (Hm : _normalise_override_key m None = Ret (m, None)).
    { unfold _normalise_override_key in *.
      destruct (PyStr.is_empty (PyStr.strip m)); [done|]. congruence. }
    unfold parse_override_file_key, override_file_key. cbn [fst snd].
    rewrite contains_app_sep, (split_once_key "|" "||") by done.
    split.
    + intros Hstar. destruct (String.eqb v "*") eqn:Hv; [|done].
      apply String.eqb_eq in Hv. congruence.
    + intros [= ->]. done.
  - unfold parse_override_file_key, override_file_key. cbn [fst snd].
    rewrite (contains_no_first "|" "||") by done. rewrite Hat. cbn [andb].
    split; [done|]. done.
Qed.

Lemma override_file_key_round_trip_witness :
  parse_override_file_key "github.com/docker/docker|||v25.0.0"
  = Ret ("github.com/docker/docker", Some "v25.0.0").
Proof.
  destruct (override_file_key_round_trip
              ("github.com/docker/docker", Some "v25.0.0")) as [Hback _].
  - reflexivity.
  - reflexivity.
  - reflexivity.
  - apply Hback. discriminate.
Defined.

(** ** Words and white space *)

Section Tokens.

Implicit Types (s t w : string) (tokens : list string).

Lemma forallb_char_app p s t :
  PyStr.forallb_char p (s +:+ t) = PyStr.forallb_char p s && PyStr.forallb_char p t.
Proof.
  induction s as [|c s IH]; [done|]. rewrite append_cons. cbn.
  by rewrite IH, andb_assoc.
Qed.

Lemma lstrip_spaces p ws s :
  PyStr.forallb_char p ws = true ->
  PyStr.lstrip_with p (ws +:+ s) = PyStr.lstrip_with p s.
Proof.
  induction ws as [|c ws IH]; [done|]. cbn [PyStr.forallb_char].
  intros [Hc Hws]%andb_true_iff. rewrite append_cons. cbn [PyStr.lstrip_with].
  rewrite Hc. by apply IH.
Qed.

Lemma rstrip_spaces p s ws :
  PyStr.forallb_char p ws = true ->
  PyStr.rstrip_with p (s +:+ ws) = PyStr.rstrip_with p s.
Proof.
  intros Hws.
  assert (Hnil : PyStr.rstrip_with p ws = EmptyString).
  { induction ws as [|c ws IH]; [done|]. cbn in Hws |- *.
    apply andb_true_iff in Hws as [Hc Hws]. by rewrite (IH Hws), Hc. }
  induction s as [|c s IH]; [by rewrite append_nil|].
  rewrite append_cons. cbn [PyStr.rstrip_with]. by rewrite IH.
Qed.

Lemma rstrip_word p s w :
  w <> EmptyString -> PyStr.forallb_char (fun c => negb (p c)) w = true ->
  PyStr.rstrip_with p (s +:+ w) = s +:+ w.
Proof.
  intros Hne Hw.
  assert (Hword : PyStr.rstrip_with p w = w).
  { clear Hne. induction w as [|c w IH]; [done|]. cbn in Hw |- *.
    apply andb_true_iff in Hw as [Hc Hw]. rewrite (IH Hw).
    destruct w; [|done]. by destruct (p c). }
  induction s as [|c s IH]; [by rewrite append_nil|].
  rewrite append_cons. cbn [PyStr.rstrip_with]. rewrite IH.
  destruct (s +:+ w) eqn:Hsw; [|done]. by destruct s, w.
Qed.

Lemma token_inv w :
  is_token w = true ->
  w <> EmptyString
  /\ PyStr.forallb_char (fun c => negb (PyStr.isspace c)) w = true.
Proof.
  unfold is_token. intros [Hne Hw]%andb_true_iff. split; [|done]. by destruct w.
Qed.

(** The words of a line that is made of words and single spaces. *)
Lemma split_ws_word cur w rest :
  PyStr.forallb_char (fun c => negb (PyStr.isspace c)) w = true ->
  PyStr.split_ws_from (Some cur) (w +:+ rest)
  = PyStr.split_ws_from (Some (cur +:+ w)) rest.
Proof.
  revert cur. induction w as [|c w IH]; intros cur Hw.
  - by rewrite append_nil, append_empty_r.
  - cbn in Hw. apply andb_true_iff in Hw as [Hc Hw]. apply negb_true_iff in Hc.
    rewrite append_cons. cbn [PyStr.split_ws_from]. rewrite Hc. cbn [default].
    rewrite IH by done. by rewrite append_snoc.
Qed.

Lemma split_ws_first w rest :
  is_token w = true ->
  PyStr.split_ws_from None (w +:+ rest) = PyStr.split_ws_from (Some w) rest.
Proof.
  intros [Hne Hw]%token_inv. destruct w as [|c w]; [done|].
  cbn in Hw. apply andb_true_iff in Hw as [Hc Hw]. apply negb_true_iff in Hc.
  rewrite append_cons. cbn [PyStr.split_ws_from]. rewrite Hc. cbn [default].
  unfold PyStr.snoc. rewrite append_nil.
  by rewrite (split_ws_word (String c EmptyString) w rest Hw).
Qed.

Lemma split_join_tokens tokens :
  Forall (fun w => is_token w = true) tokens ->
  PyStr.split (PyStr.join " " tokens) = tokens.
Proof.
  unfold PyStr.split. induction 1 as [|w tokens Hw Htokens IH]; [done|].
  destruct tokens as [|w' tokens].
  - cbn [PyStr.join]. rewrite <- (append_empty_r w) at 1.
    by rewrite split_ws_first.
  - change (PyStr.join " " (w :: w' :: tokens))
      with (w +:+ String " " (PyStr.join " " (w' :: tokens))).
    rewrite split_ws_first by done. cbn [PyStr.split_ws_from].
    change (PyStr.isspace " ") with true. cbn iota. by rewrite IH.
Qed.

(** A line of words, with white space around it, stripped. *)
Lemma strip_join_tokens ws1 ws2 w tokens :
  PyStr.forallb_char PyStr.isspace ws1 = true ->
  PyStr.forallb_char PyStr.isspace ws2 = true ->
  Forall (fun w => is_token w = true) (w :: tokens) ->
  PyStr.strip (ws1 +:+ PyStr.join " " (w :: tokens) +:+ ws2)
  = PyStr.join " " (w :: tokens).
Proof.
  intros H1 H2 Htokens. unfold PyStr.strip.
  rewrite lstrip_spaces by done.
  assert (Hfirst : exists c body,
            PyStr.join " " (w :: tokens) = String c body
            /\ PyStr.isspace c = false).
  { apply Forall_cons in Htokens as [[Hne Hw]%token_inv _].
    destruct w as [|c w]; [done|]. cbn in Hw.
    apply andb_true_iff in Hw as [Hc _]. apply negb_true_iff in Hc.
    destruct tokens; cbn [PyStr.join]; rewrite ?append_cons; eauto. }
  destruct Hfirst as (c & body & Hjoin & Hc).
  assert (Hl : PyStr.lstrip_with PyStr.isspace
                 (PyStr.join " " (w :: tokens) +:+ ws2)
               = PyStr.join " " (w :: tokens) +:+ ws2).
  { rewrite Hjoin, append_cons. cbn [PyStr.lstrip_with]. by rewrite Hc. }
  rewrite Hl, rstrip_spaces by done. clear Hl Hjoin Hc c body H1 H2.
  revert w Htokens. induction tokens as [|w' tokens IH]; intros w Htokens.
  - apply Forall_cons in Htokens as [[Hne Hw]%token_inv _]. cbn [PyStr.join].
    rewrite <- (append_nil w). by apply rstrip_word.
  - apply Forall_cons in Htokens as [Hw Hrest].
    change (PyStr.join " " (w :: w' :: tokens))
      with (w +:+ String " " (PyStr.join " " (w' :: tokens))).
    specialize (IH w' Hrest).
    assert (Hne : PyStr.join " " (w' :: tokens) <> EmptyString).
    { apply Forall_cons in Hrest as [[Hne' _]%token_inv _].
      destruct w'; [done|]. by destruct tokens. }
    clear Hw Hrest. induction w as [|c w IHw].
    + rewrite append_nil. cbn [PyStr.rstrip_with]. rewrite IH.
      by destruct (PyStr.join " " (w' :: tokens)).
    + rewrite append_cons. cbn [PyStr.rstrip_with]. rewrite IHw.
      by destruct w.
Qed.

Lemma startswith_app_l p s t :
  PyStr.startswith p s = true -> PyStr.startswith p (s +:+ t) = true.
Proof.
  revert s. induction p as [|a p IH]; intros s; [done|].
  destruct s as [|c s]; [done|]. rewrite append_cons. cbn.
  intros [Hac Hs]%andb_true_iff. by rewrite Hac, IH.
Qed.

(** A line that starts with a word: a prefix ending in a space matches
    only if the word is the prefix without the space. *)
Lemma startswith_word p q w rest :
  PyStr.forallb_char (fun c => negb (PyStr.isspace c)) p = true ->
  PyStr.forallb_char (fun c => negb (PyStr.isspace c)) w = true ->
  PyStr.startswith (p +:+ String " " q) (w +:+ String " " rest) = true ->
  w = p.
Proof.
  revert w. induction p as [|a p IH]; intros w Hp Hw Hs.
  - destruct w as [|c w]; [done|]. rewrite append_nil, append_cons in Hs.
    cbn [PyStr.startswith PyStr.forallb_char] in Hs, Hw.
    apply andb_true_iff in Hs as [Hc _].
    apply Ascii.eqb_eq in Hc as <-. done.
  - cbn [PyStr.forallb_char] in Hp. apply andb_true_iff in Hp as [Ha Hp].
    destruct w as [|c w].
    + rewrite append_nil, append_cons in Hs. cbn [PyStr.startswith] in Hs.
      apply andb_true_iff in Hs as [Hc _]. apply Ascii.eqb_eq in Hc as ->. done.
    + cbn [PyStr.forallb_char] in Hw. apply andb_true_iff in Hw as [_ Hw].
      rewrite !append_cons in Hs. cbn [PyStr.startswith] in Hs.
      apply andb_true_iff in Hs as [Hc Hs]. apply Ascii.eqb_eq in Hc as ->.
      f_equal. by apply IH.
Qed.

End Tokens.

(** ** Reading the requirements of a module file *)

Section GoModRequires.

Lemma startswith_comment_word w rest :
  PyStr.startswith "//" w = false ->
  PyStr.startswith "//" (w +:+ String " " rest) = false.
Proof.
  destruct w as [|c [|d w]]; rewrite ?append_cons, ?append_nil;
    cbn [PyStr.startswith]; intros H; done.
Qed.

Lemma requires_step_line modules module version indirect :
  plain_module module = true -> is_token version = true ->
  requires_step (true, modules) (require_line (module, version, indirect))
  = (true, modules ++ [(module, version)]).
Proof.
  unfold plain_module.
  intros [[Hm Hreq%negb_true_iff]%andb_true_iff Hcomment%negb_true_iff]%andb_true_iff
         Hv.
  apply String.eqb_neq in Hreq.
  set (extra := if indirect then ["//"; "indirect"] else []).
  assert (Htokens : Forall (fun w => is_token w = true)
                      (module :: version :: extra)).
  { repeat apply Forall_cons_2; try done.
    subst extra. destruct indirect; repeat constructor. }
  unfold requires_step, require_line. fold extra.
  rewrite strip_join_tokens by done.
  rewrite split_join_tokens by done.
  change (PyStr.join " " (module :: version :: extra))
    with (module +:+ String " " (PyStr.join " " (version :: extra))).
  destruct (token_inv _ Hm) as [Hne Hword].
  set (rest := PyStr.join " " (version :: extra)).
  assert (H1 : PyStr.startswith "require (" (module +:+ String " " rest) = false).
  { apply not_true_is_false. intros Hs. apply Hreq.
    by apply (startswith_word "require" "(" module rest). }
  assert (H2 : PyStr.startswith "require " (module +:+ String " " rest) = false).
  { apply not_true_is_false. intros Hs. apply Hreq.
    by apply (startswith_word "require" EmptyString module rest). }
  assert (H3 : String.eqb (module +:+ String " " rest) ")" = false).
  { apply String.eqb_neq. destruct module as [|c [|d module]]; [done|..];
      rewrite ?append_cons, ?append_nil; congruence. }
  rewrite H1, H2, H3, (startswith_comment_word _ _ Hcomment).
  destruct module as [|c module]; [done|]. by rewrite append_cons.
Qed.

(** X13. [parse_go_mod_requires] reads a [require (...)] block back: every
    line made of a tab, a module path, a version and an optional
    [// indirect] remark yields the pair of path and version, in the order
    of the file, provided the path is a word other than [require] that does
    not start with [//] and the version is a word. *)
Theorem parse_go_mod_requires_reads_block
    (reqs : list (string * string * bool)) :
  Forall (fun req => plain_module req.1.1 = true
                     /\ is_token req.1.2 = true) reqs ->
  parse_go_mod_requires (Some (require_block reqs)) = map fst reqs.
Proof.
  intros Hreqs. unfold parse_go_mod_requires, require_block.
  cbn [foldl]. rewrite foldl_app.
  assert (Hblock : forall modules,
            foldl requires_step (true, modules) (map require_line reqs)
            = (true, modules ++ map fst reqs)).
  { induction Hreqs as [|[[module version] indirect] reqs [Hm Hv] _ IH];
      intros modules.
    - by rewrite app_nil_r.
    - cbn [map foldl fst]. rewrite requires_step_line by done.
      rewrite IH. by rewrite <- app_assoc. }
  change (requires_step (false, []) ("require (" +:+ newline))
    with (true, @nil (string * string)).
  by rewrite Hblock.
Qed.

Lemma parse_go_mod_requires_reads_block_witness :
  parse_go_mod_requires
    (Some (require_block
             [("github.com/spf13/cobra", "v1.8.0", false);
              ("golang.org/x/sys", "v0.0.0-20220715151400-c0bba94af5f8", true)]))
  = [("github.com/spf13/cobra", "v1.8.0");
     ("golang.org/x/sys", "v0.0.0-20220715151400-c0bba94af5f8")].
Proof.
  apply (parse_go_mod_requires_reads_block
           [("github.com/spf13/cobra", "v1.8.0", false);
            ("golang.org/x/sys", "v0.0.0-20220715151400-c0bba94af5f8", true)]).
  repeat constructor.
Defined.

End GoModRequires.

(** ** Correcting a commit hash from its ref *)

Section Correction.

Lemma lower_char_idem c : lower_char (lower_char c) = lower_char c.
Proof. by destruct c as [[] [] [] [] [] [] [] []]. Qed.

Lemma lower_idem s : lower (lower s) = lower s.
Proof.
  induction s as [|c s IH]; [done|]. cbn [lower]. by rewrite lower_char_idem, IH.
Qed.

Lemma lower_nonempty s : s <> EmptyString -> lower s <> EmptyString.
Proof. by destruct s. Qed.

Lemma peeled_ref_differs ref : ref +:+ "^{}" <> ref.
Proof.
  induction ref as [|c ref IH]; [done|]. rewrite append_cons. congruence.
Qed.

(** What a lookup does to the cache, whatever its outcome: entries stay,
    a hash it returns is the entry of the pair afterwards, and the only
    exception is that of a command that cannot be started. *)
Lemma git_ls_remote_effect E cfg url ref st r st' :
  git_ls_remote E cfg url ref st = (r, st') ->
  (forall key value,
     LS_REMOTE_CACHE st !! key = Some value ->
     LS_REMOTE_CACHE st' !! key = Some value)
  /\ match r with
     | Ret (Some h) => LS_REMOTE_CACHE st' !! (url, ref) = Some (Some h)
     | Ret None => True
     | Raise e => e = OSError
     end.
Proof.
  assert (Hkeep : forall (m : gmap UrlKey (option string)) v key value,
            m !! (url, ref) = None -> m !! key = Some value ->
            <[(url, ref) := v]> m !! key = Some value).
  { intros m v key value Hnone Hkey. rewrite lookup_insert_ne; [done|].
    intros Heq. destruct Heq. by pose proof (eq_trans (eq_sym Hnone) Hkey). }
  cbv beta iota zeta delta [git_ls_remote git_ls_remote_local
    git_ls_remote_network bind get_state path_exists try_except subprocess_run
    ret raise cache_ls_remote modify_state].
  destruct (LS_REMOTE_CACHE st !! (url, ref)) as [cached|] eqn:Hcached.
  { intros [= <- <-]. split; [done|]. by destruct cached. }
  intros Hrun.
  repeat (match type of Hrun with
          | context [env_exists ?a ?b ?c] => destruct (env_exists a b c)
          | context [env_run ?a ?b ?c] =>
              let rc := fresh "rc" in
              let out := fresh "out" in
              let err := fresh "err" in
              destruct (env_run a b c) as [rc out err| |]
          | context [(?rc =? 0)%Z] => destruct (rc =? 0)%Z
          | context [PyStr.is_empty ?x] => destruct (PyStr.is_empty x)
          | context [PyStr.split ?x] => destruct (PyStr.split x)
          | context [parse_ls_remote ?x] => destruct (parse_ls_remote x) as [t d]
          | context [truthy ?x] => destruct (truthy x)
          end;
          cbv beta iota zeta delta [andb negb stdout returncode] in Hrun);
    injection Hrun as <- <-; cbn;
    repeat match goal with
           | |- context [py_or ?d ?t] => destruct (py_or d t)
           end;
    (split; [by eauto|]); try done; apply lookup_insert_eq.
Qed.

Lemma other_commit_inv found vcs_hash :
  other_commit found vcs_hash = true ->
  exists h, found = Some h /\ h <> EmptyString /\ lower h <> lower vcs_hash.
Proof.
  unfold other_commit. destruct found as [h|]; [|done]. cbn [truthy default].
  intros [Hne Hdiff%negb_true_iff]%andb_true_iff. exists h. split; [done|].
  split; [by destruct h|]. by apply String.eqb_neq.
Qed.

Lemma same_commit_lower h :
  h <> EmptyString -> same_commit (Some h) (lower h) = true.
Proof.
  intros Hne. unfold same_commit. cbn [truthy default].
  rewrite lower_idem, String.eqb_refl. by destruct h.
Qed.

(** X14.  A hash that [correct_commit_hash_from_ref] returns is not
    empty, is in lower case, differs from the given hash even when case is
    ignored, and is what the remote lookup has stored for the ref or for
    its peeled form; so [is_commit_bitbake_fetchable] never answers [False]
    for it afterwards, whatever the remote does by then: it answers [True],
    unless [git] cannot be started at all. *)
Theorem corrected_hash_is_fetchable
  (E : Env) (cfg : Config) (vcs_url vcs_hash vcs_ref h : string) (st st' : State) :
  correct_commit_hash_from_ref E cfg vcs_url vcs_hash vcs_ref st
    = (Ret (Some h), st') ->
  h <> EmptyString /\ lower h = h /\ h <> lower vcs_hash
  /\ (exists found,
        lower found = h
        /\ (LS_REMOTE_CACHE st' !! (vcs_url, vcs_ref +:+ "^{}") = Some (Some found)
            \/ LS_REMOTE_CACHE st' !! (vcs_url, vcs_ref) = Some (Some found)))
  /\ forall E' cfg',
       (is_commit_bitbake_fetchable E' cfg' vcs_url h vcs_ref st').1 = Ret true
       \/ (is_commit_bitbake_fetchable E' cfg' vcs_url h vcs_ref st').1
          = Raise OSError.
Proof.
  unfold correct_commit_hash_from_ref, is_commit_bitbake_fetchable.
  destruct (PyStr.is_empty vcs_ref || negb (PyStr.startswith "refs/" vcs_ref))
    eqn:Href; [done|].
  apply orb_false_iff in Href as [-> Hrefs%negb_false_iff]. rewrite Hrefs.
  cbn [negb andb]. intros Hrun.
  apply bind_ret_inv in Hrun as (d & s1 & Hd & Hrun).
  apply git_ls_remote_effect in Hd as [_ Hd].
  destruct (other_commit d vcs_hash) eqn:Hother.
  - injection Hrun as <- <-.
    apply other_commit_inv in Hother as (x & -> & Hne & Hdiff). cbn [default from_option id].
    split; [by apply lower_nonempty|]. split; [apply lower_idem|].
    split; [done|]. split; [exists x; auto|].
    intros E' cfg'. left. unfold bind.
    rewrite (git_ls_remote_cached E' cfg' _ _ _ _ Hd).
    by rewrite same_commit_lower.
  - clear Hd Hother d.
    apply bind_ret_inv in Hrun as (c & s2 & Hc & Hrun).
    apply git_ls_remote_effect in Hc as [_ Hc].
    destruct (other_commit c vcs_hash) eqn:Hother; [|done].
    injection Hrun as <- <-.
    apply other_commit_inv in Hother as (y & -> & Hne & Hdiff). cbn [default from_option id].
    split; [by apply lower_nonempty|]. split; [apply lower_idem|].
    split; [done|]. split; [exists y; auto|].
    intros E' cfg'. unfold bind.
    destruct (git_ls_remote E' cfg' vcs_url (vcs_ref +:+ "^{}") s2)
      as [[r1|e] s3] eqn:H1.
    + apply git_ls_remote_effect in H1 as [Hkeep _].
      destruct (same_commit r1 (lower y)); [by left|].
      rewrite (git_ls_remote_cached E' cfg' _ _ _ _ (Hkeep _ _ Hc)).
      rewrite same_commit_lower by done. by left.
    + apply git_ls_remote_effect in H1 as [_ ->]. by right.
Qed.

Lemma corrected_hash_is_fetchable_witness :
  exists st',
    correct_commit_hash_from_ref env_annotated_tag cfg_default
      "https://github.com/spf13/cobra"
      "1111111111111111111111111111111111111111" "refs/tags/v1.8.0"
      initial_state
    = (Ret (Some "2222222222222222222222222222222222222222"), st')
    /\ ((is_commit_bitbake_fetchable env_all_timeouts cfg_default
           "https://github.com/spf13/cobra"
           "2222222222222222222222222222222222222222" "refs/tags/v1.8.0" st').1
        = Ret true
        \/ (is_commit_bitbake_fetchable env_all_timeouts cfg_default
              "https://github.com/spf13/cobra"
              "2222222222222222222222222222222222222222" "refs/tags/v1.8.0" st').1
           = Raise OSError).
Proof.
  eexists. split; [vm_compute; reflexivity|].
  refine (proj2 (proj2 (proj2 (proj2
            (corrected_hash_is_fetchable env_annotated_tag cfg_default
               "https://github.com/spf13/cobra"
               "1111111111111111111111111111111111111111" "refs/tags/v1.8.0"
               "2222222222222222222222222222222222222222" initial_state _ _))))
            env_all_timeouts cfg_default).
  vm_compute. reflexivity.
Defined.

End Correction.

(** ** Reading the replace directives of a module file *)

Section GoModReplaces.

Lemma split_str_from_skip sep x cur rest :
  split_str_from sep (String.length x) cur (x +:+ rest)
  = split_str_from sep 0 cur rest.
Proof.
  induction x as [|c x IH]; [by destruct rest|].
  rewrite append_cons. cbn [String.length split_str_from]. exact IH.
Qed.

Lemma startswith_no_first c0 sep s :
  PyStr.has_char c0 s = false -> PyStr.startswith (String c0 sep) s = false.
Proof.
  destruct s as [|c s]; [done|]. cbn [PyStr.has_char PyStr.startswith].
  intros [Hc _]%orb_false_iff. unfold PyStr.eqb_char in *.
  by rewrite Ascii.eqb_sym, Hc.
Qed.

Lemma split_str_from_plain c0 sep cur s :
  PyStr.has_char c0 s = false ->
  split_str_from (String c0 sep) 0 cur s = [cur +:+ s].
Proof.
  revert cur. induction s as [|c s IH]; intros cur Hs.
  - by rewrite append_empty_r.
  - cbn [split_str_from]. rewrite (startswith_no_first _ _ _ Hs).
    cbn [PyStr.has_char] in Hs. apply orb_false_iff in Hs as [_ Hs].
    rewrite IH by done. by rewrite append_snoc.
Qed.

Lemma split_str_from_sep c0 sep cur l r :
  PyStr.has_char c0 l = false ->
  split_str_from (String c0 sep) 0 cur (l +:+ String c0 sep +:+ r)
  = (cur +:+ l) :: split_str_from (String c0 sep) 0 EmptyString r.
Proof.
  revert cur. induction l as [|c l IH]; intros cur Hl.
  - rewrite append_nil, append_empty_r.
    change (String c0 sep +:+ r) with (String c0 (sep +:+ r)) at 1.
    cbn [split_str_from].
    change (String c0 (sep +:+ r)) with (String c0 sep +:+ r).
    rewrite startswith_app.
    replace (String.length (String c0 sep) - 1)%nat with (String.length sep)
      by (cbn [String.length]; lia).
    by rewrite split_str_from_skip.
  - rewrite append_cons. cbn [split_str_from].
    cbn [PyStr.has_char] in Hl. apply orb_false_iff in Hl as [Hc Hl].
    assert (Hs : PyStr.startswith (String c0 sep)
                   (String c (l +:+ String c0 sep +:+ r)) = false).
    { cbn [PyStr.startswith]. unfold PyStr.eqb_char in *.
      by rewrite Ascii.eqb_sym, Hc. }
    rewrite Hs, IH by done. by rewrite append_snoc.
Qed.

Lemma join_words_app a l b r :
  PyStr.join " " ((a :: l) ++ b :: r)
  = PyStr.join " " (a :: l) +:+ " " +:+ PyStr.join " " (b :: r).
Proof.
  revert a. induction l as [|a' l IH]; intros a; [done|].
  change (PyStr.join " " ((a :: a' :: l) ++ b :: r))
    with (a +:+ " " +:+ PyStr.join " " ((a' :: l) ++ b :: r)).
  rewrite IH.
  change (PyStr.join " " (a :: a' :: l))
    with (a +:+ " " +:+ PyStr.join " " (a' :: l)).
  by rewrite !append_assoc'.
Qed.

Lemma has_char_join ch words :
  PyStr.eqb_char " " ch = false ->
  Forall (fun w => PyStr.has_char ch w = false) words ->
  PyStr.has_char ch (PyStr.join " " words) = false.
Proof.
  intros Hch. induction 1 as [|w words Hw _ IH]; [done|].
  destruct words as [|w' words]; [done|].
  change (PyStr.join " " (w :: w' :: words))
    with (w +:+ " " +:+ PyStr.join " " (w' :: words)).
  rewrite !has_char_append, Hw, IH. cbn [PyStr.has_char orb]. by rewrite Hch.
Qed.

Lemma linebreak_is_space c : PyStr.is_linebreak c = true -> PyStr.isspace c = true.
Proof. by destruct c as [[] [] [] [] [] [] [] []]. Qed.

Lemma splitlines_from_line cur line rest :
  PyStr.forallb_char (fun c => negb (PyStr.is_linebreak c)) line = true ->
  PyStr.splitlines_from cur (line +:+ newline +:+ rest)
  = (cur +:+ line) :: PyStr.splitlines_from EmptyString rest.
Proof.
  revert cur. induction line as [|c line IH]; intros cur Hline.
  - rewrite append_nil, append_empty_r. by destruct rest.
  - cbn [PyStr.forallb_char] in Hline.
    apply andb_true_iff in Hline as [Hc%negb_true_iff Hline].
    rewrite append_cons. cbn [PyStr.splitlines_from]. rewrite Hc.
    rewrite IH by done. by rewrite append_snoc.
Qed.

Lemma splitlines_text lines :
  Forall (fun line =>
            PyStr.forallb_char (fun c => negb (PyStr.is_linebreak c)) line = true)
         lines ->
  PyStr.splitlines (text_of_lines lines) = lines.
Proof.
  unfold PyStr.splitlines. induction 1 as [|line lines Hline _ IH]; [done|].
  cbn [text_of_lines foldr]. rewrite splitlines_from_line by done.
  rewrite append_nil. f_equal. exact IH.
Qed.

Lemma plain_word_inv w :
  plain_word w = true -> is_token w = true /\ PyStr.has_char "=" w = false.
Proof.
  unfold plain_word. intros [Ht Heq%negb_true_iff]%andb_true_iff. done.
Qed.

Lemma strip_words w words :
  Forall (fun w => is_token w = true) (w :: words) ->
  forall ws1 ws2,
    PyStr.forallb_char PyStr.isspace ws1 = true ->
    PyStr.forallb_char PyStr.isspace ws2 = true ->
    PyStr.strip (ws1 +:+ PyStr.join " " (w :: words) +:+ ws2)
    = PyStr.join " " (w :: words).
Proof. intros Hw ws1 ws2 H1 H2. by apply strip_join_tokens. Qed.

Lemma replaces_step_directive replaces (d : Directive) :
  plain_directive d = true ->
  replaces_step replaces (directive_line d)
  = <[old_path d := (new_path d, default EmptyString (new_version d))]> replaces.
Proof.
  destruct d as [kw old ov new nv].
  unfold plain_directive, directive_line, left_words, right_words.
  cbn [keyword old_path old_version new_path new_version].
  set (l := optional_word ov). set (r := optional_word nv).
  intros [Hwords Hkw]%andb_true_iff.
  rewrite List.forallb_forall, <- List.Forall_forall in Hwords.
  assert (Hplain : Forall (fun w => is_token w = true /\ PyStr.has_char "=" w = false)
                     ((old :: l) ++ new :: r)).
  { eapply Forall_impl; [exact Hwords|]. intros w. apply plain_word_inv. }
  clear Hwords. apply Forall_app in Hplain as [Hl Hr].
  assert (Hlt : Forall (fun w => is_token w = true) (old :: l))
    by (eapply Forall_impl; [exact Hl|]; by intros w [? _]).
  assert (Hrt : Forall (fun w => is_token w = true) (new :: r))
    by (eapply Forall_impl; [exact Hr|]; by intros w [? _]).
  assert (Hle : PyStr.has_char "=" (PyStr.join " " (old :: l) +:+ " ") = false).
  { rewrite has_char_append, has_char_join; [done|done|].
    eapply Forall_impl; [exact Hl|]. by intros w [_ ?]. }
  assert (Hre : PyStr.has_char "=" (" " +:+ PyStr.join " " (new :: r)) = false).
  { rewrite has_char_append, has_char_join; [done|done|].
    eapply Forall_impl; [exact Hr|]. by intros w [_ ?]. }
  assert (Hall : Forall (fun w => is_token w = true)
                   ((old :: l) ++ "=>" :: new :: r)).
  { apply Forall_app. split; [done|]. by apply Forall_cons. }
  set (J := PyStr.join " " ((old :: l) ++ "=>" :: new :: r)).
  assert (HJ : J = (PyStr.join " " (old :: l) +:+ " ")
                   +:+ "=>" +:+ (" " +:+ PyStr.join " " (new :: r))).
  { unfold J. rewrite join_words_app.
    change (PyStr.join " " ("=>" :: new :: r))
      with ("=>" +:+ " " +:+ PyStr.join " " (new :: r)).
    by rewrite !append_assoc'. }
  assert (Hstrip : PyStr.strip J = J).
  { pose proof (strip_words old _ Hall EmptyString EmptyString eq_refl eq_refl)
      as Hs.
    by rewrite append_nil, append_empty_r in Hs. }
  assert (Hparts : split_str "=>" J
                   = [PyStr.join " " (old :: l) +:+ " ";
                      " " +:+ PyStr.join " " (new :: r)]).
  { rewrite HJ. unfold split_str.
    rewrite (split_str_from_sep "=" ">" EmptyString _ _ Hle).
    rewrite (split_str_from_plain "=" ">" EmptyString _ Hre).
    by rewrite !append_nil. }
  assert (Hleft : PyStr.split (PyStr.strip (PyStr.join " " (old :: l) +:+ " "))
                  = old :: l).
  { pose proof (strip_words old l Hlt EmptyString " " eq_refl eq_refl) as Hs.
    rewrite append_nil in Hs. rewrite Hs. by apply split_join_tokens. }
  assert (Hright : PyStr.split (PyStr.strip (" " +:+ PyStr.join " " (new :: r)))
                   = new :: r).
  { pose proof (strip_words new r Hrt " " EmptyString eq_refl eq_refl) as Hs.
    rewrite append_empty_r in Hs. rewrite Hs. by apply split_join_tokens. }
  assert (Hlast : hd EmptyString r = default EmptyString nv)
    by (subst r; by destruct nv).
  assert (Hfinish :
            match split_str "=>" J with
            | [part0; part1] =>
                match PyStr.split (PyStr.strip part0),
                      PyStr.split (PyStr.strip part1) with
                | old_path :: _, new_path :: right_rest =>
                    <[old_path := (new_path, hd EmptyString right_rest)]> replaces
                | _, _ => replaces
                end
            | _ => replaces
            end = <[old := (new, default EmptyString nv)]> replaces).
  { rewrite Hparts, Hleft, Hright. by rewrite Hlast. }
  unfold replaces_step. fold J. destruct kw.
  - assert (Hline : PyStr.strip ("replace " +:+ J) = "replace " +:+ J).
    { assert (Hwith : Forall (fun w => is_token w = true)
                        ("replace" :: (old :: l) ++ "=>" :: new :: r))
        by (by apply Forall_cons).
      pose proof (strip_words "replace" _ Hwith EmptyString EmptyString
                    eq_refl eq_refl) as Hs.
      rewrite append_nil, append_empty_r in Hs. exact Hs. }
    rewrite Hline, startswith_app. cbn [negb andb].
    change (PyStr.drop 8 ("replace " +:+ J))
      with (PyStr.drop (String.length "replace ") ("replace " +:+ J)).
    rewrite drop_app, Hstrip. exact Hfinish.
  - cbn [orb] in Hkw. apply negb_true_iff, String.eqb_neq in Hkw.
    assert (Hline : PyStr.strip (tab +:+ J) = J).
    { pose proof (strip_words old _ Hall tab EmptyString eq_refl eq_refl) as Hs.
      by rewrite append_empty_r in Hs. }
    assert (Hstart : PyStr.startswith "replace " J = false).
    { apply not_true_is_false. intros Hs. apply Hkw.
      apply Forall_cons in Hlt as [[_ Hold]%token_inv _].
      apply (startswith_word "replace" EmptyString old
               (PyStr.join " " (l ++ "=>" :: new :: r))); [done|done|].
      revert Hs. unfold J. clear. by destruct l. }
    rewrite Hline, Hstart. rewrite HJ at 1. rewrite contains_app_sep.
    cbn [negb andb]. exact Hfinish.
Qed.

Lemma forallb_char_impl (p q : ascii -> bool) s :
  (forall c, p c = true -> q c = true) ->
  PyStr.forallb_char p s = true -> PyStr.forallb_char q s = true.
Proof.
  intros Hpq. induction s as [|c s IH]; [done|]. cbn [PyStr.forallb_char].
  intros [Hc Hs]%andb_true_iff. by rewrite (Hpq c Hc), IH.
Qed.

Lemma forallb_char_join p words :
  p " "%char = true ->
  Forall (fun w => PyStr.forallb_char p w = true) words ->
  PyStr.forallb_char p (PyStr.join " " words) = true.
Proof.
  intros Hp. induction 1 as [|w words Hw _ IH]; [done|].
  destruct words as [|w' words]; [done|].
  change (PyStr.join " " (w :: w' :: words))
    with (w +:+ " " +:+ PyStr.join " " (w' :: words)).
  rewrite !forallb_char_app, Hw, IH. cbn [PyStr.forallb_char]. by rewrite Hp.
Qed.

Lemma directive_line_unbroken (d : Directive) :
  plain_directive d = true ->
  PyStr.forallb_char (fun c => negb (PyStr.is_linebreak c)) (directive_line d)
  = true.
Proof.
  unfold plain_directive, directive_line. intros [Hwords _]%andb_true_iff.
  rewrite List.forallb_forall, <- List.Forall_forall in Hwords.
  assert (Hword : forall w,
            plain_word w = true ->
            PyStr.forallb_char (fun c => negb (PyStr.is_linebreak c)) w = true).
  { intros w [[_ Hw]%token_inv _]%plain_word_inv.
    eapply forallb_char_impl; [|exact Hw]. intros c Hc. cbv beta in Hc.
    apply negb_true_iff in Hc. apply negb_true_iff, not_true_is_false.
    intros Hb. apply linebreak_is_space in Hb. congruence. }
  rewrite forallb_char_app. apply andb_true_iff. split; [by destruct (keyword d)|].
  apply forallb_char_join; [done|].
  apply Forall_app in Hwords as [Hl Hr]. apply Forall_app. split.
  - eapply Forall_impl; [exact Hl|]. exact Hword.
  - apply Forall_cons. split; [done|]. eapply Forall_impl; [exact Hr|]. exact Hword.
Qed.

(** X15.  [parse_go_mod_replaces] reads replace directives back: for a
    file of directive lines [old [version] => new [version]], each after
    the keyword [replace] or after a tab, whose words hold neither white
    space nor [=], the result maps every old path to the new path and the
    new version (the empty string when there is none) of the last directive
    for it; the version on the left is ignored. *)
Theorem parse_go_mod_replaces_reads_directives (directives : list Directive) :
  Forall (fun d => plain_directive d = true) directives ->
  parse_go_mod_replaces (Some (text_of_lines (map directive_line directives)))
  = foldl (fun replaces d =>
             <[old_path d := (new_path d, default EmptyString (new_version d))]>
               replaces)
          ∅ directives.
Proof.
  intros Hplain. unfold parse_go_mod_replaces.
  rewrite splitlines_text.
  - generalize (∅ : gmap string (string * string)).
    induction Hplain as [|d directives Hd _ IH]; intros replaces; [done|].
    cbn [map foldl]. rewrite replaces_step_directive by done. apply IH.
  - apply Forall_map. eapply Forall_impl; [exact Hplain|].
    intros d Hd. by apply directive_line_unbroken.
Qed.

Lemma parse_go_mod_replaces_reads_directives_witness :
  parse_go_mod_replaces
    (Some (text_of_lines (map directive_line example_directives)))
  = foldl (fun replaces d =>
             <[old_path d := (new_path d, default EmptyString (new_version d))]>
               replaces)
          ∅ example_directives.
Proof.
  apply (parse_go_mod_replaces_reads_directives example_directives).
  repeat constructor.
Defined.

End GoModReplaces.

(** ** Pinning and clearing overrides on the command line *)

Section OverrideCommands.

Lemma rstrip_cons p c s :
  PyStr.rstrip_with p (String c s)
  = match PyStr.rstrip_with p s with
    | EmptyString => if p c then EmptyString else String c EmptyString
    | r => String c r
    end.
Proof. reflexivity. Qed.

Lemma rstrip_idem p s :
  PyStr.rstrip_with p (PyStr.rstrip_with p s) = PyStr.rstrip_with p s.
Proof.
  induction s as [|c s IH]; [done|]. rewrite rstrip_cons.
  destruct (PyStr.rstrip_with p s) as [|d r] eqn:Hr.
  - destruct (p c) eqn:Hc; [done|]. cbn [PyStr.rstrip_with]. by rewrite Hc.
  - by rewrite rstrip_cons, IH.
Qed.

Lemma lstrip_head p s :
  PyStr.lstrip_with p s = EmptyString
  \/ exists c r, PyStr.lstrip_with p s = String c r /\ p c = false.
Proof.
  induction s as [|c s IH]; [by left|]. cbn [PyStr.lstrip_with].
  destruct (p c) eqn:Hc; [done|]. right. by exists c, s.
Qed.

Lemma rstrip_head p c r :
  p c = false -> exists r', PyStr.rstrip_with p (String c r) = String c r'.
Proof.
  intros Hc. cbn [PyStr.rstrip_with]. rewrite Hc.
  destruct (PyStr.rstrip_with p r); eauto.
Qed.

Lemma strip_idem s : PyStr.strip (PyStr.strip s) = PyStr.strip s.
Proof.
  unfold PyStr.strip.
  destruct (lstrip_head PyStr.isspace s) as [->|(c & r & -> & Hc)]; [done|].
  destruct (rstrip_head PyStr.isspace c r Hc) as [r' Hr]. rewrite Hr.
  cbn [PyStr.lstrip_with]. rewrite Hc. by rewrite <- Hr, rstrip_idem.
Qed.

Lemma parse_pinned_spec module version :
  PyStr.has_char "@" module = false -> version <> EmptyString ->
  _parse_override_spec (module +:+ "@" +:+ version)
  = (PyStr.strip module, Some (PyStr.strip version)).
Proof.
  intros Hm Hv. unfold _parse_override_spec.
  rewrite has_char_append, Hm. cbn [orb].
  change (PyStr.has_char "@" ("@" +:+ version)) with true. cbv iota.
  rewrite (split_once_key "@" EmptyString module version Hm).
  by destruct version.
Qed.

(** X16.  An override pinned with [--set-repo module@version url] raises
    the dirty flag and is the first candidate that
    [repo_override_candidates] returns for that module and version,
    whatever the manual and the legacy overrides hold; this needs a module
    path without [@], and a module path, a version and a URL that are not
    blank. *)
Theorem set_repo_is_first_candidate
  (module version repo_url : string) (ovs : gmap OverrideKey string * bool)
  (manual : gmap OverrideKey string) (legacy : gmap string (list string)) :
  PyStr.has_char "@" module = false ->
  PyStr.strip module <> EmptyString ->
  PyStr.strip version <> EmptyString ->
  repo_url <> EmptyString ->
  (set_repo (module +:+ "@" +:+ version) repo_url ovs).2 = true
  /\ exists rest,
       repo_override_candidates
         {| MODULE_REPO_OVERRIDES :=
              (set_repo (module +:+ "@" +:+ version) repo_url ovs).1;
            MANUAL_OVERRIDES := manual;
            REPO_OVERRIDES := legacy |}
         module (Some version)
       = Ret (repo_url :: rest).
Proof.
  intros Hat Hm Hv Hurl.
  assert (Hvne : version <> EmptyString) by (by intros ->).
  unfold set_repo. rewrite parse_pinned_spec by done.
  assert (Hve : PyStr.is_empty version = false) by (by destruct version).
  assert (Hsme : PyStr.is_empty (PyStr.strip module) = false)
    by (by destruct (PyStr.strip module)).
  assert (Hsve : PyStr.is_empty (PyStr.strip version) = false)
    by (by destruct (PyStr.strip version)).
  unfold repo_override_candidates, _normalise_override_key.
  rewrite !strip_idem, Hve, Hsme, Hsve. cbn [fst snd]. split; [done|].
  cbn [MODULE_REPO_OVERRIDES MANUAL_OVERRIDES REPO_OVERRIDES].
  rewrite lookup_insert_eq.
  match goal with
  | |- exists rest, Ret ?l = Ret (_ :: rest) =>
      assert (Hhead : head l = Some repo_url)
  end.
  { apply (legacy_head _ _ repo_url). do 3 apply add_override_head.
    unfold add_override. by destruct repo_url. }
  match goal with
  | |- exists rest, Ret ?l = Ret (_ :: rest) => destruct l as [|u rest]
  end; [done|]. injection Hhead as ->. by exists rest.
Qed.

Lemma set_repo_is_first_candidate_witness :
  (set_repo ("github.com/spf13/cobra" +:+ "@" +:+ "v1.8.0")
     "https://mirror.example.com/cobra" (∅, false)).2 = true
  /\ exists rest,
       repo_override_candidates
         {| MODULE_REPO_OVERRIDES :=
              (set_repo ("github.com/spf13/cobra" +:+ "@" +:+ "v1.8.0")
                 "https://mirror.example.com/cobra" (∅, false)).1;
            MANUAL_OVERRIDES := ∅;
            REPO_OVERRIDES := ∅ |}
         "github.com/spf13/cobra" (Some "v1.8.0")
       = Ret ("https://mirror.example.com/cobra" :: rest).
Proof.
  apply (set_repo_is_first_candidate "github.com/spf13/cobra" "v1.8.0"
           "https://mirror.example.com/cobra" (∅, false) ∅ ∅).
  - reflexivity.
  - vm_compute. discriminate.
  - vm_compute. discriminate.
  - discriminate.
Defined.

Lemma fold_delete_lookup {A} (keys : list OverrideKey)
    (m : gmap OverrideKey A) (key : OverrideKey) :
  foldl (fun m candidate => delete candidate m) m keys !! key
  = if bool_decide (key ∈ keys) then None else m !! key.
Proof.
  revert m. induction keys as [|k keys IH]; intros m; [done|].
  cbn [foldl]. rewrite IH. destruct (decide (key = k)) as [->|Hne].
  - rewrite lookup_delete_eq. rewrite (bool_decide_eq_true_2 (k ∈ k :: keys));
      [by case_bool_decide|]. apply elem_of_cons. by left.
  - rewrite lookup_delete_ne by done.
    assert (Hiff : key ∈ keys <-> key ∈ k :: keys)
      by (rewrite elem_of_cons; naive_solver).
    by rewrite (bool_decide_ext _ _ Hiff).
Qed.

Lemma clear_module_result (m : string) (ov : gmap OverrideKey string)
    (keys : list OverrideKey) :
  (forall key, key ∈ keys
               <-> key.1 = m /\ key.2 <> None /\ is_Some (ov !! key)) ->
  foldl (fun mm candidate => delete candidate mm) (delete (m, None) ov) keys
  = filter (fun kv => kv.1.1 <> m) ov
  /\ (bool_decide (is_Some (ov !! (m, None))) || negb (bool_decide (keys = []))
      = true
      <-> filter (fun kv => kv.1.1 <> m) ov <> ov).
Proof.
  intros Hspecific. split.
  - apply map_eq. intros key. apply option_eq. intros x.
    rewrite map_lookup_filter_Some, fold_delete_lookup. cbn [fst].
    case_bool_decide as Hin.
    + apply Hspecific in Hin as (Hk1 & _). naive_solver.
    + rewrite lookup_delete_Some. split.
      * intros [Hne Hx]. split; [done|]. intros Hk1. apply Hin, Hspecific.
        split; [done|]. split; [|by eauto].
        intros Hk2. apply Hne. destruct key as [k1 k2]. cbn in *. congruence.
      * intros [Hx Hk1]. split; [|done]. intros <-. by cbn in Hk1.
  - split.
    + intros [Hw|Hs%negb_true_iff]%orb_true_iff Heq.
      * apply bool_decide_eq_true in Hw as [x Hx].
        rewrite <- Heq in Hx. apply map_lookup_filter_Some in Hx as [_ Hx].
        by cbn in Hx.
      * apply bool_decide_eq_false in Hs.
        destruct keys as [|key keys]; [done|].
        assert (Hin : key ∈ key :: keys) by (apply elem_of_cons; by left).
        apply Hspecific in Hin as (Hk1 & _ & [x Hx]).
        rewrite <- Heq in Hx. apply map_lookup_filter_Some in Hx as [_ Hx].
        by cbn in Hx.
    + intros Hne.
      destruct (bool_decide (is_Some (ov !! (m, None)))
                || negb (bool_decide (keys = []))) eqn:Hr; [done|].
      exfalso. apply Hne.
      apply orb_false_iff in Hr as [Hw Hs%negb_false_iff].
      apply bool_decide_eq_false in Hw. apply bool_decide_eq_true in Hs.
      apply map_filter_id. intros key x Hx Hk1. cbn [fst] in Hk1.
      destruct key as [k1 [v|]]; cbn in Hk1; subst k1.
      * assert (Hin : (m, Some v) ∈ keys) by (apply Hspecific; by eauto).
        rewrite Hs in Hin. by apply elem_of_nil in Hin.
      * apply Hw. by eauto.
Qed.

(** X17.  [--clear-repo module] (a module path without [@] that is not
    blank) removes every dynamic override of that module -- the wildcard
    one and those of all versions -- and no other; the dirty flag is raised
    exactly when an override was removed and is never lowered. *)
Theorem clear_repo_removes_module
  (module_spec : string) (ovs : gmap OverrideKey string * bool) :
  PyStr.has_char "@" module_spec = false ->
  PyStr.strip module_spec <> EmptyString ->
  (clear_repo module_spec ovs).1
  = filter (fun kv => kv.1.1 <> PyStr.strip module_spec) ovs.1
  /\ ((clear_repo module_spec ovs).2 = true
      <-> ovs.2 = true \/ (clear_repo module_spec ovs).1 <> ovs.1).
Proof.
  intros Hat Hm.
  assert (Hsme : PyStr.is_empty (PyStr.strip module_spec) = false)
    by (by destruct (PyStr.strip module_spec)).
  unfold clear_repo, _parse_override_spec, _normalise_override_key.
  rewrite Hat, strip_idem, Hsme. cbv zeta. cbn [fst snd].
  set (m := PyStr.strip module_spec) in *.
  match goal with
  | |- foldl _ _ ?keys = _ /\ _ =>
      assert (Hspecific : forall key,
                key ∈ keys
                <-> key.1 = m /\ key.2 <> None /\ is_Some (ovs.1 !! key))
  end.
  { intros key. rewrite list_elem_of_filter, list_elem_of_fmap. split.
    - intros [[Hk1 Hk2] ([k x] & -> & Hin)]. split; [done|]. split; [done|].
      apply elem_of_map_to_list, lookup_delete_Some in Hin as [_ Hin]. eauto.
    - intros (Hk1 & Hk2 & [x Hx]). split; [done|]. exists (key, x).
      split; [done|]. apply elem_of_map_to_list, lookup_delete_Some.
      split; [|done]. intros <-. by cbn in Hk2. }
  destruct (clear_module_result m ovs.1 _ Hspecific) as [Hresult Hremoved].
  split; [exact Hresult|]. rewrite orb_true_iff. split.
  - intros [Hr|Hd]; [right|by left]. intros Heq.
    apply (proj1 Hremoved Hr). etrans; [symmetry; exact Hresult|exact Heq].
  - intros [Hd|Hne]; [by right|left]. apply Hremoved. intros Heq.
    apply Hne. etrans; [exact Hresult|exact Heq].
Qed.

Lemma clear_repo_removes_module_witness :
  (clear_repo "github.com/spf13/cobra" (example_pins, false)).1
  = filter (fun kv => kv.1.1 <> PyStr.strip "github.com/spf13/cobra")
           (example_pins, false).1
  /\ ((clear_repo "github.com/spf13/cobra" (example_pins, false)).2 = true
      <-> (example_pins, false).2 = true
          \/ (clear_repo "github.com/spf13/cobra" (example_pins, false)).1
             <> (example_pins, false).1).
Proof.
  apply (clear_repo_removes_module "github.com/spf13/cobra" (example_pins, false)).
  - reflexivity.
  - vm_compute. discriminate.
Defined.

End OverrideCommands.

(** ** Words, quotes and suffixes *)

Section Words.

Implicit Types (s t w : string).

Lemma rev_acc_app s acc : PyStr.rev_acc s acc = PyStr.rev s +:+ acc.
Proof.
  unfold PyStr.rev. revert acc. induction s as [|c s IH]; intros acc; [done|].
  cbn [PyStr.rev_acc]. rewrite IH, (IH (String c EmptyString)).
  by rewrite append_assoc'.
Qed.

Lemma rev_cons c s : PyStr.rev (String c s) = PyStr.rev s +:+ String c EmptyString.
Proof. unfold PyStr.rev at 1. cbn [PyStr.rev_acc]. apply rev_acc_app. Qed.

Lemma rev_app s t : PyStr.rev (s +:+ t) = PyStr.rev t +:+ PyStr.rev s.
Proof.
  induction s as [|c s IH]; [by rewrite append_nil, append_empty_r|].
  rewrite append_cons, !rev_cons, IH. by rewrite append_assoc'.
Qed.

Lemma rev_involutive s : PyStr.rev (PyStr.rev s) = s.
Proof.
  induction s as [|c s IH]; [done|]. by rewrite rev_cons, rev_app, IH.
Qed.

Lemma startswith_iff p s :
  PyStr.startswith p s = true <-> exists t, s = p +:+ t.
Proof.
  split.
  - revert s. induction p as [|a p IH]; intros s Hs; [by exists s|].
    destruct s as [|b s]; [done|]. cbn [PyStr.startswith] in Hs.
    apply andb_true_iff in Hs as [Hab Hs]. apply Ascii.eqb_eq in Hab as ->.
    destruct (IH s Hs) as [t ->]. by exists t.
  - intros [t ->]. apply startswith_app.
Qed.

Lemma endswith_iff p s :
  PyStr.endswith p s = true <-> exists base, s = base +:+ p.
Proof.
  unfold PyStr.endswith. rewrite startswith_iff. split.
  - intros [t Ht]. exists (PyStr.rev t).
    rewrite <- (rev_involutive s), Ht, rev_app. by rewrite rev_involutive.
  - intros [base ->]. exists (PyStr.rev base). apply rev_app.
Qed.

Lemma length_app s t :
  String.length (s +:+ t) = (String.length s + String.length t)%nat.
Proof. induction s as [|c s IH]; [done|]. rewrite append_cons. cbn. by rewrite IH. Qed.

Lemma take_app s t : PyStr.take (String.length s) (s +:+ t) = s.
Proof.
  induction s as [|c s IH]; [by destruct t|]. rewrite append_cons. cbn. by rewrite IH.
Qed.

Lemma drop_end_app s t : PyStr.drop_end (String.length t) (s +:+ t) = s.
Proof.
  unfold PyStr.drop_end. rewrite length_app.
  replace (String.length s + String.length t - String.length t)%nat
    with (String.length s) by lia.
  apply take_app.
Qed.

Lemma last_char_snoc s c : PyStr.last_char (s +:+ String c EmptyString) = Some c.
Proof. unfold PyStr.last_char. by rewrite rev_app. Qed.

Lemma last_char_inv s c :
  PyStr.last_char s = Some c -> exists t, s = t +:+ String c EmptyString.
Proof.
  unfold PyStr.last_char. destruct (PyStr.rev s) as [|d r] eqn:Hr; [done|].
  intros [= ->]. exists (PyStr.rev r).
  rewrite <- (rev_involutive s), Hr. by rewrite rev_cons.
Qed.

(** The words of a line: none is empty, none holds white space. *)
Lemma split_ws_from_words cur s :
  (forall w, cur = Some w -> is_token w = true) ->
  Forall (fun w => is_token w = true) (PyStr.split_ws_from cur s).
Proof.
  revert cur. induction s as [|c s IH]; intros cur Hcur.
  - destruct cur as [w|]; repeat constructor. by apply Hcur.
  - cbn [PyStr.split_ws_from]. destruct (PyStr.isspace c) eqn:Hc.
    + destruct cur as [w|]; [constructor; [by apply Hcur|]|]; by apply IH.
    + apply IH. intros w [= <-]. unfold is_token, PyStr.snoc.
      destruct cur as [w|]; cbn [default from_option id].
      * specialize (Hcur w eq_refl). apply token_inv in Hcur as [Hne Hw].
        rewrite forallb_char_app, Hw. cbn [PyStr.forallb_char]. rewrite Hc.
        by destruct w.
      * rewrite append_nil. cbn [PyStr.is_empty PyStr.forallb_char negb andb].
        by rewrite Hc.
Qed.

Lemma split_words s : Forall (fun w => is_token w = true) (PyStr.split s).
Proof. by apply split_ws_from_words. Qed.

Lemma lstrip_token w : is_token w = true -> PyStr.lstrip_with PyStr.isspace w = w.
Proof.
  intros [Hne Hw]%token_inv. destruct w as [|c w]; [done|]. cbn in Hw |- *.
  apply andb_true_iff in Hw as [Hc%negb_true_iff _]. by rewrite Hc.
Qed.

Lemma strip_token w : is_token w = true -> PyStr.strip w = w.
Proof.
  intros Hw. unfold PyStr.strip. rewrite lstrip_token by done.
  destruct (token_inv _ Hw) as [Hne Hall].
  rewrite <- (append_nil w). by apply rstrip_word.
Qed.

Lemma split_lstrip cur s :
  cur = None ->
  PyStr.split_ws_from cur (PyStr.lstrip_with PyStr.isspace s)
  = PyStr.split_ws_from cur s.
Proof.
  intros ->. induction s as [|c s IH]; [done|].
  cbn [PyStr.lstrip_with PyStr.split_ws_from]. destruct (PyStr.isspace c) eqn:Hc; [done|].
  cbn [PyStr.split_ws_from]. by rewrite Hc.
Qed.

Lemma split_ws_from_cons cur c s :
  PyStr.split_ws_from cur (String c s)
  = if PyStr.isspace c
    then match cur with
         | Some w => w :: PyStr.split_ws_from None s
         | None => PyStr.split_ws_from None s
         end
    else PyStr.split_ws_from (Some (PyStr.snoc (default EmptyString cur) c)) s.
Proof. reflexivity. Qed.

Lemma split_rstrip cur s :
  PyStr.split_ws_from cur (PyStr.rstrip_with PyStr.isspace s)
  = PyStr.split_ws_from cur s.
Proof.
  revert cur. induction s as [|c s IH]; intros cur; [done|].
  rewrite rstrip_cons, (split_ws_from_cons cur c s).
  destruct (PyStr.rstrip_with PyStr.isspace s) as [|d r] eqn:Hr.
  - destruct (PyStr.isspace c) eqn:Hc.
    + rewrite <- (IH None). by destruct cur.
    + rewrite <- IH. cbn [PyStr.split_ws_from]. by rewrite Hc.
  - rewrite split_ws_from_cons. destruct (PyStr.isspace c); by rewrite ?IH.
Qed.

Lemma split_strip s : PyStr.split (PyStr.strip s) = PyStr.split s.
Proof.
  unfold PyStr.split, PyStr.strip. by rewrite split_rstrip, split_lstrip.
Qed.

Lemma lstrip_strip s :
  PyStr.lstrip_with PyStr.isspace (PyStr.strip s) = PyStr.strip s.
Proof.
  unfold PyStr.strip.
  destruct (lstrip_head PyStr.isspace s) as [->|(c & r & -> & Hc)]; [done|].
  destruct (rstrip_head PyStr.isspace c r Hc) as [r' ->].
  cbn [PyStr.lstrip_with]. by rewrite Hc.
Qed.

(** A text without white space in front starts with its first word, and
    goes on, if it does, with white space. *)
Lemma first_word_prefix cur s w words :
  PyStr.split_ws_from (Some cur) s = w :: words ->
  exists tail,
    cur +:+ s = w +:+ tail
    /\ (tail = EmptyString
        \/ exists sp t, tail = String sp t /\ PyStr.isspace sp = true).
Proof.
  revert cur. induction s as [|c s IH]; intros cur.
  - intros [= <- _]. exists EmptyString. split; [done|by left].
  - rewrite split_ws_from_cons. destruct (PyStr.isspace c) eqn:Hc.
    + intros [= <- _]. exists (String c s). split; [done|]. right. eauto.
    + cbn [default from_option id]. intros Hs. apply IH in Hs as (tail & Heq & Htail).
      exists tail. split; [|done]. by rewrite <- Heq, append_snoc.
Qed.

Lemma startswith_comment_first_word s w words :
  PyStr.split s = w :: words ->
  PyStr.startswith "//" (PyStr.strip s) = PyStr.startswith "//" w.
Proof.
  intros Hsplit. rewrite <- split_strip in Hsplit.
  assert (Hw : is_token w = true).
  { pose proof (split_words (PyStr.strip s)) as Hall. rewrite Hsplit in Hall.
    by apply Forall_cons in Hall as [? _]. }
  pose proof (lstrip_strip s) as Hl. unfold PyStr.split in Hsplit.
  destruct (PyStr.strip s) as [|c r]; [done|].
  cbn [PyStr.lstrip_with] in Hl. destruct (PyStr.isspace c) eqn:Hc.
  { exfalso. assert (Hlen : String.length (PyStr.lstrip_with PyStr.isspace r)
                            = S (String.length r)) by (by rewrite Hl).
    clear -Hlen. assert (Hle : forall t, (String.length (PyStr.lstrip_with PyStr.isspace t)
                                         <= String.length t)%nat).
    { induction t as [|a t IH]; [done|]. cbn. destruct (PyStr.isspace a); cbn; lia. }
    specialize (Hle r). lia. }
  rewrite split_ws_from_cons, Hc in Hsplit. cbn [default from_option id] in Hsplit.
  apply first_word_prefix in Hsplit as (tail & Heq & Htail).
  unfold PyStr.snoc in Heq. rewrite append_nil, append_cons, append_nil in Heq.
  rewrite Heq. apply token_inv in Hw as [Hne Hw].
  destruct w as [|a [|b w]]; [done|..]; rewrite ?append_cons, ?append_nil.
  - destruct Htail as [->|(sp & t & -> & Hsp)]; cbn [PyStr.startswith].
    + done.
    + destruct (PyStr.eqb_char "/" sp) eqn:Hs; [|done].
      apply Ascii.eqb_eq in Hs as <-. by vm_compute in Hsp.
  - cbn [PyStr.startswith]. done.
Qed.

Lemma append_inj_r s t c :
  s +:+ String c EmptyString = t +:+ String c EmptyString -> s = t.
Proof.
  revert t. induction s as [|a s IH]; intros [|b t]; rewrite ?append_cons, ?append_nil.
  - done.
  - intros [= _ Ht]. by destruct t.
  - intros [= _ Hs]. by destruct s.
  - intros [= -> Heq]. f_equal. by apply IH.
Qed.

Lemma last_char_inner inner :
  PyStr.last_char (String quote_char (inner +:+ String quote_char EmptyString))
  = Some quote_char.
Proof.
  change (String quote_char (inner +:+ String quote_char EmptyString))
    with (String quote_char inner +:+ String quote_char EmptyString).
  apply last_char_snoc.
Qed.

Lemma quoted_test inner :
  let word := String quote_char (inner +:+ String quote_char EmptyString) in
  (2 <=? String.length word)%nat
  && bool_decide (PyStr.first_char word = Some quote_char)
  && bool_decide (PyStr.last_char word = Some quote_char) = true.
Proof.
  cbv zeta. rewrite last_char_inner. cbn [PyStr.first_char String.length].
  rewrite !bool_decide_eq_true_2 by done. rewrite length_app. cbn [String.length].
  rewrite !andb_true_r. apply Nat.leb_le. lia.
Qed.

Lemma sanitize_unquoted word name :
  is_token word = true ->
  sanitize_module_name word = name <-> unquoted word name.
Proof.
  intros Hw. unfold sanitize_module_name, unquoted.
  rewrite (strip_token word Hw). destruct (token_inv _ Hw) as [Hne _].
  assert (He : PyStr.is_empty word = false) by (by destruct word).
  rewrite He.
  destruct ((2 <=? String.length word)%nat
            && bool_decide (PyStr.first_char word = Some quote_char)
            && bool_decide (PyStr.last_char word = Some quote_char)) eqn:Hq.
  - apply andb_true_iff in Hq as [[Hlen%Nat.leb_le Hfirst]%andb_true_iff Hlast].
    apply bool_decide_eq_true in Hfirst, Hlast.
    destruct word as [|c word]; [done|]. injection Hfirst as ->.
    apply last_char_inv in Hlast as [t Ht].
    destruct t as [|c' t].
    { rewrite append_nil in Ht. injection Ht as Ht. subst word. cbn in Hlen. lia. }
    rewrite append_cons in Ht. injection Ht as <- ->.
    assert (Hinner : PyStr.drop_end 1
                       (PyStr.drop 1 (String quote_char (t +:+ String quote_char "")))
                     = t).
    { cbn [PyStr.drop]. apply (drop_end_app t (String quote_char "")). }
    rewrite Hinner. split.
    + intros <-. by left.
    + intros [[= Heq]|[_ Hno]].
      * symmetry. by apply (append_inj_r _ _ quote_char).
      * by destruct (Hno t).
  - split.
    + intros <-. right. split; [done|]. intros inner ->.
      by rewrite quoted_test in Hq.
    + intros [->|[-> _]]; [|done]. by rewrite quoted_test in Hq.
Qed.

(** The parser of a line, read off the words of the line. *)
Lemma go_sum_line_spec line key module_file_only :
  go_sum_line line = Some (key, module_file_only)
  <-> checksum_entry line key module_file_only.
Proof.
  unfold go_sum_line, checksum_entry. rewrite split_strip.
  pose proof (split_words line) as Hwords.
  pose proof (startswith_comment_first_word line) as Hcomment.
  assert (Hempty : PyStr.is_empty (PyStr.strip line) = true -> PyStr.split line = []).
  { intros He. rewrite <- split_strip. by destruct (PyStr.strip line). }
  assert (Hsuffix : forall base,
            PyStr.drop_end 7 (base +:+ "/go.mod") = base)
    by (intros base; apply (drop_end_app base "/go.mod")).
  destruct (PyStr.split line) as [|m [|v [|h [|x words]]]] eqn:Hsplit;
    try (split; [by destruct (_ || _)|by intros (? & ? & ? & ? & _)]).
  apply Forall_cons in Hwords as [Hm _].
  specialize (Hcomment m _ eq_refl). rewrite Hcomment.
  destruct (PyStr.is_empty (PyStr.strip line)) eqn:He; [by specialize (Hempty eq_refl)|].
  cbn [orb]. clear Hempty He Hcomment. split.
  - destruct (PyStr.startswith "//" m) eqn:Hc; [done|].
    intros [= <- <-]. exists m, v, h. split; [done|]. split; [done|].
    split; [by apply sanitize_unquoted|]. cbn [snd].
    destruct (PyStr.endswith "/go.mod" v) eqn:Hend.
    + apply endswith_iff in Hend as [base ->]. by rewrite Hsuffix.
    + split; [done|]. intros base ->.
      assert (PyStr.endswith "/go.mod" (base +:+ "/go.mod") = true)
        by (apply endswith_iff; by exists base).
      congruence.
  - intros (m' & v' & h' & [= <- <- <-] & -> & Hname & Hversion).
    apply sanitize_unquoted in Hname; [|done]. destruct key as [name version].
    cbn [fst snd] in *. subst name. destruct module_file_only.
    + subst v.
      assert (Hend : PyStr.endswith "/go.mod" (version +:+ "/go.mod") = true)
        by (apply endswith_iff; by exists version).
      by rewrite Hend, Hsuffix.
    + destruct Hversion as [-> Hno].
      destruct (PyStr.endswith "/go.mod" version) eqn:Hend; [|done].
      apply endswith_iff in Hend as [base ->]. by destruct (Hno base).
Qed.

End Words.

(** ** The checksum file *)

Section GoSum.

Implicit Types (lines : list string) (key : ModKey).

Lemma collect_entries_snoc lines line :
  collect_entries (lines ++ [line]) = record_line (collect_entries lines) line.
Proof. unfold collect_entries. by rewrite foldl_snoc. Qed.

Lemma source_entry_snoc lines line key :
  source_entry_of (lines ++ [line]) key
  <-> source_entry_of lines key \/ go_sum_line line = Some (key, false).
Proof.
  unfold source_entry_of. rewrite go_sum_line_spec. split.
  - intros (l & Hin & Hl). apply elem_of_app in Hin as [Hin|Hin].
    + left. eauto.
    + apply list_elem_of_singleton in Hin. subst. by right.
  - intros [(l & Hin & Hl)|Hl].
    + exists l. split; [apply elem_of_app; by left | done].
    + exists line. split; [apply elem_of_app; right; by apply list_elem_of_singleton | done].
Qed.

Lemma gomod_entry_snoc lines line key :
  gomod_entry_of (lines ++ [line]) key
  <-> gomod_entry_of lines key \/ go_sum_line line = Some (key, true).
Proof.
  unfold gomod_entry_of. rewrite go_sum_line_spec. split.
  - intros (l & Hin & Hl). apply elem_of_app in Hin as [Hin|Hin].
    + left. eauto.
    + apply list_elem_of_singleton in Hin. subst. by right.
  - intros [(l & Hin & Hl)|Hl].
    + exists l. split; [apply elem_of_app; by left | done].
    + exists line. split; [apply elem_of_app; right; by apply list_elem_of_singleton | done].
Qed.

Lemma collect_entries_lookup lines key :
  entries_agree lines key (collect_entries lines !! key).
Proof.
  induction lines as [|line lines IH] using rev_ind.
  - cbn. split; intros (l & Hin & _); by apply elem_of_nil in Hin.
  - rewrite collect_entries_snoc. unfold record_line.
    pose proof (source_entry_snoc lines line key) as Hs.
    pose proof (gomod_entry_snoc lines line key) as Hg.
    destruct (go_sum_line line) as [[k g]|] eqn:Hline.
    + destruct (decide (k = key)) as [->|Hne].
      * assert (Hg' : Some (key, g) = Some (key, true) <-> g = true)
          by (split; congruence).
        assert (Hs' : Some (key, g) = Some (key, false) <-> g = false)
          by (split; congruence).
        rewrite Hs' in Hs. rewrite Hg' in Hg. clear Hs' Hg'.
        destruct g; rewrite lookup_insert_eq;
          destruct (collect_entries lines !! key) as [et|]; cbn in *;
          intuition congruence.
      * assert (Hk : forall b, Some (k, g) = Some (key, b) <-> False)
          by (intros b; split; [congruence|tauto]).
        rewrite Hk in Hs, Hg. clear Hk.
        destruct g; rewrite lookup_insert_ne by done;
          destruct (collect_entries lines !! key) as [et|]; cbn in *; tauto.
    + assert (Hk : forall b, @None (ModKey * bool) = Some (key, b) <-> False)
        by (intros b; split; [congruence|tauto]).
      rewrite Hk in Hs, Hg. clear Hk.
      destruct (collect_entries lines !! key) as [et|]; cbn in *; tauto.
Qed.

Lemma categorize_fold (m : gmap ModKey EntryTypes) :
  let r := map_fold categorize (∅, ∅) m in
  (forall key, key ∈ r.1 <-> exists et, m !! key = Some et /\ has_source et = true)
  /\ (forall key, key ∈ r.2 <->
        exists et, m !! key = Some et /\ has_source et = false /\ has_gomod et = true).
Proof.
  apply (map_fold_weak_ind
    (fun r m =>
       (forall key, key ∈ r.1 <-> exists et, m !! key = Some et /\ has_source et = true)
       /\ (forall key, key ∈ r.2 <->
             exists et, m !! key = Some et /\ has_source et = false /\ has_gomod et = true))).
  - split; intros key; (split; [set_solver|]);
      intros (et & Hl & _); by rewrite lookup_empty in Hl.
  - intros i x m' [s g] Hi [IHs IHg].
    assert (Hlk : forall key et,
      <[i:=x]> m' !! key = Some et
      <-> (key = i /\ et = x) \/ (key <> i /\ m' !! key = Some et)).
    { intros key et. destruct (decide (key = i)) as [->|Hne].
      - rewrite lookup_insert_eq. naive_solver.
      - rewrite lookup_insert_ne by done. naive_solver. }
    unfold categorize.
    destruct (has_source x) eqn:Hsx; [|destruct (has_gomod x) eqn:Hgx];
      cbn [fst snd]; split; intros key;
      rewrite ?elem_of_union, ?elem_of_singleton, ?IHs, ?IHg;
      (split;
       [ intros H; repeat destruct H as [H|H]; subst;
         try (destruct H as (et & Hl & Hrest); exists et; split;
              [apply Hlk; right; split; [congruence|done] | done]);
         try (exists x; split; [apply Hlk; by left | done])
       | intros (et & Hl & Hrest); apply Hlk in Hl as [[-> ->]|[Hne Hl]];
         first [ by left | right; by exists et | by exists et
               | destruct Hrest; congruence | congruence ] ]).
Qed.

End GoSum.

(** C9. Read by the words of its lines ([module version hash], a version
    suffix of [/go.mod] marking a module-file-only entry), [parse_go_sum]
    puts a (module, version) pair in the set of modules with source
    exactly when one of the lines is an entry of the pair without the
    suffix, and in the indirect-only set exactly when the pair has entries
    and all of them carry the suffix; the two sets are disjoint. *)
Theorem parse_go_sum_partition (lines : list string) :
  (forall key, key ∈ (parse_go_sum (Some lines)).1 <-> source_entry_of lines key)
  /\ (forall key, key ∈ (parse_go_sum (Some lines)).2
        <-> gomod_entry_of lines key /\ ~ source_entry_of lines key)
  /\ (parse_go_sum (Some lines)).1 ## (parse_go_sum (Some lines)).2.
Proof.
  cbn [parse_go_sum].
  destruct (categorize_fold (collect_entries lines)) as [Hsrc Hgm].
  assert (Hs : forall key,
    key ∈ (map_fold categorize (∅, ∅) (collect_entries lines)).1
    <-> source_entry_of lines key).
  { intros key. rewrite Hsrc.
    pose proof (collect_entries_lookup lines key) as Hk.
    destruct (collect_entries lines !! key) as [et|]; cbn in Hk; naive_solver. }
  assert (Hg : forall key,
    key ∈ (map_fold categorize (∅, ∅) (collect_entries lines)).2
    <-> gomod_entry_of lines key /\ ~ source_entry_of lines key).
  { intros key. rewrite Hgm.
    pose proof (collect_entries_lookup lines key) as Hk.
    destruct (collect_entries lines !! key) as [et|]; cbn in Hk.
    - split.
      + intros (et' & [= <-] & Hns & Hgo). split; [naive_solver|].
        intros Hsrc'. apply Hk in Hsrc'. congruence.
      + intros [Hgo Hns]. exists et. split; [done|]. split; [|naive_solver].
        destruct (has_source et); [|done]. exfalso. naive_solver.
    - naive_solver. }
  split; [exact Hs|]. split; [exact Hg|].
  intros key H1 H2. apply Hs in H1. apply Hg in H2. naive_solver.
Qed.

Lemma parse_go_sum_partition_witness :
  source_entry_of example_go_sum ("github.com/spf13/cobra", "v1.8.0")
  /\ gomod_entry_of example_go_sum ("golang.org/x/sys", "v0.15.0")
  /\ ~ source_entry_of example_go_sum ("golang.org/x/sys", "v0.15.0").
Proof.
  destruct (parse_go_sum_partition example_go_sum) as (Hsource & Hgomod & _).
  split; [apply Hsource|apply Hgomod];
    apply (bool_decide_unpack _); vm_compute; reflexivity.
Defined.

(** ** The pseudo-version resolver: windows, candidates and rounds *)

Section Window.

Lemma search_window_spec timestamp_str since until :
  search_window timestamp_str = Some (since, until)
  <-> date_window timestamp_str since until.
Proof.
  unfold search_window, date_window. split.
  - destruct (PyDate.strptime timestamp_str) as [dt|e]; [|done].
    destruct (dt_year dt <? 1970)%Z eqn:Hlo; [done|].
    destruct (9999 <? dt_year dt)%Z eqn:Hhi; [done|]. cbn [orb].
    destruct (dt_year dt =? 1)%Z; [done|].
    destruct (PyDate.add_days dt (-1)) as [b|] eqn:Hb; [|done].
    destruct (PyDate.add_days dt 1) as [a|] eqn:Ha; [|done].
    intros [= <- <-]. exists dt, b, a. repeat split; try done; lia.
  - intros (dt & b & a & -> & Hyear & -> & -> & -> & ->).
    replace (dt_year dt <? 1970)%Z with false by (symmetry; apply Z.ltb_ge; lia).
    replace (9999 <? dt_year dt)%Z with false by (symmetry; apply Z.ltb_ge; lia).
    cbn [orb].
    by replace (dt_year dt =? 1)%Z with false by (symmetry; apply Z.eqb_neq; lia).
Qed.

Lemma search_window_none timestamp_str :
  search_window timestamp_str = None
  <-> forall since until, ~ date_window timestamp_str since until.
Proof.
  split.
  - intros Hnone since until Hw. apply search_window_spec in Hw. congruence.
  - intros Hno. destruct (search_window timestamp_str) as [[since until]|] eqn:Hs;
      [|done].
    apply search_window_spec in Hs. by destruct (Hno since until).
Qed.

End Window.

Section Candidates.

Lemma rstrip_decomp p s :
  exists ws, s = PyStr.rstrip_with p s +:+ ws /\ PyStr.forallb_char p ws = true.
Proof.
  induction s as [|c s (ws & Hs & Hws)]; [by exists EmptyString|].
  rewrite rstrip_cons. destruct (PyStr.rstrip_with p s) as [|d r] eqn:Hr.
  - rewrite append_nil in Hs. subst ws. destruct (p c) eqn:Hc.
    + exists (String c s). split; [done|]. cbn. by rewrite Hc.
    + exists s. by split.
  - exists ws. split; [|done]. rewrite append_cons. by f_equal.
Qed.

Lemma rstrip_last p s f c :
  PyStr.rstrip_with p s = f +:+ String c EmptyString -> p c = false.
Proof.
  revert f. induction s as [|a s IH]; intros f; [by destruct f|].
  rewrite rstrip_cons. destruct (PyStr.rstrip_with p s) as [|d r] eqn:Hr.
  - destruct (p a) eqn:Ha; [by destruct f|].
    destruct f as [|b f]; [by intros [= ->]|].
    rewrite append_cons. intros [= _ Hf]. by destruct f.
  - destruct f as [|b f]; [done|]. rewrite append_cons. intros [= _ Hf]. eauto.
Qed.

Lemma split_on_last_decomp ch cur s :
  exists front,
    cur +:+ s = front +:+ List.last (PyStr.split_on_from ch cur s) EmptyString
    /\ (front = EmptyString \/ exists f, front = f +:+ String ch EmptyString).
Proof.
  revert cur. induction s as [|c s IH]; intros cur.
  - exists EmptyString. split; [|by left]. by rewrite append_empty_r.
  - cbn [PyStr.split_on_from]. destruct (PyStr.eqb_char c ch) eqn:Hc.
    + apply Ascii.eqb_eq in Hc as ->.
      destruct (IH EmptyString) as (front & Heq & Hfront).
      pose proof (split_on_from_nonempty ch EmptyString s) as Hne.
      destruct (PyStr.split_on_from ch EmptyString s) as [|x l] eqn:Hsplit; [done|].
      rewrite append_nil in Heq.
      exists (cur +:+ String ch front). split.
      * change (List.last (cur :: x :: l) EmptyString)
          with (List.last (x :: l) EmptyString).
        rewrite Heq. by rewrite append_assoc'.
      * right. destruct Hfront as [->|[f ->]].
        -- by exists cur.
        -- exists (cur +:+ String ch f). by rewrite append_assoc'.
    + destruct (IH (PyStr.snoc cur c)) as (front & Heq & Hfront).
      exists front. split; [|done]. by rewrite <- Heq, append_snoc.
Qed.

Lemma last_path_segment_spec url :
  last_path_segment url
    (List.last (PyStr.split_on "/" (PyStr.rstrip_char "/" url)) EmptyString).
Proof.
  unfold last_path_segment, PyStr.rstrip_char.
  set (stripped := PyStr.rstrip_with (PyStr.eqb_char "/") url).
  destruct (rstrip_decomp (PyStr.eqb_char "/") url) as (slashes & Hurl & Hslashes).
  fold stripped in Hurl.
  destruct (split_on_last_decomp "/" EmptyString stripped) as (front & Hs & Hfront).
  rewrite append_nil in Hs. fold (PyStr.split_on "/" stripped) in Hs.
  set (pkg := List.last (PyStr.split_on "/" stripped) EmptyString) in *.
  split.
  - pose proof (split_on_no_sep "/" stripped) as Hall.
    pose proof (split_on_from_nonempty "/" EmptyString stripped) as Hne.
    fold (PyStr.split_on "/" stripped) in Hne. unfold pkg.
    destruct (PyStr.split_on "/" stripped) as [|x l] using rev_ind; [done|].
    rewrite last_last. by apply Forall_app in Hall as [_ [? _]%Forall_cons].
  - exists front, slashes. split; [by rewrite Hurl, Hs, append_assoc'|].
    split; [done|]. split; [done|].
    destruct Hfront as [->|[f ->]]; [by right|]. left. intros Hpkg.
    rewrite Hpkg, append_empty_r in Hs.
    apply rstrip_last in Hs. by rewrite (proj2 (Ascii.eqb_eq _ _) eq_refl) in Hs.
Qed.

Lemma candidate_urls_spec vcs_url : candidate_urls vcs_url (urls_to_try vcs_url).
Proof.
  unfold candidate_urls, urls_to_try, get_github_mirror_url.
  destruct (PyStr.contains "go.googlesource.com" vcs_url); [|done].
  eexists. split; [apply last_path_segment_spec|done].
Qed.

End Candidates.

Section Rounds.

Variable E : Env.

Ltac handler_cases :=
  match goal with
  | H : (if ?b then _ else _) = Some _ |- _ =>
      destruct b eqn:?; [injection H as <- | discriminate H]
  | H : Some _ = Some _ |- _ => injection H as <-
  | H : None = Some _ |- _ => discriminate H
  end.

Ltac solve_grows :=
  repeat first
    [ apply grows_ret | apply grows_subprocess_run | apply grows_path_exists
    | apply grows_fs_op | apply grows_mkdtemp
    | apply grows_bind; [|intros ?]
    | apply grows_try_finally
    | apply grows_try_except; [|intros ? ? ?; handler_cases]
    | match goal with |- grows (if ?b then _ else _) => destruct b end
    | match goal with |- grows (match ?x with _ => _ end) => destruct x end ].

Variable clone_cache_dir : option string.
Variables since until short_commit : string.

Lemma window_log_cmd clone_dir :
  is_window_log (git_log_window_cmd clone_dir since until) clone_dir since until.
Proof. by split. Qed.

Lemma clone_at_hand_mono try_url clone_dir st0 st history :
  events st0 `suffix_of` events st ->
  clone_at_hand E try_url clone_dir st history ->
  clone_at_hand E try_url clone_dir st0 history.
Proof.
  intros H0 [(seen & Hs & Hrest)|(c & cloned & out & err & Hc & Hs & Hrest)].
  - left. exists seen. split; [by etrans|done].
  - right. exists c, cloned, out, err. split; [done|]. split; [by etrans|done].
Qed.

(** The block that clones or updates: when it ends normally, the clone is
    at hand. *)
Lemma prepare_clone_ret try_url clone_dir st u st' :
  (if env_exists E (events st) clone_dir
      && env_exists E (events st) (path_join clone_dir "HEAD")
   then
     try_except
       (subprocess_run E true (git_fetch_all_cmd clone_dir) ;;; ret tt)
       (fun e => if is_process_failure e then Some (ret tt) else None)
   else
     ex' <- path_exists E clone_dir ;;
     (if ex' then fs_op E (EvRmtree clone_dir) else ret tt) ;;;
     fs_op E (EvMkdir clone_dir) ;;;
     subprocess_run E true (git_clone_bare_cmd try_url clone_dir) ;;;
     ret tt) st = (Ret u, st') ->
  events st `suffix_of` events st'
  /\ clone_at_hand E try_url clone_dir st (events st').
Proof.
  destruct (env_exists E (events st) clone_dir
            && env_exists E (events st) (path_join clone_dir "HEAD")) eqn:Hex.
  - intros Hrun.
    assert (Hgrow : events st `suffix_of` events st').
    { eapply grows_run; [|exact Hrun]. solve_grows. }
    split; [done|]. left. exists (events st).
    apply andb_true_iff in Hex as [? ?]. by repeat split.
  - intros Hrun.
    apply bind_ret_inv in Hrun as (ex' & s1 & [= <- <-] & Hrun).
    apply bind_ret_inv in Hrun as (u1 & s2 & H2 & Hrun).
    apply bind_ret_inv in Hrun as (u2 & s3 & H3 & Hrun).
    apply bind_ret_inv in Hrun as (r & s4 & Hclone & [= <- <-]).
    assert (H03 : events st `suffix_of` events s3).
    { etrans.
      - eapply grows_run; [|exact H2]. solve_grows.
      - eapply grows_run; [|exact H3]. solve_grows. }
    pose proof (subprocess_run_events E _ _ _ _ _ Hclone) as Hev.
    split; [rewrite Hev; by apply suffix_cons_r|].
    right. exists (git_clone_bare_cmd try_url clone_dir), (events s3),
             (stdout r), (stderr r).
    split; [done|]. split; [done|]. split; [by rewrite Hev|].
    exact (subprocess_run_checked_inv E _ _ _ _ Hclone).
Qed.

(** The block that clones or updates, left by [CalledProcessError] or
    [TimeoutExpired]: the clone failed. *)
Lemma prepare_clone_raise try_url clone_dir st e st' :
  (if env_exists E (events st) clone_dir
      && env_exists E (events st) (path_join clone_dir "HEAD")
   then
     try_except
       (subprocess_run E true (git_fetch_all_cmd clone_dir) ;;; ret tt)
       (fun e => if is_process_failure e then Some (ret tt) else None)
   else
     ex' <- path_exists E clone_dir ;;
     (if ex' then fs_op E (EvRmtree clone_dir) else ret tt) ;;;
     fs_op E (EvMkdir clone_dir) ;;;
     subprocess_run E true (git_clone_bare_cmd try_url clone_dir) ;;;
     ret tt) st = (Raise e, st') ->
  is_process_failure e = true ->
  exists history,
    events st `suffix_of` history
    /\ events st' = EvRun (git_clone_bare_cmd try_url clone_dir) :: history
    /\ process_failed (env_run E history (git_clone_bare_cmd try_url clone_dir)).
Proof.
  intros Hrun He.
  destruct (env_exists E (events st) clone_dir
            && env_exists E (events st) (path_join clone_dir "HEAD")).
  - apply try_except_raise_inv in Hrun
      as [[_ Hh]|(e0 & s3 & h & _ & Hh & Hrun)].
    + by rewrite He in Hh.
    + destruct (is_process_failure e0); [|done]. by injection Hh as <-.
  - apply bind_raise_inv in Hrun as [Hrun|(ex' & s3 & H3 & Hrun)]; [done|].
    injection H3 as <- <-.
    apply bind_raise_inv in Hrun as [Hrun|(u1 & s4 & H4 & Hrun)].
    { destruct (env_exists E (events st) clone_dir); [|done].
      apply fs_op_raise in Hrun. congruence. }
    apply bind_raise_inv in Hrun as [Hrun|(u2 & s5 & H5 & Hrun)];
      [apply fs_op_raise in Hrun; congruence|].
    apply bind_raise_inv in Hrun as [Hrun|(r & s6 & _ & Hrun)]; [|done].
    exists (events s5). split; [|split].
    + etrans.
      * eapply grows_run; [|exact H4]. solve_grows.
      * eapply grows_run; [|exact H5]. solve_grows.
    + by apply subprocess_run_events in Hrun.
    + by apply (subprocess_run_failure E _ _ e st').
Qed.

(** The body of a round. *)
Lemma clone_and_search_outcome try_url clone_dir st r st' :
  clone_and_search E try_url clone_dir since until short_commit st = (r, st') ->
  match r with
  | Ret found =>
      exists history out err,
        events st `suffix_of` history
        /\ events st' = EvRun (git_log_window_cmd clone_dir since until) :: history
        /\ clone_at_hand E try_url clone_dir st history
        /\ env_run E history (git_log_window_cmd clone_dir since until)
           = Exited 0 out err
        /\ found = find_commit short_commit (PyStr.splitlines (PyStr.strip out))
  | Raise e =>
      is_process_failure e = true ->
      exists history,
        events st `suffix_of` history
        /\ ((events st' = EvRun (git_clone_bare_cmd try_url clone_dir) :: history
             /\ process_failed
                  (env_run E history (git_clone_bare_cmd try_url clone_dir)))
            \/ (events st' = EvRun (git_log_window_cmd clone_dir since until) :: history
                /\ clone_at_hand E try_url clone_dir st history
                /\ process_failed
                     (env_run E history (git_log_window_cmd clone_dir since until))))
  end.
Proof.
  unfold clone_and_search. intros Hrun. destruct r as [found|e].
  - apply bind_ret_inv in Hrun as (ex & s1 & [= <- <-] & Hrun).
    apply bind_ret_inv in Hrun as (ex_head & s2 & H2 & Hrun).
    assert (s2 = st /\ (env_exists E (events st) clone_dir && ex_head
                        = env_exists E (events st) clone_dir
                          && env_exists E (events st) (path_join clone_dir "HEAD")))
      as [-> Hex].
    { destruct (env_exists E (events st) clone_dir); by injection H2 as <- <-. }
    rewrite Hex in Hrun. clear H2 Hex.
    apply bind_ret_inv in Hrun as (u & s3 & H3 & Hrun).
    apply (prepare_clone_ret try_url clone_dir st u s3) in H3 as [H03 Hhand].
    apply bind_ret_inv in Hrun as (result & s4 & Hlog & [= <- <-]).
    exists (events s3), (stdout result), (stderr result).
    split; [done|]. split; [by apply subprocess_run_events in Hlog|].
    split; [done|]. split; [by apply subprocess_run_checked_inv in Hlog|done].
  - intros He.
    apply bind_raise_inv in Hrun as [Hrun|(ex & s1 & [= <- <-] & Hrun)]; [done|].
    apply bind_raise_inv in Hrun as [Hrun|(ex_head & s2 & H2 & Hrun)];
      [by destruct (env_exists E (events st) clone_dir)|].
    assert (s2 = st /\ (env_exists E (events st) clone_dir && ex_head
                        = env_exists E (events st) clone_dir
                          && env_exists E (events st) (path_join clone_dir "HEAD")))
      as [-> Hex].
    { destruct (env_exists E (events st) clone_dir); by injection H2 as <- <-. }
    rewrite Hex in Hrun. clear H2 Hex.
    apply bind_raise_inv in Hrun as [Hrun|(u & s3 & H3 & Hrun)].
    + apply (prepare_clone_raise try_url clone_dir st e st') in Hrun
        as (history & Hs & Hev & Hfail); [|done].
      exists history. split; [done|]. by left.
    + apply (prepare_clone_ret try_url clone_dir st u s3) in H3 as [H03 Hhand].
      apply bind_raise_inv in Hrun as [Hrun|(result & s4 & _ & Hrun)]; [|done].
      exists (events s3). split; [done|]. right.
      split; [by apply subprocess_run_events in Hrun|]. split; [done|].
      by apply (subprocess_run_failure E _ _ e st').
Qed.

Lemma clone_dir_for_ret try_url st clone_dir s1 :
  clone_dir_for E clone_cache_dir try_url st = (Ret clone_dir, s1) ->
  clone_dir = round_clone_dir E clone_cache_dir try_url st
  /\ events st `suffix_of` events s1.
Proof.
  intros Hdir. split.
  - unfold clone_dir_for, round_clone_dir in *.
    destruct clone_cache_dir as [dir|].
    + apply bind_ret_inv in Hdir as (u & s & _ & [= <- _]). done.
    + unfold mkdtemp in Hdir.
      destruct (env_fs_ok E (events st) (EvMkdtemp "pseudo-resolve-")); [|done].
      by injection Hdir as <- _.
  - eapply grows_run; [apply grows_clone_dir_for | exact Hdir].
Qed.

(** One round that ends normally. *)
Lemma try_url_round_outcome try_url st found st' :
  try_url_round E clone_cache_dir since until short_commit try_url st
    = (Ret found, st') ->
  match found with
  | Some h =>
      round_yields E clone_cache_dir since until short_commit try_url h st st'
  | None =>
      round_fails E clone_cache_dir since until short_commit try_url st st'
  end.
Proof.
  unfold try_url_round. intros Hrun.
  apply bind_ret_inv in Hrun as (clone_dir & s1 & Hdir & Hrun).
  apply clone_dir_for_ret in Hdir as [Hclone_dir H01].
  apply try_finally_inv in Hrun as (s2 & u & Hrun & Hclean).
  assert (H2' : events s2 `suffix_of` events st').
  { eapply grows_run; [|exact Hclean]. solve_grows.
    apply grows_remove_temp_clone. }
  apply try_except_ret_inv in Hrun as [Hrun|(e & s3 & h & Hrun & Hh & Hhandler)].
  - apply clone_and_search_outcome in Hrun
      as (history & out & err & Hs & Hev & Hhand & Henv & Hfound).
    assert (Hran : ran_between st st' (git_log_window_cmd clone_dir since until)
                     history)
      by (split; [by etrans | by rewrite <- Hev]).
    apply (clone_at_hand_mono _ _ st) in Hhand; [|done].
    unfold round_yields, round_fails. cbv zeta. rewrite <- Hclone_dir.
    destruct found as [h|].
    + exists (git_log_window_cmd clone_dir since until), history, out, err.
      split; [apply window_log_cmd|]. split; [done|]. split; [done|].
      split; [done|]. by apply find_commit_first.
    + exists (git_log_window_cmd clone_dir since until), history.
      split; [done|]. right. split; [apply window_log_cmd|]. split; [done|].
      right. exists out, err. split; [done|]. by apply find_commit_none.
  - destruct (is_process_failure e) eqn:He; [|done]. injection Hh as <-.
    apply clone_and_search_outcome in Hrun. specialize (Hrun He).
    destruct Hrun as (history & Hs & Hcase).
    apply bind_ret_inv in Hhandler as (u' & s4 & Hrm & [= <- <-]).
    assert (H34 : events s3 `suffix_of` events s4)
      by (eapply grows_run; [apply grows_remove_temp_clone | exact Hrm]).
    unfold round_fails. cbv zeta. rewrite <- Hclone_dir.
    destruct Hcase as [[Hev Hfail]|(Hev & Hhand & Hfail)].
    + exists (git_clone_bare_cmd try_url clone_dir), history.
      split; [split; [by etrans|rewrite <- Hev; by etrans]|]. by left.
    + exists (git_log_window_cmd clone_dir since until), history.
      split; [split; [by etrans|rewrite <- Hev; by etrans]|].
      right. split; [apply window_log_cmd|].
      split; [by apply (clone_at_hand_mono _ _ st) in Hhand|by left].
Qed.

(** The loop over the candidate URLs: every round before the one that
    yields the hash has failed, and a loop that ends without a hash has
    seen every round fail. *)
Lemma try_urls_outcome urls st found st' :
  try_urls E clone_cache_dir since until short_commit urls st = (Ret found, st') ->
  match found with
  | Some h =>
      exists tried try_url rest s1,
        urls = tried ++ try_url :: rest
        /\ rounds_fail E clone_cache_dir since until short_commit tried st s1
        /\ round_yields E clone_cache_dir since until short_commit try_url h s1 st'
  | None => rounds_fail E clone_cache_dir since until short_commit urls st st'
  end.
Proof.
  revert st. induction urls as [|u urls IH]; intros st Hrun.
  - injection Hrun as <- <-. constructor.
  - cbn [try_urls] in Hrun.
    apply bind_ret_inv in Hrun as ([h0|] & s1 & Hround & Hrun).
    + injection Hrun as <- <-. apply try_url_round_outcome in Hround.
      exists [], u, urls, st. split; [done|]. split; [constructor|done].
    + apply try_url_round_outcome in Hround. apply IH in Hrun.
      destruct found as [h|].
      * destruct Hrun as (tried & try_url & rest & s2 & -> & Hfail & Hyield).
        exists (u :: tried), try_url, rest, s2. split; [done|].
        split; [by econstructor|done].
      * by econstructor.
Qed.

End Rounds.

(** C6. A hash that [resolve_pseudo_version_commit] returns starts with
    the short hash and is the first such hash in the output of
    [git log --all --format='%H %ct' --since=.. --until=..] over the day
    before and the day after the timestamp, run in the clone of one of the
    candidate URLs after the rounds of the candidates before it have
    failed; and the result is null only if the timestamp has no such
    window or the round of every candidate URL (the primary, then the
    GitHub mirror when there is one) has failed, one after the other: the
    clone or the log failed or timed out, or the log has no matching
    hash. *)
Theorem resolve_pseudo_version_result
  (E : Env) (vcs_url timestamp_str short_commit : string)
  (clone_cache_dir : option string) (st st' : State) :
  (forall h,
     resolve_pseudo_version_commit E vcs_url timestamp_str short_commit
       clone_cache_dir st = (Ret (Some h), st') ->
     PyStr.startswith short_commit h = true
     /\ exists since until urls tried try_url rest s1,
          date_window timestamp_str since until
          /\ candidate_urls vcs_url urls
          /\ urls = tried ++ try_url :: rest
          /\ rounds_fail E clone_cache_dir since until short_commit tried st s1
          /\ round_yields E clone_cache_dir since until short_commit try_url h
               s1 st')
  /\ (resolve_pseudo_version_commit E vcs_url timestamp_str short_commit
        clone_cache_dir st = (Ret None, st') ->
      (forall since until, ~ date_window timestamp_str since until)
      \/ exists since until urls,
           date_window timestamp_str since until
           /\ candidate_urls vcs_url urls
           /\ rounds_fail E clone_cache_dir since until short_commit urls st st').
Proof.
  unfold resolve_pseudo_version_commit.
  destruct (search_window timestamp_str) as [[since until]|] eqn:Hwindow; split.
  - intros h Hrun. apply search_window_spec in Hwindow.
    apply try_urls_outcome in Hrun
      as (tried & try_url & rest & s1 & Hurls & Hfail & Hyield).
    split.
    + destruct Hyield as (c & history & out & err & _ & _ & _ & _ & Hfirst).
      by destruct Hfirst as (before & l & after & _ & _ & Hst & _).
    + exists since, until, (urls_to_try vcs_url), tried, try_url, rest, s1.
      split; [done|]. split; [apply candidate_urls_spec|done].
  - intros Hrun. right. apply search_window_spec in Hwindow.
    apply try_urls_outcome in Hrun.
    exists since, until, (urls_to_try vcs_url).
    split; [done|]. split; [apply candidate_urls_spec|done].
  - done.
  - intros _. left. by apply search_window_none.
Qed.

Lemma resolve_pseudo_version_result_witness :
  ((resolve_pseudo_version_commit env_golang_tools
      "https://go.googlesource.com/tools" "20200815063812" "42c35b437635"
      (Some "/scripts/.cache/repos") initial_state).1
   = Ret (Some "42c35b4376350123456789abcdef0123456789ab")
   /\ PyStr.startswith "42c35b437635" "42c35b4376350123456789abcdef0123456789ab"
      = true)
  /\ exists since until urls,
       date_window "20200815063812" since until
       /\ candidate_urls "https://go.googlesource.com/tools" urls
       /\ rounds_fail env_all_timeouts (Some "/scripts/.cache/repos")
            since until "42c35b437635" urls initial_state
            (resolve_pseudo_version_commit env_all_timeouts
               "https://go.googlesource.com/tools" "20200815063812"
               "42c35b437635" (Some "/scripts/.cache/repos") initial_state).2.
Proof.
  split.
  - split; [vm_compute; reflexivity|].
    destruct (resolve_pseudo_version_result env_golang_tools
                "https://go.googlesource.com/tools" "20200815063812" "42c35b437635"
                (Some "/scripts/.cache/repos") initial_state
                (resolve_pseudo_version_commit env_golang_tools
                   "https://go.googlesource.com/tools" "20200815063812"
                   "42c35b437635" (Some "/scripts/.cache/repos") initial_state).2)
      as [Hsome _].
    destruct (Hsome "42c35b4376350123456789abcdef0123456789ab") as [Hstart _];
      [vm_compute; reflexivity|exact Hstart].
  - destruct (resolve_pseudo_version_result env_all_timeouts
                "https://go.googlesource.com/tools" "20200815063812" "42c35b437635"
                (Some "/scripts/.cache/repos") initial_state
                (resolve_pseudo_version_commit env_all_timeouts
                   "https://go.googlesource.com/tools" "20200815063812"
                   "42c35b437635" (Some "/scripts/.cache/repos") initial_state).2)
      as [_ Hnone].
    destruct Hnone as [Hno|Hall]; [vm_compute; reflexivity| |exact Hall].
    exfalso. apply (Hno "2020-08-14T06:38:12" "2020-08-16T06:38:12").
    apply search_window_spec. vm_compute. reflexivity.
Defined.

(** ** Hashes of discovered records *)

Section Synthesis.

Variable E : Env.
Variable cfg : Config.
Variable info_files : string -> option (list (string * option InfoFile)).

Lemma keeps_lookups_refl st : keeps_lookups st st.
Proof. by intros key value. Qed.

Lemma keeps_lookups_trans st s1 st' :
  keeps_lookups st s1 -> keeps_lookups s1 st' -> keeps_lookups st st'.
Proof. intros H1 H2 key value Hk. by apply H2, H1. Qed.

Lemma synthesized_from_keeps module r st st' :
  keeps_lookups st st' -> synthesized_from module r st -> synthesized_from module r st'.
Proof.
  intros Hkeep (H1 & H2 & H3 & H4 & H5 & H6 & H7 & H8).
  repeat split; try done. by apply Hkeep.
Qed.

Lemma synthesize_version_outcome module entry st r st' :
  has_major_suffix (module_path module) = true ->
  synthesize_version E cfg (vcs_url module)
    (major_base_path (module_path module)) entry st = (r, st') ->
  keeps_lookups st st'
  /\ exists synthesized,
       r = Ret synthesized
       /\ forall record, synthesized = Some record ->
            synthesized_from module record st'.
Proof.
  intros Hmajor. unfold synthesize_version. destruct entry as [ver content].
  destruct (PyStr.endswith "+incompatible" ver) eqn:Hend; cbn [negb].
  2:{ intros [= <- <-]. split; [apply keeps_lookups_refl|]. by exists None. }
  unfold try_except.
  destruct content as [info|].
  2:{ cbn. intros [= <- <-]. split; [apply keeps_lookups_refl|]. by exists None. }
  destruct (truthy (info_origin_url info) && truthy (info_origin_hash info)).
  { intros [= <- <-]. split; [apply keeps_lookups_refl|]. by exists None. }
  unfold bind.
  destruct (git_ls_remote E cfg (vcs_url module) _ st) as [[found|e] s1] eqn:Hlookup.
  - apply git_ls_remote_effect in Hlookup as [Hkeep Hfound].
    destruct found as [h|]; cbn [truthy negb].
    + destruct (PyStr.is_empty h) eqn:Hh; cbn [negb].
      * intros [= <- <-]. split; [done|]. by exists None.
      * intros [= <- <-]. split; [done|]. eexists. split; [done|].
        intros record [= <-]. unfold synthesized_from.
        cbn [module_path vcs_url version vcs_ref subdir vcs_hash default
             from_option id].
        repeat split; try done. by destruct h.
    + intros [= <- <-]. split; [done|]. by exists None.
  - apply git_ls_remote_effect in Hlookup as [Hkeep _].
    intros [= <- <-]. split; [done|]. by exists None.
Qed.

Lemma synthesize_versions_outcome module entries st r st' :
  has_major_suffix (module_path module) = true ->
  synthesize_versions E cfg (vcs_url module)
    (major_base_path (module_path module)) entries st = (r, st') ->
  keeps_lookups st st'
  /\ exists synthesized,
       r = Ret synthesized
       /\ Forall (fun record => synthesized_from module record st') synthesized.
Proof.
  intros Hmajor. revert st r st'.
  induction entries as [|entry entries IH]; intros st r st'.
  - intros [= <- <-]. split; [apply keeps_lookups_refl|]. by exists [].
  - cbn [synthesize_versions]. unfold bind at 1.
    destruct (synthesize_version E cfg _ _ entry st) as [r1 s1] eqn:H1.
    apply synthesize_version_outcome in H1 as [Hk1 (one & -> & Hone)]; [|done].
    unfold bind.
    destruct (synthesize_versions E cfg _ _ entries s1) as [r2 s2] eqn:H2.
    apply IH in H2 as [Hk2 (more & -> & Hmore)].
    intros [= <- <-]. split; [by apply (keeps_lookups_trans st s1)|].
    eexists. split; [done|]. destruct one as [record|]; [|done].
    constructor; [|done].
    apply (synthesized_from_keeps _ _ s1); [done|by apply Hone].
Qed.

Lemma synthesize_for_outcome acc module st r st' :
  synthesize_for E cfg info_files acc module st = (r, st') ->
  keeps_lookups st st'
  /\ exists synthesized paths,
       r = Ret (acc.1 ++ synthesized, paths)
       /\ Forall (fun record => synthesized_from module record st') synthesized.
Proof.
  unfold synthesize_for.
  destruct (has_major_suffix (module_path module)) eqn:Hmajor; cbn [negb].
  2:{ intros [= <- <-]. split; [apply keeps_lookups_refl|].
      exists [], acc.2. rewrite app_nil_r. by destruct acc. }
  case_bool_decide.
  { intros [= <- <-]. split; [apply keeps_lookups_refl|].
    exists [], acc.2. rewrite app_nil_r. by destruct acc. }
  destruct (info_files _) as [entries|].
  2:{ intros [= <- <-]. split; [apply keeps_lookups_refl|].
      exists [], acc.2. rewrite app_nil_r. by destruct acc. }
  unfold bind.
  destruct (synthesize_versions E cfg _ _ entries st) as [r1 s1] eqn:H1.
  apply synthesize_versions_outcome in H1 as [Hk (synthesized & -> & Hall)]; [|done].
  intros [= <- <-]. split; [done|]. by eexists _, _.
Qed.

Lemma synthesize_all_outcome acc modules st r st' :
  synthesize_all E cfg info_files acc modules st = (r, st') ->
  keeps_lookups st st'
  /\ exists synthesized paths,
       r = Ret (acc.1 ++ synthesized, paths)
       /\ Forall (fun record =>
                    exists module, module ∈ modules
                                   /\ synthesized_from module record st')
                 synthesized.
Proof.
  revert acc st r st'.
  induction modules as [|module modules IH]; intros acc st r st'.
  - intros [= <- <-]. split; [apply keeps_lookups_refl|].
    exists [], acc.2. rewrite app_nil_r. by destruct acc.
  - cbn [synthesize_all]. unfold bind.
    destruct (synthesize_for E cfg info_files acc module st) as [r1 s1] eqn:H1.
    apply synthesize_for_outcome in H1 as [Hk1 (new & paths & -> & Hnew)].
    intros Hrest. apply IH in Hrest as [Hk2 (more & paths' & -> & Hmore)].
    split; [by apply (keeps_lookups_trans st s1)|].
    exists (new ++ more), paths'. cbn [fst]. split; [by rewrite app_assoc|].
    apply Forall_app. split.
    + eapply Forall_impl; [exact Hnew|]. intros record Hr. exists module.
      split; [apply elem_of_cons; by left|].
      by apply (synthesized_from_keeps _ _ s1).
    + eapply Forall_impl; [exact Hmore|]. intros record (m & Hin & Hr).
      exists m. split; [apply elem_of_cons; by right|done].
Qed.

(** [discover_modules] cannot fail in its second loop, and what it returns
    is the list of the first loop followed by synthesized records. *)
Lemma synthesize_incompatible_outcome modules st :
  exists synthesized st',
    synthesize_incompatible E cfg info_files modules st
      = (Ret (modules ++ synthesized), st')
    /\ Forall (fun record =>
                 exists module, module ∈ modules
                                /\ synthesized_from module record st')
              synthesized.
Proof.
  unfold synthesize_incompatible, bind.
  destruct (synthesize_all E cfg info_files
              ([], list_to_set (module_path <$> modules)) modules st)
    as [r s1] eqn:Hall.
  apply synthesize_all_outcome in Hall as [_ (synthesized & paths & -> & Hs)].
  by exists synthesized, s1.
Qed.

End Synthesis.

Section Expansion.

Variable E : Env.
Variable cfg : Config.

Lemma expand_short_hash_expansion module st module' st' :
  expand_short_hash E cfg module st = (Ret module', st') ->
  expansion E cfg module module' st st'.
Proof.
  unfold expand_short_hash, expansion.
  destruct (String.length (vcs_hash module) =? 12)%nat eqn:Hlen; cbn [negb].
  2:{ apply Nat.eqb_neq in Hlen. rewrite bool_decide_eq_false_2 by done.
      by intros [= <- <-]. }
  apply Nat.eqb_eq in Hlen. rewrite bool_decide_eq_true_2 by done.
  destruct (parse_pseudo_version_tag _) as [[timestamp_str short]|];
    [|by intros [= <- <-]].
  intros Hrun. apply bind_ret_inv in Hrun as (found & s1 & Hresolve & Hrun).
  exists found. destruct found as [h|].
  - destruct (String.length h =? 40)%nat eqn:Hfull.
    + apply Nat.eqb_eq in Hfull. rewrite bool_decide_eq_true_2 by done.
      assert (Hne : PyStr.is_empty h = false) by (by destruct h).
      rewrite Hne in Hrun. by injection Hrun as <- <-.
    + apply Nat.eqb_neq in Hfull. rewrite bool_decide_eq_false_2 by done.
      rewrite andb_false_r in Hrun. by injection Hrun as <- <-.
  - by injection Hrun as <- <-.
Qed.

Lemma expand_short_hashes_expansions modules st modules' st' :
  expand_short_hashes E cfg modules st = (Ret modules', st') ->
  expansions E cfg modules modules' st st'.
Proof.
  revert st st' modules'.
  induction modules as [|module rest IH]; intros st st' modules'.
  - intros [= <- <-]. constructor.
  - cbn [expand_short_hashes]. intros Hrun.
    apply bind_ret_inv in Hrun as (module' & s1 & Hone & Hrun).
    apply bind_ret_inv in Hrun as (rest' & s2 & Hrest & Hrun).
    injection Hrun as <- <-. econstructor.
    + by apply expand_short_hash_expansion.
    + by apply IH.
Qed.

End Expansion.

Lemma discovered_module_hash ov mpath ver origin_url origin_hash origin_ref
    origin_subdir time r :
  discovered_module ov mpath ver origin_url origin_hash origin_ref
    origin_subdir time = Some r ->
  origin_hash = Some (vcs_hash r) /\ String.length (vcs_hash r) = 40%nat.
Proof.
  unfold discovered_module.
  destruct origin_url as [url|], origin_hash as [hash|]; try done.
  destruct (PyStr.is_empty url || PyStr.is_empty hash); [done|].
  destruct (repo_override_candidates ov mpath (Some ver)) as [overrides|e]; [|done].
  destruct (String.length hash =? 40)%nat eqn:Hlen; [|done].
  intros [= <-]. cbn. split; [done|]. by apply Nat.eqb_eq.
Qed.

(** C2 (amended).  An entry that [prune_metadata_cache] keeps has a commit
    of exactly 40 hexadecimal characters of either case.  A record that the
    first loop of [discover_modules] builds from an [.info] file has a hash
    of exactly 40 characters (discovery does not look at the characters);
    [discover_modules] returns these records followed by the ones it
    synthesizes for [+incompatible] versions, each of which carries the
    non-empty hash that [git_ls_remote] stored for the tag of the version,
    whatever its length.  [load_discovered_modules] returns each record as
    it read it, except that the 12-character hash of a pseudo-version is
    replaced by the hash the resolver returns when that has 40 characters.
    Lower case is nowhere required. *)
Theorem kept_hashes_have_40_characters :
  (forall (ov : Overrides) (cache cache' : gmap ModKey Meta.entry)
          (dirty dirty' : bool) (key : ModKey) (entry : Meta.entry),
     prune_metadata_cache ov cache dirty = Ret (cache', dirty') ->
     cache' !! key = Some entry ->
     cache !! key = Some entry
     /\ String.length (Meta.commit entry) = 40%nat
     /\ PyStr.forallb_char PyStr.is_hex (Meta.commit entry) = true)
  /\ (forall (ov : Overrides) (mpath ver : string) (origin_url origin_hash : option string)
             (origin_ref origin_subdir time : string) (r : ModuleRecord),
        discovered_module ov mpath ver origin_url origin_hash origin_ref
          origin_subdir time = Some r ->
        origin_hash = Some (vcs_hash r) /\ String.length (vcs_hash r) = 40%nat)
  /\ (forall (E : Env) (cfg : Config) (ov : Overrides)
             (info_files : string -> option (list (string * option InfoFile)))
             (found : list OriginInfo) (st : State),
        exists synthesized st',
          discover_modules E cfg ov info_files found st
            = (Ret (omap (discovered_of ov) found ++ synthesized), st')
          /\ Forall (fun record => String.length (vcs_hash record) = 40%nat)
                    (omap (discovered_of ov) found)
          /\ Forall (fun record =>
                       exists module,
                         module ∈ omap (discovered_of ov) found
                         /\ synthesized_from module record st')
                    synthesized)
  /\ (forall (E : Env) (cfg : Config) (modules modules' : list ModuleRecord)
             (st st' : State),
        load_discovered_modules E cfg modules st = (Ret (Some modules'), st') ->
        expansions E cfg modules modules' st st').
Proof.
  split; [|split; [|split]].
  - intros ov cache cache' dirty dirty' key entry Hprune Hk.
    unfold prune_metadata_cache in Hprune.
    pose proof (prune_fold_kept ov cache cache) as Hkept.
    destruct (map_fold (prune_step ov) (Ret (cache, false)) cache)
      as [[c removed]|e]; [|done].
    injection Hprune as <- _.
    destruct (Hkept c removed eq_refl key entry Hk) as [H0 Hseen].
    split; [done|]. by apply (keep_metadata_commit ov key), Hseen.
  - intros ov mpath ver origin_url origin_hash origin_ref origin_subdir time r.
    apply discovered_module_hash.
  - intros E cfg ov info_files found st. unfold discover_modules.
    destruct (synthesize_incompatible_outcome E cfg info_files
                (omap (discovered_of ov) found) st)
      as (synthesized & st' & Hrun & Hall).
    exists synthesized, st'. split; [done|]. split; [|done].
    apply Forall_forall. intros record Hin.
    apply list_elem_of_omap in Hin as (info & _ & Hinfo).
    by apply discovered_module_hash in Hinfo as [_ ?].
  - intros E cfg modules modules' st st' Hload.
    unfold load_discovered_modules in Hload.
    apply try_except_ret_inv in Hload as [Hload|(e & s1 & h & _ & [= <-] & Hh)].
    + apply bind_ret_inv in Hload as (ms & s1 & Hexp & [= <- <-]).
      by apply expand_short_hashes_expansions.
    + done.
Qed.

Lemma kept_hashes_have_40_characters_witness :
  (String.length upper_hash = 40%nat
   /\ PyStr.forallb_char PyStr.is_hex upper_hash = true)
  /\ String.length upper_hash = 40%nat
  /\ (exists synthesized st',
        discover_modules env_long_hashes cfg_default no_overrides
          restful_info_files [restful_v3] initial_state
        = (Ret (omap (discovered_of no_overrides) [restful_v3] ++ synthesized), st')
        /\ Forall (fun record => String.length (vcs_hash record) = 40%nat)
                  (omap (discovered_of no_overrides) [restful_v3])
        /\ Forall (fun record =>
                     exists module,
                       module ∈ omap (discovered_of no_overrides) [restful_v3]
                       /\ synthesized_from module record st')
                  synthesized)
  /\ expansions env_all_timeouts cfg_default [short_hash_record] [short_hash_record]
       initial_state
       (load_discovered_modules env_all_timeouts cfg_default
          [short_hash_record] initial_state).2.
Proof.
  destruct kept_hashes_have_40_characters as (Hprune & Hdiscover & Hall & Hload).
  split; [|split; [|split]].
  - destruct (Hprune no_overrides
                {[ ("github.com/spf13/cobra", "v1.8.0") := upper_hash_entry ]}
                {[ ("github.com/spf13/cobra", "v1.8.0") := upper_hash_entry ]}
                false false ("github.com/spf13/cobra", "v1.8.0") upper_hash_entry)
      as (_ & Hlen & Hhex).
    + vm_compute. reflexivity.
    + apply lookup_singleton_eq.
    + split; [exact Hlen | exact Hhex].
  - destruct (Hdiscover no_overrides "github.com/spf13/cobra" "v1.8.0"
                (Some "https://github.com/spf13/cobra") (Some upper_hash)
                "refs/tags/v1.8.0" "" "2023-11-04T00:00:00Z"
                {| module_path := "github.com/spf13/cobra"; version := "v1.8.0";
                   vcs_url := "https://github.com/spf13/cobra";
                   vcs_hash := upper_hash; vcs_ref := "refs/tags/v1.8.0";
                   timestamp := "2023-11-04T00:00:00Z"; subdir := "" |})
      as [_ Hlen].
    + vm_compute. reflexivity.
    + exact Hlen.
  - exact (Hall env_long_hashes cfg_default no_overrides restful_info_files
             [restful_v3] initial_state).
  - apply (Hload env_all_timeouts cfg_default [short_hash_record] [short_hash_record]
             initial_state
             (load_discovered_modules env_all_timeouts cfg_default
                [short_hash_record] initial_state).2).
    vm_compute. reflexivity.
Defined.

(** The hash of a synthesized record is not measured: with a remote that
    prints hashes of 64 characters, [discover_modules] returns the record of
    [go-restful/v3] followed by one for [go-restful] at
    [v2.16.0+incompatible] that carries such a hash. *)
Lemma synthesized_hash_is_not_measured :
  (discover_modules env_long_hashes cfg_default no_overrides restful_info_files
     [restful_v3] initial_state).1
  = Ret (omap (discovered_of no_overrides) [restful_v3] ++ [restful_v2_synthesized])
  /\ String.length (vcs_hash restful_v2_synthesized) = 64%nat.
Proof. split; [vm_compute; reflexivity|reflexivity]. Qed.

(** C2 as stated fails.  Discovery accepts a 40-character hash written in
    upper case, and pruning keeps a cache entry with it; and a
    pre-discovered record whose 12-character hash cannot be expanded (here
    every clone runs into its timeout) is returned with the short hash. *)
Lemma emitted_hash_need_not_be_lower_hex40 :
  (exists r,
     discovered_module no_overrides "github.com/spf13/cobra" "v1.8.0"
       (Some "https://github.com/spf13/cobra") (Some upper_hash)
       "refs/tags/v1.8.0" "" "2023-11-04T00:00:00Z" = Some r
     /\ is_lower_hex40 (vcs_hash r) = false
     /\ prune_metadata_cache no_overrides
          {[ ("github.com/spf13/cobra", "v1.8.0") := upper_hash_entry ]} false
        = Ret ({[ ("github.com/spf13/cobra", "v1.8.0") := upper_hash_entry ]}, false))
  /\ (load_discovered_modules env_all_timeouts cfg_default
        [short_hash_record] initial_state).1
     = Ret (Some [short_hash_record])
  /\ is_lower_hex40 (vcs_hash short_hash_record) = false.
Proof.
  split; [|split].
  - eexists. split; [vm_compute; reflexivity|]. split; [reflexivity|].
    vm_compute. reflexivity.
  - vm_compute. reflexivity.
  - reflexivity.
Qed.
